(** * Browser backup / restore tools: a shallow embedding

    Embedding of [src/tools/backup_browser.py] (class [BrowserBackup]) and
    [src/tools/restore_browser_backup.py] (class [BrowserRestore]).

    - Python [str] values are [string]; [x in s], [s.lower()],
      [s.endswith(t)] and [s[:-2]] are written out below (ASCII only).
    - A [pathlib.Path] is the list of its components; [str(p)] joins them
      with the POSIX separator.
    - Python dictionaries that are iterated ([config], [backup_options],
      [results]) are insertion-ordered association lists with unique keys.
    - The disk is a finite map from paths to file contents, together with
      the set of directories made by [mkdir]. [mkdir], [copy2], [open] for
      writing and [rmtree] look at it: a regular file in the way stops
      [mkdir], a copy onto a directory goes into it, a file is created only
      in a directory that is there.
    - Methods that log, touch the disk or raise run in a small state and
      exception monad; the state survives a raised exception, as in Python.
    - A method reads one tree and writes another: [backup_browser] reads
      the profile directories and writes the backup directory,
      [restore_browser] the other way round. The tree that is read is a
      parameter, the tree that is written is in the state (a backup
      directory inside a profile directory is not modelled).
    - The other faults of the operating system (a failing [mkdir],
      [copy2], [open], [rmtree] and what it had removed by then, a copy
      that writes other bytes) are read from an environment record, so that
      every statement quantifies over them; so is the text that [json.dump]
      writes into the report, which holds the time of the call.
    - The workers of the thread pool write disjoint subtrees; they are run
      one after the other, in the order of submission.
    - [run] and [restore_run] take the platform table as a parameter;
      the tables of the two classes are given for a [host] record
      ([platform.system()], the environment variables, the home directory).
      The answers to the interactive menus are parameters: a stripped
      string, or what [int] makes of the answer. Progress bars and the
      set-up of the log file are left out.
    - Timestamps are integers (seconds); floating point rounding of
      [time.time()] is not modelled. *)

From stdpp Require Import gmap strings list fin_maps.
From Stdlib Require Import ZArith Lia Ascii Sorted.

Open Scope string_scope.
Open Scope Z_scope.
Open Scope list_scope.

(** ** Python strings *)

Module Py.

(** [needle in hay] on [str]. *)
Fixpoint str_in (needle hay : string) : bool :=
  match hay with
  | EmptyString => String.prefix needle EmptyString
  | String _ hay' => String.prefix needle hay || str_in needle hay'
  end.

Definition lower_ascii (c : ascii) : ascii :=
  let n := nat_of_ascii c in
  if (Nat.leb 65 n && Nat.leb n 90)%bool then ascii_of_nat (n + 32) else c.

(** [s.lower()], on ASCII letters. *)
Fixpoint lower (s : string) : string :=
  match s with
  | EmptyString => EmptyString
  | String c s' => String (lower_ascii c) (lower s')
  end.

(** [s.endswith(suffix)]. *)
Definition endswith (s suffix : string) : bool :=
  let n := String.length s in
  let k := String.length suffix in
  (Nat.leb k n && String.eqb (String.substring (n - k) k s) suffix)%bool.

(** [s[:-k]]. *)
Definition drop_last (k : nat) (s : string) : string :=
  String.substring 0 (String.length s - k) s.

(** [any(...)] and [all(...)] over a list of booleans. *)
Definition any (bs : list bool) : bool := existsb id bs.
Definition all (bs : list bool) : bool := forallb id bs.

(** *** Dictionaries with string keys, in insertion order *)

Definition dict (V : Type) : Type := list (string * V).

Fixpoint get {V} (d : dict V) (k : string) : option V :=
  match d with
  | [] => None
  | (k', v) :: d' => if String.eqb k' k then Some v else get d' k
  end.

(** [d[k] = v]: replaces the value in place, or appends a new key. *)
Fixpoint set {V} (d : dict V) (k : string) (v : V) : dict V :=
  match d with
  | [] => [(k, v)]
  | (k', v') :: d' =>
      if String.eqb k' k then (k', v) :: d' else (k', v') :: set d' k v
  end.

Definition keys {V} (d : dict V) : list string := map fst d.
Definition values {V} (d : dict V) : list V := map snd d.

(** [dict(items)]: later items win, keys keep their first position. *)
Definition of_items {V} (items : list (string * V)) : dict V :=
  fold_left (fun d kv => set d kv.1 kv.2) items [].

(** [{**d1, **d2}]. *)
Definition merge {V} (d1 d2 : dict V) : dict V :=
  fold_left (fun d kv => set d kv.1 kv.2) d2 d1.

(** [d.get(k, default)]. *)
Definition get_default {V} (d : dict V) (k : string) (default : V) : V :=
  match get d k with Some v => v | None => default end.

(** [s.startswith(prefix)]. *)
Definition startswith (s prefix : string) : bool := String.prefix prefix s.

End Py.

(** ** Exceptions, log records and the effect monad *)

Inductive exn : Type :=
| KeyError (key : string)
| TypeError
| ValueError
| JSONDecodeError
| OSError (p : list string).

Inductive level : Type := INFO | WARNING | ERROR.

(** The messages the two classes pass to [self.logger]. *)
Inductive message : Type :=
| Error_loading_config (e : exn)
| Verification_failed (e : exn)
| Error_copying (file : string) (e : exn)
| Error_backing_up (browser : string) (e : exn)
| Removed_old_backup (dir : list string)
| Error_cleaning_up (e : exn)
| Starting_backup
| No_profiles_found
| Backup_process_failed (e : exn)
| Source_path_missing (p : list string)
| Error_restoring (p : list string) (e : exn)
| Failed_to_restore (browser : string) (e : exn)
| Starting_restore
| Error_restoring_browser (browser : string) (e : exn)
| Restore_process_failed (e : exn).

Definition log_record : Type := level * message.

Inductive result (A : Type) : Type :=
| Ok (a : A)
| Raise (e : exn).
Arguments Ok {A} a.
Arguments Raise {A} e.

(** A computation over a state [S]: it returns or raises, and leaves a
    state behind in both cases. *)
Definition M (S A : Type) : Type := S -> result A * S.

Definition ret {S A} (a : A) : M S A := fun s => (Ok a, s).

Definition raise {S A} (e : exn) : M S A := fun s => (Raise e, s).

Definition bind {S A B} (c : M S A) (k : A -> M S B) : M S B :=
  fun s =>
    match c s with
    | (Ok a, s') => k a s'
    | (Raise e, s') => (Raise e, s')
    end.

(** [try: c  except Exception as e: handler(e)]. *)
Definition try_except {S A} (c : M S A) (handler : exn -> M S A) : M S A :=
  fun s =>
    match c s with
    | (Ok a, s') => (Ok a, s')
    | (Raise e, s') => handler e s'
    end.

Definition gets {S A} (f : S -> A) : M S A := fun s => (Ok (f s), s).
Definition modify {S} (f : S -> S) : M S unit := fun s => (Ok tt, f s).

(** [for x in xs: body(x)]: a raised exception leaves the loop. *)
Fixpoint for_each {S A} (xs : list A) (body : A -> M S unit) : M S unit :=
  match xs with
  | [] => ret tt
  | x :: xs' => bind (body x) (fun _ => for_each xs' body)
  end.

Declare Scope monad_scope.
Delimit Scope monad_scope with monad.
Notation "'let*' x := c 'in' k" := (bind c (fun x => k))
  (at level 10, x name, c at level 100, k at level 200) : monad_scope.
Notation "'do' c 'then' k" := (bind c (fun _ => k))
  (at level 10, c at level 100, k at level 200) : monad_scope.
Open Scope monad_scope.

(** ** Configuration ([BrowserBackup.load_config]) *)

#[warnings="-register-all"]
Inductive json : Type :=
| JNull
| JBool (b : bool)
| JNum (n : Z)
| JStr (s : string)
| JArr (items : list json)
| JObj (members : list (string * json)).

Definition jbools (kvs : list (string * bool)) : json :=
  JObj (map (fun kv => (kv.1, JBool kv.2)) kvs).

Definition default_config : Py.dict json :=
  [ ("max_workers", JNum 4);
    ("verify_copies", JBool true);
    ("compression", JBool true);
    ("retention_days", JNum 30);
    ("excluded_files",
       JArr [JStr ".lock"; JStr "Cache"; JStr "GPUCache"; JStr "CacheDictionary"]);
    ("browsers",
       jbools [("chrome", true); ("firefox", true); ("edge", true);
               ("brave", true); ("opera", true); ("vivaldi", true)]);
    ("backup_options",
       jbools [("bookmarks", true); ("history", true); ("passwords", true);
               ("extensions", true); ("cookies", true); ("preferences", true)]) ].

(** What [load_config] finds at [config/browser_backup_config.json]. *)
Inductive config_file : Type :=
| Absent (write_fails : bool)   (* no file; writing the defaults may raise *)
| Unreadable                    (* [open] raises *)
| Malformed                     (* [json.load] raises *)
| Parsed (j : json).            (* [json.load] returns [j] *)

Record loaded : Type := {
  loaded_config : Py.dict json;
  loaded_log : list log_record;
  wrote_defaults : bool
}.

(** [{**default_config, **j}] raises unless [j] is a mapping. *)
Definition merge_loaded (j : json) : result (Py.dict json) :=
  match j with
  | JObj members => Ok (Py.merge default_config (Py.of_items members))
  | _ => Raise TypeError
  end.

Definition load_config (f : config_file) : loaded :=
  let attempt : result (Py.dict json * bool) :=
    match f with
    | Parsed j =>
        match merge_loaded j with
        | Ok c => Ok (c, false)
        | Raise e => Raise e
        end
    | Malformed => Raise JSONDecodeError
    | Unreadable => Raise (OSError ["config"; "browser_backup_config.json"])
    | Absent false => Ok (default_config, true)
    | Absent true => Raise (OSError ["config"; "browser_backup_config.json"])
    end in
  match attempt with
  | Ok (c, w) => {| loaded_config := c; loaded_log := []; wrote_defaults := w |}
  | Raise e =>
      {| loaded_config := default_config;
         loaded_log := [(ERROR, Error_loading_config e)];
         wrote_defaults := false |}
  end.

(** The options as the methods read them from [self.config]. *)
Record config : Type := {
  max_workers : Z;
  verify_copies : bool;
  retention_days : Z;
  excluded_files : list string;
  browsers : Py.dict bool;
  backup_options : Py.dict bool
}.

Definition as_bool (j : json) : option bool :=
  match j with JBool b => Some b | _ => None end.
Definition as_num (j : json) : option Z :=
  match j with JNum n => Some n | _ => None end.
Definition as_str (j : json) : option string :=
  match j with JStr s => Some s | _ => None end.
Definition as_strs (j : json) : option (list string) :=
  match j with JArr items => mapM as_str items | _ => None end.
Definition as_flags (j : json) : option (Py.dict bool) :=
  match j with
  | JObj members =>
      mapM (fun kv => b ← as_bool kv.2; Some (kv.1, b)) (Py.of_items members)
  | _ => None
  end.

Definition config_of (d : Py.dict json) : option config :=
  w ← Py.get d "max_workers" ≫= as_num;
  v ← Py.get d "verify_copies" ≫= as_bool;
  r ← Py.get d "retention_days" ≫= as_num;
  x ← Py.get d "excluded_files" ≫= as_strs;
  b ← Py.get d "browsers" ≫= as_flags;
  o ← Py.get d "backup_options" ≫= as_flags;
  Some {| max_workers := w; verify_copies := v; retention_days := r;
          excluded_files := x; browsers := b; backup_options := o |}.


(** ** Paths and the disk *)

Abbreviation path := (list string) (only parsing).
Abbreviation content := string (only parsing).

(** [str(p)]. *)
Definition path_str (p : path) : string := String.concat "/" p.

(** [p.name] and [p.parent]. *)
Definition name (p : path) : string := List.last p "".
Definition parent (p : path) : path := removelast p.

(** [p.relative_to(base)], for [p] under [base]. *)
Definition relative_to (p base : path) : path := drop (length base) p.

(** [p] lies strictly below [top]. *)
Definition below (top p : path) : Prop :=
  top `prefix_of` p ∧ (length top < length p)%nat.

#[global] Instance below_dec top p : Decision (below top p).
Proof. unfold below. apply _. Defined.

Record disk : Type := {
  files : gmap path content;   (* regular files *)
  dirs : gset path             (* directories made by [mkdir] *)
}.

Definition empty_disk : disk := {| files := ∅; dirs := ∅ |}.

Definition write_file (p : path) (c : content) (d : disk) : disk :=
  {| files := <[p := c]> (files d); dirs := dirs d |}.

Definition make_dir (p : path) (d : disk) : disk :=
  {| files := files d; dirs := {[p]} ∪ dirs d |}.

Definition remove_tree (p : path) (d : disk) : disk :=
  {| files := filter (λ kv, ¬ p `prefix_of` kv.1) (files d);
     dirs := filter (λ q, ¬ p `prefix_of` q) (dirs d) |}.

Definition file_paths (d : disk) : list path := (map_to_list (files d)).*1.
Definition all_paths (d : disk) : list path := file_paths d ++ elements (dirs d).

Definition is_file (d : disk) (p : path) : bool := bool_decide (is_Some (files d !! p)).

(** [p.exists()]: a file, a directory that was made, or an ancestor of one. *)
Definition exists_ (d : disk) (p : path) : bool :=
  existsb (λ q, bool_decide (p `prefix_of` q)) (all_paths d).

Definition is_dir (d : disk) (p : path) : bool := negb (is_file d p) && exists_ d p.

(** A regular file lies at [p] or above it, so that no directory can be
    made at [p]. *)
Definition file_above (d : disk) (p : path) : bool :=
  existsb (λ q, bool_decide (q `prefix_of` p)) (file_paths d).

(** [open(p, "w")] finds its place: [p] is no directory, and its parent
    is one. *)
Definition can_create (d : disk) (p : path) : bool :=
  negb (is_dir d p) && exists_ d (parent p) && negb (file_above d (parent p)).

(** What a failing [rmtree(p)] leaves: [p] itself, and below it
    everything but what it had [removed]. *)
Definition remove_part (removed : path → bool) (p : path) (d : disk) : disk :=
  {| files := filter (λ kv, ¬ (below p kv.1 ∧ removed kv.1 = true)) (files d);
     dirs := {[p]} ∪ filter (λ q, ¬ (below p q ∧ removed q = true)) (dirs d) |}.

(** [os.walk(top)]: every directory holding files below [top], with the
    names of its files (directories without files yield no work for the
    callers and are left out; the order is that of the map). *)
Definition os_walk (d : disk) (top : path) : list (path * list string) :=
  let found := filter (below top) (file_paths d) in
  map (λ root, (root, map name (filter (λ p, parent p = root) found)))
      (remove_dups (map parent found)).

(** [top.rglob("*")]: everything below [top]. *)
Definition rglob (d : disk) (top : path) : list path :=
  filter (below top) (all_paths d).

(** [p.iterdir()]: the immediate children of [p]. *)
Definition iterdir (d : disk) (p : path) : list path :=
  remove_dups (map (take (S (length p))) (filter (below p) (all_paths d))).

(** ** The operating system *)

Inductive copy_outcome : Type :=
| Copy_ok                               (* the bytes of the source arrive *)
| Copy_corrupt (written : content)      (* returns, other bytes arrive *)
| Copy_raises (residue : option content).  (* raises, maybe after writing *)

Record env : Type := {
  mkdir_fails : path -> bool;
  copy2_outcome : path -> path -> copy_outcome;
  open_fails : path -> bool;
  scan_fails : path -> bool;
  rmtree_fails : path -> bool;
  rmtree_removed : path -> path -> bool;  (* by [rmtree(p)], before it failed *)
  stat_fails : path -> bool;
  st_mtime : path -> Z;
  sha256 : content -> string;
  json_dump : path -> Py.dict bool -> content  (* the text of the report *)
}.

(** ** State of a run *)

Record report : Type := {
  backup_location : path;
  results : Py.dict bool
}.

Record state : Type := {
  fs : disk;                   (* the tree the method writes *)
  log : list log_record;       (* [self.logger], oldest first *)
  success : bool;              (* the local [success] of [backup_browser] *)
  saved_report : option report (* what [json.dump] was given *)
}.

Definition initial (d : disk) : state :=
  {| fs := d; log := []; success := false; saved_report := None |}.

Definition with_fs (f : disk -> disk) (s : state) : state :=
  {| fs := f (fs s); log := log s; success := success s; saved_report := saved_report s |}.

Definition logger (l : level) (m : message) : M state unit :=
  modify (λ s, {| fs := fs s; log := log s ++ [(l, m)]; success := success s;
                  saved_report := saved_report s |}).

Definition set_success (b : bool) : M state unit :=
  modify (λ s, {| fs := fs s; log := log s; success := b; saved_report := saved_report s |}).

Definition lift {S A} (r : result A) : M S A := λ s, (r, s).

(** [p.mkdir(parents=True, exist_ok=True)]: it raises when [p] or one of
    its ancestors is a regular file. *)
Definition mkdir (e : env) (p : path) : M state unit :=
  let* d := gets fs in
  if mkdir_fails e p || file_above d p then raise (OSError p)
  else modify (with_fs (make_dir p)).

(** Where [shutil.copy2(src_file, dst_file)] writes: into [dst_file] when
    that is a directory, under the base name of the source. *)
Definition copy2_target (d : disk) (src_file dst_file : path) : path :=
  if is_dir d dst_file then dst_file ++ [name src_file] else dst_file.

(** [shutil.copy2(src_file, dst_file)], reading from the disk [src]. *)
Definition copy2 (e : env) (src : disk) (src_file dst_file : path) : M state unit :=
  match files src !! src_file with
  | None => raise (OSError src_file)
  | Some c =>
      let* d := gets fs in
      let dst := copy2_target d src_file dst_file in
      if negb (can_create d dst) then raise (OSError dst)
      else
        match copy2_outcome e src_file dst_file with
        | Copy_ok => modify (with_fs (write_file dst c))
        | Copy_corrupt c' => modify (with_fs (write_file dst c'))
        | Copy_raises None => raise (OSError dst)
        | Copy_raises (Some c') =>
            do modify (with_fs (write_file dst c')) then raise (OSError dst)
        end
  end.

(** [open(p, "rb").read()]. *)
Definition read_file (e : env) (d : disk) (p : path) : result content :=
  if open_fails e p then Raise (OSError p)
  else match files d !! p with
       | Some c => Ok c
       | None => Raise (OSError p)
       end.

(** ** FileSelector ([_get_browser_data_patterns], [_should_backup_file]) *)

Definition _get_browser_data_patterns : Py.dict (Py.dict (list string)) :=
  [ ("chrome_based",
      [ ("bookmarks", ["Bookmarks"; "Bookmarks.bak"]);
        ("history", ["History"; "Visited Links"]);
        ("passwords", ["Login Data"; "Login Data-journal"]);
        ("extensions", ["Extensions/*"]);
        ("cookies", ["Cookies"; "Cookies-journal"]);
        ("preferences", ["Preferences"; "Secure Preferences"]) ]);
    ("firefox",
      [ ("bookmarks", ["places.sqlite"; "bookmarkbackups/*"]);
        ("history", ["places.sqlite"; "places.sqlite-wal"]);
        ("passwords", ["logins.json"; "key4.db"]);
        ("extensions", ["extensions/*"; "extensions.json"]);
        ("cookies", ["cookies.sqlite"]);
        ("preferences", ["prefs.js"; "user.js"]) ]);
    ("opera",
      [ ("bookmarks", ["Bookmarks"; "Bookmarks.bak"]);
        ("history", ["History"; "Visited Links"]);
        ("passwords", ["Login Data"; "Login Data-journal"]);
        ("extensions", ["Extensions/*"]);
        ("cookies", ["Cookies"; "Cookies-journal"]);
        ("preferences", ["Preferences"]) ]);
    ("operagx",
      [ ("bookmarks", ["Bookmarks"; "Bookmarks.bak"]);
        ("history", ["History"; "Visited Links"]);
        ("passwords", ["Login Data"; "Login Data-journal"]);
        ("extensions", ["Extensions/*"]);
        ("cookies", ["Cookies"; "Cookies-journal"]);
        ("preferences", ["Preferences"; "GX Settings"]) ]) ].

Definition browser_family (browser_type : string) : string :=
  if Py.str_in "firefox" (Py.lower browser_type) then "firefox"
  else if Py.str_in "opera" (Py.lower browser_type) then "opera"
  else "chrome_based".

(** [patterns[browser_family][data_type]]. *)
Definition patterns_for (browser_family data_type : string) : result (list string) :=
  match Py.get _get_browser_data_patterns browser_family with
  | None => Raise (KeyError browser_family)
  | Some by_type =>
      match Py.get by_type data_type with
      | None => Raise (KeyError data_type)
      | Some ps => Ok ps
      end
  end.

Definition pattern_hits (file_name pattern : string) : bool :=
  if Py.endswith pattern "/*" then Py.str_in (Py.drop_last 2 pattern) file_name
  else Py.str_in pattern file_name.

(** The loop over [backup_options.items()]. *)
Fixpoint scan_options (browser_family file_name : string)
    (options : list (string * bool)) : result bool :=
  match options with
  | [] => Ok false
  | (data_type, enabled) :: rest =>
      if negb enabled then scan_options browser_family file_name rest
      else match patterns_for browser_family data_type with
           | Raise e => Raise e
           | Ok patterns_for_type =>
               if existsb (pattern_hits file_name) patterns_for_type then Ok true
               else scan_options browser_family file_name rest
           end
  end.

Definition _should_backup_file (cfg : config) (file_name browser_type : string)
    : result bool :=
  if negb (Py.any (Py.values (backup_options cfg))) then Ok true
  else scan_options (browser_family browser_type) file_name (backup_options cfg).

(** ** PathCatalog ([_validate_paths]) *)

(** [any(excluded in s for excluded in self.config["excluded_files"])]. *)
Definition has_excluded (cfg : config) (s : string) : bool :=
  existsb (λ excluded, Py.str_in excluded s) (excluded_files cfg).

Definition _validate_paths (cfg : config) (src : disk)
    (paths : Py.dict (list path)) : Py.dict (list path) :=
  fold_left
    (λ validated_paths kv,
       if negb (Py.get_default (browsers cfg) kv.1 true) then validated_paths
       else Py.set validated_paths kv.1
              (List.filter
                 (λ p, exists_ src p && negb (has_excluded cfg (path_str p))) kv.2))
    paths [].

(** ** CopyEngine ([verify_copy], [backup_browser]) *)

Definition verify_copy (e : env) (cfg : config) (src : disk)
    (source destination : path) : M state bool :=
  if negb (verify_copies cfg) then ret true
  else
    try_except
      (let* sf := lift (read_file e src source) in
       let* written := gets fs in
       let* df := lift (read_file e written destination) in
       ret (String.eqb (sha256 e sf) (sha256 e df)))
      (λ ex, do logger ERROR (Verification_failed ex) then ret false).

(** The body of [for file in files], after the two filters. *)
Definition backup_file (e : env) (cfg : config) (src : disk)
    (root dest_dir : path) (file : string) : M state unit :=
  let src_file := root ++ [file] in
  let dst_file := dest_dir ++ [file] in
  try_except
    (do mkdir e dest_dir then
     do copy2 e src src_file dst_file then
     let* verified := verify_copy e cfg src src_file dst_file in
     if verified then set_success true else ret tt)
    (λ ex, logger ERROR (Error_copying file ex)).

(** The body of [for file in files]. *)
Definition consider_file (e : env) (cfg : config) (src : disk) (browser_name : string)
    (root rel_path dest_dir : path) (file : string) : M state unit :=
  if has_excluded cfg file then ret tt
  else
    let* wanted :=
      lift (_should_backup_file cfg (path_str (rel_path ++ [file])) browser_name) in
    if negb wanted then ret tt
    else backup_file e cfg src root dest_dir file.

(** The body of [for root, _, files in os.walk(source_path)]. *)
Definition backup_dir (e : env) (cfg : config) (src : disk) (browser_name : string)
    (source dest : path) (entry : path * list string) : M state unit :=
  let rel_path := relative_to entry.1 source in
  let dest_dir := dest ++ rel_path in
  for_each entry.2 (consider_file e cfg src browser_name entry.1 rel_path dest_dir).

(** [total_files]: the count for the progress bar, on bare file names. *)
Fixpoint count_files (cfg : config) (browser_name : string) (names : list string)
    : result nat :=
  match names with
  | [] => Ok 0%nat
  | f :: rest =>
      match _should_backup_file cfg f browser_name with
      | Raise ex => Raise ex
      | Ok wanted =>
          match count_files cfg browser_name rest with
          | Raise ex => Raise ex
          | Ok n => Ok (if wanted then S n else n)
          end
      end
  end.

(** The body of [for source_path in source_paths]. *)
Definition backup_source (e : env) (cfg : config) (src : disk)
    (backup_root : path) (browser_name : string) (source : path) : M state unit :=
  if negb (exists_ src source) then ret tt
  else
    let dest := backup_root ++ [browser_name; name source] in
    do mkdir e dest then
    let* total_files := lift (count_files cfg browser_name (concat (os_walk src source).*2)) in
    for_each (os_walk src source) (backup_dir e cfg src browser_name source dest).

Definition backup_browser (e : env) (cfg : config) (src : disk) (backup_root : path)
    (browser_name : string) (source_paths : list path) : M state bool :=
  do set_success false then
  do try_except
       (for_each source_paths (backup_source e cfg src backup_root browser_name))
       (λ ex, logger ERROR (Error_backing_up browser_name ex)) then
  gets success.

(** ** RetentionSweeper ([cleanup_old_backups]) *)

Definition stat_mtime (e : env) (p : path) : result Z :=
  if stat_fails e p then Raise (OSError p) else Ok (st_mtime e p).

(** [shutil.rmtree(p)]; a failing call has removed a part of the tree
    below [p] by the time it raises. *)
Definition rmtree (e : env) (p : path) : M state unit :=
  let* d := gets fs in
  if negb (is_dir d p) then raise (OSError p)
  else if rmtree_fails e p then
    do modify (with_fs (remove_part (rmtree_removed e p) p)) then raise (OSError p)
  else modify (with_fs (remove_tree p)).

(** The body of [for backup_dir in backup_root.iterdir()]. *)
Definition sweep_one (e : env) (retention_seconds current_time : Z)
    (backup_dir : path) : M state unit :=
  let* d := gets fs in
  if is_dir d backup_dir then
    let* dir_time := lift (stat_mtime e backup_dir) in
    if current_time - dir_time >? retention_seconds then
      do rmtree e backup_dir then
      logger INFO (Removed_old_backup backup_dir)
    else ret tt
  else ret tt.

Definition cleanup_old_backups (e : env) (cfg : config) (backups : path)
    (current_time : Z) : M state unit :=
  try_except
    (let retention_seconds := retention_days cfg * 24 * 60 * 60 in
     let* d := gets fs in
     if negb (exists_ d backups) then ret tt
     else for_each (iterdir d backups) (sweep_one e retention_seconds current_time))
    (λ ex, logger ERROR (Error_cleaning_up ex)).

(** ** TaskScheduler ([run], [_save_backup_report]) *)

Definition _save_backup_report (e : env) (backup_root : path)
    (results : Py.dict bool) : M state unit :=
  let report_file := backup_root ++ ["backup_report.json"] in
  let* d := gets fs in
  if open_fails e report_file || negb (can_create d report_file)
  then raise (OSError report_file)
  else modify (λ s, {| fs := write_file report_file (json_dump e backup_root results) (fs s);
                       log := log s; success := success s;
                       saved_report := Some {| backup_location := backup_root;
                                               results := results |} |}).

(** Run a computation and keep its outcome, as a future does. *)
Definition future {S A} (c : M S A) : M S (result A) :=
  λ s, (Ok (c s).1, (c s).2).

(** [{executor.submit(task, browser, paths): browser for ...}]: the workers
    write disjoint subtrees, so they are run one after the other here. *)
Fixpoint submit_all (task : string -> list path -> M state bool)
    (browser_paths : list (string * list path))
    : M state (list (result bool * string)) :=
  match browser_paths with
  | [] => ret []
  | (browser, paths) :: rest =>
      let* f := future (task browser paths) in
      let* futures := submit_all task rest in
      ret ((f, browser) :: futures)
  end.

(** [for future in futures: ... results[browser] = ...]; [on_error] is
    the message of the [except] branch. *)
Fixpoint collect (on_error : string -> exn -> message)
    (futures : list (result bool * string)) (results : Py.dict bool)
    : M state (Py.dict bool) :=
  match futures with
  | [] => ret results
  | (Ok r, browser) :: rest => collect on_error rest (Py.set results browser r)
  | (Raise ex, browser) :: rest =>
      do logger ERROR (on_error browser ex) then
      collect on_error rest (Py.set results browser false)
  end.

(** [run], for any worker function; [None] is the bare [return]. *)
Definition run_with (task : string -> list path -> M state bool)
    (e : env) (cfg : config) (src : disk) (backups backup_root : path)
    (current_time : Z) (paths : Py.dict (list path)) : M state (option bool) :=
  do logger INFO Starting_backup then
  try_except
    (let browser_paths := _validate_paths cfg src paths in
     match browser_paths with
     | [] => do logger WARNING No_profiles_found then ret None
     | _ =>
         do (if max_workers cfg <=? 0 then raise ValueError else ret tt) then
         let* futures := submit_all task browser_paths in
         let* results := collect Error_backing_up futures [] in
         do cleanup_old_backups e cfg backups current_time then
         do _save_backup_report e backup_root results then
         ret (Some true)
     end)
    (λ ex, do logger ERROR (Backup_process_failed ex) then ret (Some false)).

Definition run (e : env) (cfg : config) (src : disk) (backups backup_root : path)
    (current_time : Z) (paths : Py.dict (list path)) : M state (option bool) :=
  run_with (backup_browser e cfg src backup_root)
    e cfg src backups backup_root current_time paths.

(** ** RestoreEngine ([BrowserRestore.restore_browser]) *)

(** The body of [for src_file in source_path.rglob("*")]. *)
Definition restore_entry (e : env) (backup : disk) (source_path dest_path src_file : path)
    : M state unit :=
  if scan_fails e src_file then raise (OSError src_file)
  else if is_file backup src_file then
    let rel_path := relative_to src_file source_path in
    let dst_file := dest_path ++ rel_path in
    try_except
      (do mkdir e (parent dst_file) then copy2 e backup src_file dst_file)
      (λ ex, logger ERROR (Error_restoring src_file ex))
  else ret tt.

(** [total_files]: the first pass over [rglob], for the progress bar. *)
Fixpoint count_entries (e : env) (backup : disk) (entries : list path) : result nat :=
  match entries with
  | [] => Ok 0%nat
  | p :: rest =>
      if scan_fails e p then Raise (OSError p)
      else match count_entries e backup rest with
           | Raise ex => Raise ex
           | Ok n => Ok (if is_file backup p then S n else n)
           end
  end.

Definition restore_browser (e : env) (backup : disk) (browser_name : string)
    (source_path dest_path : path) : M state bool :=
  try_except
    (if negb (exists_ backup source_path) then
       do logger ERROR (Source_path_missing source_path) then ret false
     else
       let* total_files := lift (count_entries e backup (rglob backup source_path)) in
       do for_each (rglob backup source_path)
            (restore_entry e backup source_path dest_path) then
       ret true)
    (λ ex, do logger ERROR (Failed_to_restore browser_name ex) then ret false).

(** ** BrowserRestore ([select_browsers], [get_browser_paths], [run]) *)

(** [select_browsers] with the answer "A": every directory of the backup. *)
Definition select_browsers (backup : disk) (source_backup : path) : Py.dict path :=
  Py.of_items
    (map (λ d, (name d, d))
       (List.filter
          (λ d, is_dir backup d
                && negb (existsb (String.eqb (name d)) [".git"; "__pycache__"]))
          (iterdir backup source_backup))).

(** [get_browser_paths]: the entries of the platform table that exist. *)
Definition get_browser_paths (live : disk) (table : Py.dict path) : Py.dict path :=
  Py.of_items (List.filter (λ kv, exists_ live kv.2) table).

(** The loop that fills [futures] in [run]. *)
Fixpoint submit_restores (e : env) (backup : disk) (browser_paths : Py.dict path)
    (browsers_to_restore : list (string * path))
    : M state (list (result bool * string)) :=
  match browsers_to_restore with
  | [] => ret []
  | (browser, source) :: rest =>
      match Py.get browser_paths browser with
      | None => submit_restores e backup browser_paths rest
      | Some dest =>
          let* f := future (restore_browser e backup browser source dest) in
          let* futures := submit_restores e backup browser_paths rest in
          ret ((f, browser) :: futures)
      end
  end.

(** [BrowserRestore.run], once a backup and the browsers are selected. *)
Definition restore_run (e : env) (backup : disk) (browsers_to_restore : Py.dict path)
    (table : Py.dict path) : M state bool :=
  do logger INFO Starting_restore then
  match browsers_to_restore with
  | [] => ret false
  | _ =>
      let* live := gets fs in
      let browser_paths := get_browser_paths live table in
      try_except
        (let* futures := submit_restores e backup browser_paths browsers_to_restore in
         let* results := collect Error_restoring_browser futures [] in
         ret (Py.all (Py.values results)))
        (λ ex, do logger ERROR (Restore_process_failed ex) then ret false)
  end.

(** ** The host *)

(** What the platform tables read: [platform.system()],
    [os.getenv("LOCALAPPDATA", "")], [os.getenv("APPDATA", "")] and
    [Path.home()]. *)
Record host : Type := {
  system : string;
  LOCALAPPDATA : path;
  APPDATA : path;
  home : path
}.

(** [check_platform_compatibility], of both modules. *)
Definition check_platform_compatibility (tqdm_importable : bool) (system : string)
    : bool * list string :=
  let after_import :=
    if tqdm_importable then (true, [])
    else (false, ["Dependency 'tqdm' is missing"]) in
  if negb (existsb (String.eqb system) ["Windows"; "Linux"; "Darwin"])
  then (false, after_import.2 ++ ["Platform not supported"])
  else after_import.

(** ** BrowserBackup: the platform tables, the menu and the backup directory *)

Module BrowserBackup.

(** [{k: [str(p) for p in v if p.exists()] for k, v in paths.items()}]. *)
Definition existing (src : disk) (paths : Py.dict (list path)) : Py.dict (list path) :=
  Py.of_items (map (λ kv, (kv.1, List.filter (exists_ src) kv.2)) paths).

Definition _get_windows_paths (h : host) (src : disk) : Py.dict (list path) :=
  let app_data := LOCALAPPDATA h in
  let roaming := APPDATA h in
  let paths :=
    [ ("chrome", [app_data ++ ["Google"; "Chrome"; "User Data"]]);
      ("firefox", [roaming ++ ["Mozilla"; "Firefox"; "Profiles"]]);
      ("edge", [app_data ++ ["Microsoft"; "Edge"; "User Data"]]);
      ("brave", [app_data ++ ["BraveSoftware"; "Brave-Browser"; "User Data"]]);
      ("opera", [roaming ++ ["Opera Software"; "Opera Stable"]]);
      ("operagx", [roaming ++ ["Opera Software"; "Opera GX Stable"]]);
      ("vivaldi", [app_data ++ ["Vivaldi"; "User Data"]]) ] in
  existing src paths.

Definition _get_linux_paths (h : host) (src : disk) : Py.dict (list path) :=
  let home := home h in
  let paths :=
    [ ("chrome", [home ++ [".config"; "google-chrome"];
                  home ++ [".config"; "chromium"]]);
      ("firefox", [home ++ [".mozilla"; "firefox"]]);
      ("brave", [home ++ [".config"; "BraveSoftware"; "Brave-Browser"]]);
      ("opera", [home ++ [".config"; "opera"]]);
      ("operagx", [home ++ [".config"; "opera-gx"]]);
      ("vivaldi", [home ++ [".config"; "vivaldi"]]) ] in
  existing src paths.

Definition _get_macos_paths (h : host) (src : disk) : Py.dict (list path) :=
  let home := home h in
  let paths :=
    [ ("chrome", [home ++ ["Library"; "Application Support"; "Google"; "Chrome"]]);
      ("firefox", [home ++ ["Library"; "Application Support"; "Firefox"; "Profiles"]]);
      ("edge", [home ++ ["Library"; "Application Support"; "Microsoft Edge"]]);
      ("brave", [home ++ ["Library"; "Application Support"; "BraveSoftware";
                          "Brave-Browser"]]);
      ("opera", [home ++ ["Library"; "Application Support"; "com.operasoftware.Opera"]]);
      ("operagx", [home ++ ["Library"; "Application Support";
                            "com.operasoftware.OperaGX"]]);
      ("vivaldi", [home ++ ["Library"; "Application Support"; "Vivaldi"]]) ] in
  existing src paths.

(** The [paths] of [get_browser_paths], before they are validated. *)
Definition platform_paths (h : host) (src : disk) : Py.dict (list path) :=
  if String.eqb (system h) "Windows" then _get_windows_paths h src
  else if String.eqb (system h) "Linux" then _get_linux_paths h src
  else if String.eqb (system h) "Darwin" then _get_macos_paths h src
  else [].

Definition get_browser_paths (h : host) (cfg : config) (src : disk)
    : Py.dict (list path) :=
  _validate_paths cfg src (platform_paths h src).

(** [for option in self.config["backup_options"]:
       self.config["backup_options"][option] = value(option)]. *)
Definition set_each (value : string → bool) (options : Py.dict bool) : Py.dict bool :=
  fold_left (λ d option, Py.set d option (value option)) (Py.keys options) options.

(** [select_backup_options]; [choice] is the stripped answer to the first
    question, [answer option] what is typed at "Backup <option>? (y/n): ". *)
Definition select_backup_options (choice : string) (answer : string → string)
    (cfg : config) : config :=
  let options :=
    if String.eqb choice "1" then set_each (λ _, true) (backup_options cfg)
    else if String.eqb choice "2" then
      set_each (λ option, Py.startswith (Py.lower (answer option)) "y")
        (backup_options cfg)
    else set_each (λ _, true) (backup_options cfg) in
  {| max_workers := max_workers cfg; verify_copies := verify_copies cfg;
     retention_days := retention_days cfg; excluded_files := excluded_files cfg;
     browsers := browsers cfg; backup_options := options |}.

(** [_create_backup_dir]; [timestamp] is
    [datetime.now().strftime("%Y%m%d_%H%M%S")]. *)
Definition _create_backup_dir (e : env) (backups : path) (timestamp : string)
    : M state path :=
  let backup_dir := backups ++ [timestamp] in
  do mkdir e backup_dir then ret backup_dir.

(** What [main] prints after [backup.run()]. *)
Inductive printed : Type :=
| Backup_completed_successfully (backup_root : path)
| Backup_completed_with_errors.

(** [main], from [backup.select_backup_options()] on: [cfg] is the
    configuration that the constructor loaded, [backup_root] the directory
    it made. *)
Definition main (e : env) (cfg : config) (src : disk) (backups backup_root : path)
    (current_time : Z) (paths : Py.dict (list path))
    (choice : string) (answer : string → string) : M state printed :=
  let cfg := select_backup_options choice answer cfg in
  let* r := run e cfg src backups backup_root current_time paths in
  match r with
  | Some true => ret (Backup_completed_successfully backup_root)
  | _ => ret Backup_completed_with_errors
  end.

End BrowserBackup.

(** ** BrowserRestore: the menus and the platform table *)

(** What is typed at "Enter numbers (comma-separated) or 'A' for all": "A"
    in either case, numbers that [int] accepts, or something else. *)
Inductive browser_answer : Type :=
| All_browsers
| Numbers (selections : list Z)
| Invalid_input.

(** What [select_backup] comes to: [Still_asking] when the answers typed so
    far hold no valid number. *)
Inductive selection : Type :=
| No_backups
| Selected (backup : path)
| Still_asking.

Module BrowserRestore.

(** [sorted(..., key=..., reverse=True)] on the entries paired with their
    keys: descending, entries with equal keys in their original order. *)
Fixpoint insert_desc (x : Z * path) (l : list (Z * path))
    : list (Z * path) :=
  match l with
  | [] => [x]
  | y :: l' => if y.1 <=? x.1 then x :: l else y :: insert_desc x l'
  end.

Definition sorted_desc (l : list (Z * path)) : list (Z * path) :=
  foldr insert_desc [] l.

(** The keys [x.stat().st_mtime], computed before the sort; a failing
    [stat] raises. *)
Fixpoint keyed (e : env) (ds : list path) : result (list (Z * path)) :=
  match ds with
  | [] => Ok []
  | d :: rest =>
      match stat_mtime e d with
      | Raise ex => Raise ex
      | Ok t =>
          match keyed e rest with
          | Raise ex => Raise ex
          | Ok l => Ok ((t, d) :: l)
          end
      end
  end.

Definition list_available_backups (e : env) (backup : disk) (backups : path)
    : result (list path) :=
  if negb (exists_ backup backups) then Ok []
  else match keyed e (List.filter (is_dir backup) (iterdir backup backups)) with
       | Raise ex => Raise ex
       | Ok l => Ok (map snd (sorted_desc l))
       end.

(** The [while True] loop of [select_backup]: an answer is the integer
    that [int(input(...).strip())] returns, or [None] when it raises
    [ValueError]. *)
Fixpoint ask (backups : list path) (answers : list (option Z)) : selection :=
  match answers with
  | [] => Still_asking
  | Some choice :: rest =>
      if (1 <=? choice) && (choice <=? Z.of_nat (length backups))
      then Selected (nth (Z.to_nat (choice - 1)) backups [])
      else ask backups rest
  | None :: rest => ask backups rest
  end.

Definition select_backup (e : env) (backup : disk) (backups : path)
    (answers : list (option Z)) : result selection :=
  match list_available_backups e backup backups with
  | Raise ex => Raise ex
  | Ok [] => Ok No_backups
  | Ok found =>
      (* the listing prints [backup.stat().st_mtime] of every entry *)
      match keyed e found with
      | Raise ex => Raise ex
      | Ok _ => Ok (ask found answers)
      end
  end.

Definition available_browsers (backup : disk) (source_backup : path) : list path :=
  List.filter
    (λ d, is_dir backup d
          && negb (existsb (String.eqb (name d)) [".git"; "__pycache__"]))
    (iterdir backup source_backup).

Definition select_browsers (answer : browser_answer) (backup : disk)
    (source_backup : path) : Py.dict path :=
  let available_browsers := available_browsers backup source_backup in
  match answer with
  | All_browsers => Py.of_items (map (λ b, (name b, b)) available_browsers)
  | Numbers selections =>
      Py.of_items
        (map (λ i, let b := nth (Z.to_nat (i - 1)) available_browsers [] in (name b, b))
           (List.filter
              (λ i, (1 <=? i) && (i <=? Z.of_nat (length available_browsers)))
              selections))
  | Invalid_input => Py.of_items (map (λ b, (name b, b)) available_browsers)
  end.

(** The [paths] of [get_browser_paths]: a table for Windows only. *)
Definition table (h : host) : Py.dict path :=
  if String.eqb (system h) "Windows" then
    let app_data := LOCALAPPDATA h in
    let roaming := APPDATA h in
    [ ("chrome", app_data ++ ["Google"; "Chrome"; "User Data"]);
      ("firefox", roaming ++ ["Mozilla"; "Firefox"; "Profiles"]);
      ("edge", app_data ++ ["Microsoft"; "Edge"; "User Data"]);
      ("brave", app_data ++ ["BraveSoftware"; "Brave-Browser"; "User Data"]);
      ("opera", roaming ++ ["Opera Software"; "Opera Stable"]);
      ("operagx", roaming ++ ["Opera Software"; "Opera GX Stable"]);
      ("vivaldi", app_data ++ ["Vivaldi"; "User Data"]) ]
  else [].

(** [run]; [None] while [select_backup] is still asking. *)
Definition run (e : env) (backup : disk) (backups : path) (h : host)
    (answers : list (option Z)) (answer : browser_answer) : M state (option bool) :=
  do logger INFO Starting_restore then
  let* chosen := lift (select_backup e backup backups answers) in
  match chosen with
  | Still_asking => ret None
  | No_backups => ret (Some false)
  | Selected source_backup =>
      let browsers_to_restore := select_browsers answer backup source_backup in
      match browsers_to_restore with
      | [] => ret (Some false)
      | _ =>
          let* live := gets fs in
          let browser_paths := get_browser_paths live (table h) in
          try_except
            (let* futures :=
               submit_restores e backup browser_paths browsers_to_restore in
             let* results := collect Error_restoring_browser futures [] in
             ret (Some (Py.all (Py.values results))))
            (λ ex, do logger ERROR (Restore_process_failed ex) then ret (Some false))
      end
  end.

End BrowserRestore.

(** ** Vocabulary of the statements *)

(** [load_config]: the loaded file has the top-level field [k]. *)
Definition supplied (f : config_file) (k : string) : Prop :=
  match f with
  | Parsed (JObj members) => k ∈ Py.keys members
  | _ => False
  end.

(** [_should_backup_file]: every enabled option names a category of the
    pattern table, so that [patterns[browser_family][data_type]] is there. *)
Definition known_category (data_type : string) : bool :=
  forallb (λ family, bool_decide (is_Some (Py.get family.2 data_type)))
    _get_browser_data_patterns.

Definition known_options (cfg : config) : bool :=
  forallb (λ kv, negb kv.2 || known_category kv.1) (backup_options cfg).

Definition log_add (r : log_record) (s : state) : state :=
  {| fs := fs s; log := log s ++ [r]; success := success s; saved_report := saved_report s |}.

(** The state after [success = False]. *)
Definition reset (s : state) : state :=
  {| fs := fs s; log := log s; success := false; saved_report := saved_report s |}.

(** What [copy2] leaves at the destination when it returns. *)
Definition arrives (e : env) (src : disk) (src_file dst_file : path) : option content :=
  match files src !! src_file with
  | None => None
  | Some c =>
      match copy2_outcome e src_file dst_file with
      | Copy_ok => Some c
      | Copy_corrupt c' => Some c'
      | Copy_raises _ => None
      end
  end.

(** The answer of [verify_copy] once [arrived] is at the destination. *)
Definition verifies (e : env) (cfg : config) (src : disk) (src_file dst_file : path)
    (arrived : content) : bool :=
  negb (verify_copies cfg)
  || (negb (open_fails e src_file) && negb (open_fails e dst_file)
      && match files src !! src_file with
         | Some c => String.eqb (sha256 e c) (sha256 e arrived)
         | None => false
         end).

(** [mkdir] and [copy2] return for this file. *)
Definition copy_returns (e : env) (src : disk) (root dest_dir : path) (file : string) : bool :=
  negb (mkdir_fails e dest_dir)
  && match arrives e src (root ++ [file]) (dest_dir ++ [file]) with
     | Some _ => true
     | None => false
     end.

(** The file was copied successfully: the directory was made, [copy2]
    returned and [verify_copy] answered [True]. *)
Definition copied_ok (e : env) (cfg : config) (src : disk) (root dest_dir : path)
    (file : string) : bool :=
  negb (mkdir_fails e dest_dir)
  && match arrives e src (root ++ [file]) (dest_dir ++ [file]) with
     | Some arrived => verifies e cfg src (root ++ [file]) (dest_dir ++ [file]) arrived
     | None => false
     end.

(** No call made for this file raises (the bytes may still be wrong). *)
Definition nothing_raises (e : env) (src : disk) (root dest_dir : path) (file : string) : Prop :=
  copy_returns e src root dest_dir file = true
  ∧ open_fails e (root ++ [file]) = false
  ∧ open_fails e (dest_dir ++ [file]) = false.

(** The file passes both filters of the inner loop. *)
Definition wanted (cfg : config) (browser_name : string) (rel_path : path)
    (file : string) : bool :=
  negb (has_excluded cfg file)
  && match _should_backup_file cfg (path_str (rel_path ++ [file])) browser_name with
     | Ok true => true
     | _ => false
     end.

(** [dest] of [backup_browser] for one source path. *)
Definition dest_of (backup_root : path) (browser_name : string) (source : path) : path :=
  backup_root ++ [browser_name; name source].

(** The copy jobs of a task: the files of the walks that pass both
    filters, each with the directory it is copied into. *)
Definition job (cfg : config) (src : disk) (backup_root : path) (browser_name : string)
    (source_paths : list path) (root d : path) (file : string) : Prop :=
  ∃ source files,
    In source source_paths ∧ exists_ src source = true
    ∧ In (root, files) (os_walk src source) ∧ In file files
    ∧ wanted cfg browser_name (relative_to root source) file = true
    ∧ d = dest_of backup_root browser_name source ++ relative_to root source.

(** The copy of [file] was attempted: if [mkdir] and [copy2] returned the
    destination exists, otherwise the failure is in the log; and a
    successful copy has set the flag. *)
Definition attempted (e : env) (cfg : config) (src : disk) (root d : path)
    (file : string) (s : state) : Prop :=
  (if copy_returns e src root d file
   then is_Some (files (fs s) !! (d ++ [file]))
   else ∃ ex, In (ERROR, Error_copying file ex) (log s))
  ∧ (copied_ok e cfg src root d file = true → success s = true).

(** Nothing is taken away between [s] and [s']. *)
Record grows (s s' : state) : Prop := {
  grows_files : ∀ p, is_Some (files (fs s) !! p) → is_Some (files (fs s') !! p);
  grows_dirs : ∀ q, q ∈ dirs (fs s) → q ∈ dirs (fs s');
  grows_log : ∀ r, In r (log s) → In r (log s');
  grows_success : success s = true → success s' = true;
  grows_report : saved_report s' = saved_report s
}.

(** [s'] comes from [s] by copy attempts on the jobs [J] only; a copy
    lands at its destination or, when that is a directory, in it. *)
Record copies_of (e : env) (cfg : config) (src : disk)
    (J : path → path → string → Prop) (s s' : state) : Prop := {
  copies_grow : grows s s';
  copies_success :
    success s' = true →
    success s = true ∨ ∃ root d f, J root d f ∧ copied_ok e cfg src root d f = true;
  copies_written :
    ∀ p, files (fs s') !! p ≠ files (fs s) !! p →
      ∃ root d f, J root d f ∧ (p = d ++ [f] ∨ p = (d ++ [f]) ++ [f])
}.

(** The files of the tree below [source], and those that pass both filters. *)
Definition tree (src : disk) (source : path) : list path :=
  filter (below source) (file_paths src).

Definition passes (cfg : config) (browser_name : string) (source p : path) : Prop :=
  wanted cfg browser_name (relative_to (parent p) source) (name p) = true.

#[global] Instance passes_dec cfg browser_name source p :
  Decision (passes cfg browser_name source p).
Proof. unfold passes. apply _. Defined.

(** Where the copy of the source file [p] goes. *)
Definition copy_of (backup_root : path) (browser_name : string) (source p : path) : path :=
  dest_of backup_root browser_name source ++ relative_to p source.

(** What a future contributes to [results]. *)
Definition recorded (f : result bool) : bool :=
  match f with Ok r => r | Raise _ => false end.

Definition entry_of (f : result bool * string) : string * bool := (f.2, recorded f.1).

(** Each future holds what its own task did, in the order of submission. *)
Definition dispatched (task : string → list path → M state bool)
    (f : result bool * string) (t : string * list path) : Prop :=
  f.2 = t.1 ∧ ∃ s : state, f.1 = (task t.1 t.2 s).1.

(** The tree at [q] is the same on both disks: the same files with the
    same bytes, the same directories. *)
Definition same_below (q : path) (d d' : disk) : Prop :=
  ∀ p, q `prefix_of` p → files d' !! p = files d !! p ∧ (p ∈ dirs d' ↔ p ∈ dirs d).

(** The entries of the backup root that a sweep leaves alone are as they
    were. *)
Definition untouched (n : nat) (skip : list path) (s s' : state) : Prop :=
  ∀ q, length q = n → q ∉ skip → same_below q (fs s) (fs s').

(** [_validate_paths]: the browser is not switched off in the
    configuration (a browser that [config["browsers"]] lacks is on). *)
Definition enabled (cfg : config) (browser : string) : bool :=
  Py.get_default (browsers cfg) browser true.

(** [_validate_paths]: the path exists and holds no excluded substring. *)
Definition kept (cfg : config) (src : disk) (p : path) : bool :=
  exists_ src p && negb (has_excluded cfg (path_str p)).

(** [_should_backup_file]: the option is enabled and one of its patterns
    is found in the file name. *)
Definition selects (family file_name : string) (option : string * bool) : bool :=
  option.2 && match patterns_for family option.1 with
              | Ok patterns_for_type => existsb (pattern_hits file_name) patterns_for_type
              | Raise _ => false
              end.

(** Every file of [s'] is a file of [s], or the copy of the source file
    of one of the jobs [J], byte for byte. *)
Definition copied_from (src : disk) (J : path → path → string → Prop)
    (s s' : state) : Prop :=
  ∀ q c, files (fs s') !! q = Some c →
    files (fs s) !! q = Some c
    ∨ ∃ root d f, J root d f ∧ (q = d ++ [f] ∨ q = (d ++ [f]) ++ [f])
                  ∧ files src !! (root ++ [f]) = Some c.

(** [backup_report.json] of a run. *)
Definition report_file (backup_root : path) : path := backup_root ++ ["backup_report.json"].

(** The state after [_save_backup_report] has written [r] as [text]. *)
Definition with_report (text : content) (r : report) (s : state) : state :=
  {| fs := write_file (report_file (backup_location r)) text (fs s);
     log := log s; success := success s; saved_report := Some r |}.

(** The disk on which [run] writes its report: the tasks are done and the
    sweep is over. *)
Definition disk_before_report (task : string → list path → M state bool)
    (e : env) (cfg : config) (src : disk) (backups : path) (current_time : Z)
    (paths : Py.dict (list path)) (s : state) : disk :=
  fs (cleanup_old_backups e cfg backups current_time
        (submit_all task (_validate_paths cfg src paths)
           (log_add (INFO, Starting_backup) s)).2).2.

(** The entry [d] is a directory on which the sweep calls [rmtree] when
    it gets there. *)
Definition swept (e : env) (retention_seconds current_time : Z) (s : state)
    (d : path) : Prop :=
  is_dir (fs s) d = true ∧ stat_fails e d = false
  ∧ (current_time - st_mtime e d >? retention_seconds) = true.

(** The answer of [restore_browser]: the source path exists and the scan
    of the backup does not fail. *)
Definition scans (e : env) (backup : disk) (source_path : path) : bool :=
  exists_ backup source_path
  && forallb (λ p, negb (scan_fails e p)) (rglob backup source_path).

(** Nothing is in the way at [top]: nothing lies below it, and no regular
    file lies at it or above it. *)
Definition fresh (d : disk) (top : path) : bool :=
  negb (file_above d top)
  && forallb (λ q, negb (bool_decide (below top q))) (all_paths d).

(** The disk is a tree: no regular file lies below another one. *)
Definition tree_like (d : disk) : bool :=
  forallb (λ p, forallb (λ q, bool_decide (p `prefix_of` q → p = q)) (file_paths d))
    (file_paths d).

(** Source paths with the same name are the same path, so that no two of
    them share a directory of the backup. *)
Definition distinct_names (source_paths : list path) : bool :=
  forallb (λ a, forallb (λ b, bool_decide (name a = name b → a = b)) source_paths)
    source_paths.

(** The loop over the sources ends at [source]: its directory cannot be
    made, or the count for the progress bar raises. *)
Definition stops_at (e : env) (cfg : config) (src : disk) (backup_root : path)
    (browser_name : string) (source : path) : bool :=
  exists_ src source
  && (mkdir_fails e (dest_of backup_root browser_name source)
      || match count_files cfg browser_name (concat (os_walk src source).*2) with
         | Raise _ => true
         | Ok _ => false
         end).

(** The sources that the loop gets through. *)
Fixpoint reached (e : env) (cfg : config) (src : disk) (backup_root : path)
    (browser_name : string) (source_paths : list path) : list path :=
  match source_paths with
  | [] => []
  | source :: rest =>
      if stops_at e cfg src backup_root browser_name source then []
      else source :: reached e cfg src backup_root browser_name rest
  end.

(** At and below [backup_root/browser_name] the disk holds only what the
    task makes: the directories of its sources and of its jobs, and the
    copies of its jobs; and no regular file lies above. *)
Definition task_made (cfg : config) (src : disk) (backup_root : path)
    (browser_name : string) (source_paths : list path) (d : disk) : Prop :=
  let top := backup_root ++ [browser_name] in
  (∀ p, is_Some (files d !! p) →
     (¬ p `prefix_of` top ∧ ¬ top `prefix_of` p)
     ∨ ∃ root dd f, job cfg src backup_root browser_name source_paths root dd f
                    ∧ p = dd ++ [f])
  ∧ (∀ q, q ∈ dirs d →
     ¬ below top q
     ∨ (∃ source, In source source_paths ∧ q = dest_of backup_root browser_name source)
     ∨ ∃ root dd f, job cfg src backup_root browser_name source_paths root dd f ∧ q = dd).

(** At and below [dest_path] the disk holds only what the restore makes:
    the copies of the files of the backup and their directories; and no
    regular file lies above. *)
Definition restore_made (backup : disk) (source_path dest_path : path) (d : disk) : Prop :=
  (∀ p, is_Some (files d !! p) →
     (¬ p `prefix_of` dest_path ∧ ¬ dest_path `prefix_of` p)
     ∨ ∃ q, is_Some (files backup !! q) ∧ below source_path q
            ∧ p = dest_path ++ relative_to q source_path)
  ∧ (∀ k, k ∈ dirs d →
     ¬ below dest_path k
     ∨ ∃ q, is_Some (files backup !! q) ∧ below source_path q
            ∧ k = parent (dest_path ++ relative_to q source_path)).

(** The files of the backup that are at their destination, byte for byte,
    in [s] are there in [s']. *)
Definition keeps_restored (backup : disk) (source_path dest_path : path)
    (s s' : state) : Prop :=
  ∀ q cq, below source_path q → files backup !! q = Some cq →
    files (fs s) !! (dest_path ++ relative_to q source_path) = Some cq →
    files (fs s') !! (dest_path ++ relative_to q source_path) = Some cq.

(** ** Concrete machines and trees for the examples *)

Module Scenario.

Definition now : Z := 1800000000.
Definition day : Z := 86400.

(** A machine on which every call succeeds and every directory was just
    modified. [sha256] is a stand-in that tells apart the contents used
    below, as SHA-256 does. *)
Definition calm : env :=
  {| mkdir_fails := λ _, false;
     copy2_outcome := λ _ _, Copy_ok;
     open_fails := λ _, false;
     scan_fails := λ _, false;
     rmtree_fails := λ _, false;
     rmtree_removed := λ _ _, false;
     stat_fails := λ _, false;
     st_mtime := λ _, now;
     sha256 := λ c, c;
     json_dump := λ _ _, "{}" |}.

(** [default_config] as the methods read it. *)
Definition defaults : config :=
  {| max_workers := 4; verify_copies := true; retention_days := 30;
     excluded_files := [".lock"; "Cache"; "GPUCache"; "CacheDictionary"];
     browsers := [("chrome", true); ("firefox", true); ("edge", true);
                  ("brave", true); ("opera", true); ("vivaldi", true)];
     backup_options := [("bookmarks", true); ("history", true); ("passwords", true);
                        ("extensions", true); ("cookies", true); ("preferences", true)] |}.

(** The user answered "n" for every data type in [select_backup_options]. *)
Definition nothing_selected : config :=
  {| max_workers := 4; verify_copies := true; retention_days := 30;
     excluded_files := [".lock"; "Cache"; "GPUCache"; "CacheDictionary"];
     browsers := [("chrome", true)];
     backup_options := [("bookmarks", false); ("history", false); ("passwords", false);
                        ("extensions", false); ("cookies", false); ("preferences", false)] |}.

(** A configuration file that names a data type the pattern table lacks. *)
Definition unknown_option : config :=
  {| max_workers := 4; verify_copies := true; retention_days := 30;
     excluded_files := [".lock"; "Cache"; "GPUCache"; "CacheDictionary"];
     browsers := [("chrome", true)];
     backup_options := [("bookmarks", true); ("downloads", true)] |}.

Definition profile : path :=
  ["C:"; "Users"; "u"; "AppData"; "Local"; "Google"; "Chrome"; "User Data"].
Definition firefox_profiles : path :=
  ["C:"; "Users"; "u"; "AppData"; "Roaming"; "Mozilla"; "Firefox"; "Profiles"].
Definition backups : path := ["C:"; "aurora"; "src"; "backups"].
Definition backup_root : path := backups ++ ["20260101_120000"].

Definition disk_of (entries : list (path * content)) : disk :=
  {| files := list_to_map entries; dirs := ∅ |}.

Definition bookmarks_and_history : disk :=
  disk_of [ (profile ++ ["Default"; "Bookmarks"], "bookmarks-v1");
            (profile ++ ["Default"; "History"], "history-v1") ].

(** Three files, one with "Cache" in its name, two that the pattern
    table selects. *)
Definition three_selected : disk :=
  disk_of [ (profile ++ ["Default"; "Bookmarks"], "bookmarks-v1");
            (profile ++ ["Default"; "History"], "history-v1");
            (profile ++ ["Default"; "Cache.db"], "cache") ].

(** Three files, one with "Cache" in its name, two that no pattern names. *)
Definition three_plain : disk :=
  disk_of [ (profile ++ ["Default"; "notes.txt"], "notes");
            (profile ++ ["Default"; "readme.md"], "readme");
            (profile ++ ["Default"; "Cache.db"], "cache") ].

(** A file in a directory called "Cache", under "Extensions". *)
Definition cache_directory : disk :=
  disk_of [ (profile ++ ["Default"; "Extensions"; "ghbmnnjo"; "Cache"; "index.js"], "js") ].

Definition two_browsers : disk :=
  disk_of [ (profile ++ ["Default"; "Bookmarks"], "bookmarks-v1");
            (firefox_profiles ++ ["u.default"; "places.sqlite"], "places") ].

(** [copy2] writes other bytes for "Bookmarks" and reports no error. *)
Definition garbling : env :=
  {| mkdir_fails := λ _, false;
     copy2_outcome := λ src_file _,
       if String.eqb (name src_file) "Bookmarks" then Copy_corrupt "garbage" else Copy_ok;
     open_fails := λ _, false;
     scan_fails := λ _, false;
     rmtree_fails := λ _, false;
     rmtree_removed := λ _ _, false;
     stat_fails := λ _, false;
     st_mtime := λ _, now;
     sha256 := λ c, c;
     json_dump := λ _ _, "{}" |}.

(** A worker function that raises for Firefox. *)
Definition flaky_task (browser : string) (paths : list path) : M state bool :=
  if String.eqb browser "firefox" then raise ValueError else ret true.

(** Three earlier runs under the backup root, 31, 30 and 29 days old. *)

Definition earlier_runs : disk :=
  disk_of [ (backups ++ ["20251201_120000"; "backup_report.json"], "{}");
            (backups ++ ["20251202_120000"; "backup_report.json"], "{}");
            (backups ++ ["20251203_120000"; "backup_report.json"], "{}") ].

Definition mtimes (p : path) : Z :=
  if String.eqb (name p) "20251201_120000" then now - 31 * day
  else if String.eqb (name p) "20251202_120000" then now - 30 * day
  else now - 29 * day.

Definition aging : env :=
  {| mkdir_fails := λ _, false;
     copy2_outcome := λ _ _, Copy_ok;
     open_fails := λ _, false;
     scan_fails := λ _, false;
     rmtree_fails := λ _, false;
     rmtree_removed := λ _ _, false;
     stat_fails := λ _, false;
     st_mtime := mtimes;
     sha256 := λ c, c;
     json_dump := λ _ _, "{}" |}.

(** Two runs that are both 40 days old; the first cannot be deleted:
    [rmtree] removes its report and then fails on the directory. *)
Definition two_old_runs : disk :=
  disk_of [ (backups ++ ["20251101_120000"; "backup_report.json"], "{}");
            (backups ++ ["20251102_120000"; "backup_report.json"], "{}") ].

Definition first_entry : path := List.hd [] (iterdir two_old_runs backups).
Definition second_entry : path := List.hd [] (List.tl (iterdir two_old_runs backups)).

Definition stuck : env :=
  {| mkdir_fails := λ _, false;
     copy2_outcome := λ _ _, Copy_ok;
     open_fails := λ _, false;
     scan_fails := λ _, false;
     rmtree_fails := λ p, bool_decide (p = first_entry);
     rmtree_removed := λ _ q, String.eqb (name q) "backup_report.json";
     stat_fails := λ _, false;
     st_mtime := λ _, now - 40 * day;
     sha256 := λ c, c;
     json_dump := λ _ _, "{}" |}.

(** The profile directory after its content was removed. *)
Definition emptied_profile : disk := {| files := ∅; dirs := {[profile]} |}.

(** No copy of the restore succeeds. *)
Definition read_only : env :=
  {| mkdir_fails := λ _, false;
     copy2_outcome := λ _ _, Copy_raises None;
     open_fails := λ _, false;
     scan_fails := λ _, false;
     rmtree_fails := λ _, false;
     rmtree_removed := λ _ _, false;
     stat_fails := λ _, false;
     st_mtime := λ _, now;
     sha256 := λ c, c;
     json_dump := λ _ _, "{}" |}.


(** The user answered "y" for the preferences only. *)
Definition only_preferences : config :=
  {| max_workers := 4; verify_copies := true; retention_days := 30;
     excluded_files := [".lock"; "Cache"; "GPUCache"; "CacheDictionary"];
     browsers := [("chrome", true); ("firefox", true); ("edge", true);
                  ("brave", true); ("opera", true); ("vivaldi", true)];
     backup_options := [("bookmarks", false); ("history", false); ("passwords", false);
                        ("extensions", false); ("cookies", false); ("preferences", true)] |}.

(** A configuration file whose only enabled data type is misspelt. *)
Definition misspelt_option : config :=
  {| max_workers := 4; verify_copies := true; retention_days := 30;
     excluded_files := [".lock"; "Cache"; "GPUCache"; "CacheDictionary"];
     browsers := [("chrome", true)];
     backup_options := [("bookmarks", false); ("histroy", true)] |}.

(** The default configuration with [retention_days] set to 0. *)
Definition keep_nothing : config :=
  {| max_workers := 4; verify_copies := true; retention_days := 0;
     excluded_files := [".lock"; "Cache"; "GPUCache"; "CacheDictionary"];
     browsers := [("chrome", true); ("firefox", true); ("edge", true);
                  ("brave", true); ("opera", true); ("vivaldi", true)];
     backup_options := [("bookmarks", true); ("history", true); ("passwords", true);
                        ("extensions", true); ("cookies", true); ("preferences", true)] |}.

(** A machine without faults on which every directory was modified one
    second ago. *)
Definition ticking : env :=
  {| mkdir_fails := λ _, false;
     copy2_outcome := λ _ _, Copy_ok;
     open_fails := λ _, false;
     scan_fails := λ _, false;
     rmtree_fails := λ _, false;
     rmtree_removed := λ _ _, false;
     stat_fails := λ _, false;
     st_mtime := λ _, now - 1;
     sha256 := λ c, c;
     json_dump := λ _ _, "{}" |}.

Definition linux_host : host :=
  {| system := "Linux"; LOCALAPPDATA := []; APPDATA := []; home := ["home"; "u"] |}.

Definition windows_host : host :=
  {| system := "Windows";
     LOCALAPPDATA := ["C:"; "Users"; "u"; "AppData"; "Local"];
     APPDATA := ["C:"; "Users"; "u"; "AppData"; "Roaming"];
     home := ["C:"; "Users"; "u"] |}.

(** The disk once [_create_backup_dir] has made the directory of the run. *)
Definition made_backup_dir : disk := {| files := ∅; dirs := {[backup_root]} |}.

(** A directory lies where the copy of "Bookmarks" is to go. *)
Definition directory_in_the_way : disk :=
  {| files := ∅;
     dirs := {[backup_root ++ ["chrome"; "User Data"; "Default"; "Bookmarks"]]} |}.

(** A profile that holds its bookmarks only. *)
Definition only_bookmarks : disk :=
  disk_of [ (profile ++ ["Default"; "Bookmarks"], "bookmarks-v1") ].

(** Two source trees: the files of the first are selected, the second
    holds a file that no pattern names. *)
Definition second_profile : path :=
  ["C:"; "Users"; "u"; "AppData"; "Local"; "Google"; "Chrome Beta"; "Profile"].

Definition two_sources : disk :=
  disk_of [ (profile ++ ["Bookmarks"], "bookmarks-v1");
            (second_profile ++ ["notes.txt"], "notes") ].

(** A backup of Chrome, as [run] leaves it. *)
Definition saved_backup : disk :=
  disk_of [ (backup_root ++ ["chrome"; "User Data"; "Default"; "Bookmarks"], "bookmarks-v1");
            (backup_root ++ ["backup_report.json"], "{}") ].

End Scenario.

(** * Proofs *)

(** ** Dictionaries *)

(** Reading a dictionary after [d[k] = v]. *)
Lemma get_set {V} (d : Py.dict V) k v k' :
  Py.get (Py.set d k v) k' = if String.eqb k k' then Some v else Py.get d k'.
Proof.
  induction d as [|[k0 v0] d IH]; simpl.
  - reflexivity.
  - destruct (String.eqb_spec k0 k) as [->|Hne]; simpl.
    + destruct (String.eqb_spec k k'); reflexivity.
    + rewrite IH. destruct (String.eqb_spec k0 k') as [->|]; [|reflexivity].
      destruct (String.eqb_spec k k'); congruence.
Qed.

Lemma keys_set {V} (d : Py.dict V) k v :
  Py.keys (Py.set d k v) = if bool_decide (k ∈ Py.keys d) then Py.keys d else Py.keys d ++ [k].
Proof.
  induction d as [|[k0 v0] d IH]; simpl; [reflexivity|].
  destruct (String.eqb_spec k0 k) as [->|Hne]; simpl.
  - rewrite bool_decide_eq_true_2 by left. reflexivity.
  - unfold Py.keys in *. rewrite IH. case_bool_decide as H1; case_bool_decide as H2; try reflexivity.
    + exfalso. apply H2. by right.
    + exfalso. apply list_elem_of_In in H2. simpl in H2. destruct H2 as [?|H2]; [congruence|].
      apply H1, list_elem_of_In, H2.
Qed.

Lemma get_None_keys {V} (d : Py.dict V) k : Py.get d k = None ↔ k ∉ Py.keys d.
Proof.
  induction d as [|[k0 v0] d IH]; simpl.
  - split; [intros _ H; inversion H | reflexivity].
  - destruct (String.eqb_spec k0 k) as [->|Hne].
    + split; [discriminate | intros H; exfalso; apply H; left].
    + rewrite IH. unfold Py.keys. simpl. rewrite not_elem_of_cons.
      split; [intros H; split; [congruence | exact H] | intros [_ H]; exact H].
Qed.

(** Updating with [items] leaves the keys that [items] lacks as they were. *)
Lemma get_fold_set_other {V} (items : list (string * V)) (d : Py.dict V) k :
  k ∉ Py.keys items →
  Py.get (fold_left (λ d kv, Py.set d kv.1 kv.2) items d) k = Py.get d k.
Proof.
  revert d. induction items as [|[k0 v0] items IH]; intros d Hk; simpl; [reflexivity|].
  unfold Py.keys in Hk. simpl in Hk. apply not_elem_of_cons in Hk as [Hne Hk].
  rewrite IH by exact Hk. rewrite get_set.
  destruct (String.eqb_spec k0 k); congruence.
Qed.

(** Updates keep the keys of a dictionary distinct. *)
Lemma keys_fold_set_NoDup {V} (items : list (string * V)) (d : Py.dict V) :
  NoDup (Py.keys d) → NoDup (Py.keys (fold_left (λ d kv, Py.set d kv.1 kv.2) items d)).
Proof.
  revert d. induction items as [|[k0 v0] items IH]; intros d Hd; simpl; [exact Hd|].
  apply IH. rewrite keys_set. case_bool_decide as H; [exact Hd|].
  apply NoDup_app. split_and!; [exact Hd | | apply NoDup_singleton].
  intros x Hx Hx'. apply list_elem_of_singleton in Hx'. congruence.
Qed.

Lemma keys_of_items {V} (items : list (string * V)) k :
  k ∈ Py.keys (Py.of_items items) → k ∈ Py.keys items.
Proof.
  intros Hin. destruct (decide (k ∈ Py.keys items)) as [|Hn]; [done|].
  exfalso. apply (get_fold_set_other items [] k) in Hn.
  apply get_None_keys in Hn. exact (Hn Hin).
Qed.

Lemma set_fresh {V} (d : Py.dict V) k v : k ∉ Py.keys d → Py.set d k v = d ++ [(k, v)].
Proof.
  induction d as [|[k0 v0] d IH]; intros Hk; simpl; [reflexivity|].
  unfold Py.keys in Hk. simpl in Hk. apply not_elem_of_cons in Hk as [Hne Hk].
  destruct (String.eqb_spec k0 k); [congruence|]. rewrite IH by exact Hk. reflexivity.
Qed.

(** ** The effect monad *)

Lemma bind_ok {S A B} (c : M S A) (k : A → M S B) s a s' :
  c s = (Ok a, s') → bind c k s = k a s'.
Proof. intros H. unfold bind. rewrite H. reflexivity. Qed.

Lemma bind_raise {S A B} (c : M S A) (k : A → M S B) s ex s' :
  c s = (Raise ex, s') → bind c k s = (Raise ex, s').
Proof. intros H. unfold bind. rewrite H. reflexivity. Qed.

Lemma try_except_ok {S A} (c : M S A) (h : exn → M S A) s a s' :
  c s = (Ok a, s') → try_except c h s = (Ok a, s').
Proof. intros H. unfold try_except. rewrite H. reflexivity. Qed.

Lemma try_except_raise {S A} (c : M S A) (h : exn → M S A) s ex s' :
  c s = (Raise ex, s') → try_except c h s = h ex s'.
Proof. intros H. unfold try_except. rewrite H. reflexivity. Qed.

(** [try: x = c; k(x)  except ...]: the handler covers [k] too. *)
Lemma try_except_bind {S A B} (c : M S A) (k : A → M S B) (h : exn → M S B) s a s' :
  c s = (Ok a, s') → try_except (bind c k) h s = try_except (k a) h s'.
Proof. intros H. unfold try_except, bind. rewrite H. reflexivity. Qed.

Lemma try_except_bind_raise {S A B} (c : M S A) (k : A → M S B) (h : exn → M S B) s ex s' :
  c s = (Raise ex, s') → try_except (bind c k) h s = h ex s'.
Proof. intros H. unfold try_except, bind. rewrite H. reflexivity. Qed.

Lemma run_pair {S A} (c : M S A) (s : S) : c s = ((c s).1, (c s).2).
Proof. destruct (c s). reflexivity. Qed.

(** A loop over [xs ++ ys] runs [xs], then [ys] unless [xs] raised. *)
Lemma for_each_app {S A} (xs ys : list A) (body : A → M S unit) (s : S) :
  for_each (xs ++ ys) body s =
  match for_each xs body s with
  | (Ok _, s') => for_each ys body s'
  | (Raise ex, s') => (Raise ex, s')
  end.
Proof.
  revert s. induction xs as [|x xs IH]; intros s; simpl; [reflexivity|].
  unfold bind. destruct (body x s) as [[[]|ex] s']; [apply IH | reflexivity].
Qed.

(** An invariant of the body is an invariant of the loop, also when the
    loop is left by an exception. *)
Lemma for_each_preserves {S A} (P : S → Prop) (xs : list A) (body : A → M S unit) (s : S) :
  (∀ x s, In x xs → P s → P (body x s).2) → P s → P (for_each xs body s).2.
Proof.
  revert s. induction xs as [|x xs IH]; intros s Hbody Hs; simpl; [exact Hs|].
  unfold bind. pose proof (Hbody x s (or_introl eq_refl) Hs) as Hx.
  destruct (body x s) as [[[]|ex] s1]; simpl in *; [|exact Hx].
  apply IH; [|exact Hx]. intros y s2 Hy. apply Hbody. right. exact Hy.
Qed.

(** A loop whose body never raises returns. *)
Lemma for_each_ok {S A} (xs : list A) (body : A → M S unit) (s : S) :
  (∀ x s, In x xs → (body x s).1 = Ok tt) → (for_each xs body s).1 = Ok tt.
Proof.
  revert s. induction xs as [|x xs IH]; intros s Hbody; simpl; [reflexivity|].
  unfold bind. pose proof (Hbody x s (or_introl eq_refl)) as Hx.
  destruct (body x s) as [r s1]. simpl in Hx. subst r.
  apply IH. intros y s2 Hy. apply Hbody. right. exact Hy.
Qed.

(** When the body never raises, what an iteration establishes holds at the
    end of the loop, provided the steps of the loop preserve it. *)
Lemma for_each_establishes {S A} (R : S → S → Prop) `{!PreOrder R} (Q : A → S → Prop)
    (xs : list A) (body : A → M S unit) (s : S) :
  (∀ x s, In x xs → (body x s).1 = Ok tt) →
  (∀ x s, In x xs → R s (body x s).2) →
  (∀ x s, In x xs → Q x (body x s).2) →
  (∀ x s s', Q x s → R s s' → Q x s') →
  ∀ x, In x xs → Q x (for_each xs body s).2.
Proof.
  intros Hok HR HQ Hstable.
  revert s. induction xs as [|y xs IH]; intros s x Hx; [destruct Hx|].
  simpl. unfold bind.
  pose proof (Hok y s (or_introl eq_refl)) as Hy.
  pose proof (HQ y s (or_introl eq_refl)) as HQy.
  destruct (body y s) as [r s1]. simpl in Hy, HQy. subst r.
  assert (Hrest : R s1 (for_each xs body s1).2).
  { apply (for_each_preserves (R s1)); [|reflexivity].
    intros z s2 Hz Hs2. etrans; [exact Hs2|]. apply HR. right. exact Hz. }
  destruct Hx as [->|Hx].
  - eapply Hstable; [exact HQy | exact Hrest].
  - apply IH; try assumption.
    + intros z s2 Hz. apply Hok. right. exact Hz.
    + intros z s2 Hz. apply HR. right. exact Hz.
    + intros z s2 Hz. apply HQ. right. exact Hz.
Qed.

(** ** Configuration *)

(** C8. [load_config] always returns a configuration. Every top-level
    field that the loaded file does not supply has the value of
    [default_config]; a file that is not a JSON object, and in particular
    a malformed one, gives [default_config] itself, with the error logged. *)
Theorem load_config_defaults :
  (∀ f k, ¬ supplied f k →
     Py.get (loaded_config (load_config f)) k = Py.get default_config k)
  ∧ (∀ f, (∀ members, f ≠ Parsed (JObj members)) →
     loaded_config (load_config f) = default_config)
  ∧ loaded_config (load_config Malformed) = default_config
  ∧ loaded_log (load_config Malformed) = [(ERROR, Error_loading_config JSONDecodeError)].
Proof.
  split_and!; try reflexivity.
  - intros f k Hk. destruct f as [[]| | |j]; try reflexivity.
    destruct j as [| | | | |members]; try reflexivity.
    change (loaded_config (load_config (Parsed (JObj members))))
      with (Py.merge default_config (Py.of_items members)).
    unfold Py.merge. apply get_fold_set_other.
    intros Hin. apply Hk, keys_of_items, Hin.
  - intros f Hf. destruct f as [[]| | |j]; try reflexivity.
    destruct j; try reflexivity. exfalso. by eapply Hf.
Qed.

Lemma load_config_defaults_witness :
  Py.get (loaded_config (load_config (Parsed (JObj [("retention_days", JNum 7)]))))
    "verify_copies" = Some (JBool true)
  ∧ Py.get (loaded_config (load_config (Parsed (JObj [("retention_days", JNum 7)]))))
    "retention_days" = Some (JNum 7).
Proof.
  split; [|reflexivity].
  apply (proj1 load_config_defaults (Parsed (JObj [("retention_days", JNum 7)])) "verify_copies").
  unfold supplied, Py.keys. simpl. intros H. apply list_elem_of_singleton in H. discriminate H.
Defined.

(** ** FileSelector *)

Lemma any_values_false (options : Py.dict bool) :
  (∀ category enabled, In (category, enabled) options → enabled = false) →
  Py.any (Py.values options) = false.
Proof.
  induction options as [|[k b] options IH]; intros H; [reflexivity|].
  unfold Py.any, Py.values in *. simpl.
  rewrite (H k b) by (left; reflexivity). simpl.
  apply IH. intros c en Hin. apply (H c en). right. exact Hin.
Qed.

(** C3. Fail-open selection: when no data category is enabled in the
    configuration, [_should_backup_file] returns [True] for every file name
    and every browser. *)
Theorem should_backup_file_fail_open (cfg : config) (file_name browser_type : string) :
  (∀ category enabled, In (category, enabled) (backup_options cfg) → enabled = false) →
  _should_backup_file cfg file_name browser_type = Ok true.
Proof.
  intros Hnone. unfold _should_backup_file.
  rewrite (any_values_false _ Hnone). reflexivity.
Qed.

Lemma should_backup_file_fail_open_witness :
  _should_backup_file Scenario.nothing_selected "Default/notes.txt" "chrome" = Ok true.
Proof.
  apply (should_backup_file_fail_open Scenario.nothing_selected "Default/notes.txt" "chrome").
  intros category enabled Hin. simpl in Hin.
  repeat (destruct Hin as [Heq|Hin]; [inversion Heq; reflexivity|]).
  destruct Hin.
Defined.

Lemma browser_family_cases browser_type :
  In (browser_family browser_type) ["firefox"; "opera"; "chrome_based"].
Proof.
  unfold browser_family.
  destruct (Py.str_in "firefox" _); [left; reflexivity|].
  destruct (Py.str_in "opera" _); [right; left; reflexivity | right; right; left; reflexivity].
Qed.

Lemma patterns_for_known family data_type :
  In family ["firefox"; "opera"; "chrome_based"] → known_category data_type = true →
  ∃ ps, patterns_for family data_type = Ok ps.
Proof.
  intros Hfam Hknown. unfold known_category, _get_browser_data_patterns in Hknown.
  cbn [forallb snd] in Hknown.
  repeat (apply andb_prop in Hknown as [?%bool_decide_eq_true Hknown]).
  unfold patterns_for.
  destruct Hfam as [<-|[<-|[<-|[]]]].
  - let t := eval vm_compute in (Py.get _get_browser_data_patterns "firefox") in
    change (Py.get _get_browser_data_patterns "firefox") with t.
    cbv beta iota. match goal with H : is_Some ?x |- context [?x] => destruct H as [ps ->] end.
    by eexists.
  - let t := eval vm_compute in (Py.get _get_browser_data_patterns "opera") in
    change (Py.get _get_browser_data_patterns "opera") with t.
    cbv beta iota. match goal with H : is_Some ?x |- context [?x] => destruct H as [ps ->] end.
    by eexists.
  - let t := eval vm_compute in (Py.get _get_browser_data_patterns "chrome_based") in
    change (Py.get _get_browser_data_patterns "chrome_based") with t.
    cbv beta iota. match goal with H : is_Some ?x |- context [?x] => destruct H as [ps ->] end.
    by eexists.
Qed.

(** With known options the FileSelector returns for every file name. *)
Lemma known_options_total cfg browser_name :
  known_options cfg = true →
  ∀ file_name, ∃ b, _should_backup_file cfg file_name browser_name = Ok b.
Proof.
  intros Hknown file_name. unfold _should_backup_file.
  destruct (negb _); [by eexists|].
  unfold known_options in Hknown.
  pose proof (browser_family_cases browser_name) as Hfam.
  induction (backup_options cfg) as [|[data_type enabled] options IH]; simpl; [by eexists|].
  simpl in Hknown. apply andb_prop in Hknown as [Hk Hrest].
  destruct enabled; simpl in *; [|apply IH, Hrest].
  destruct (patterns_for_known _ _ Hfam Hk) as [ps ->].
  destruct (existsb _ ps); [by eexists | apply IH, Hrest].
Qed.

(** ** Python strings *)

Lemma append_assoc (a b c : string) : ((a ++ b) ++ c = a ++ (b ++ c))%string.
Proof.
  induction a as [|x a IH]; [reflexivity|].
  change (String x ((a ++ b) ++ c) = String x (a ++ (b ++ c)))%string. by rewrite IH.
Qed.

(** [hay.startswith(needle)] holds exactly when [hay] is [needle + post]. *)
Lemma prefix_spec (needle hay : string) :
  String.prefix needle hay = true ↔ ∃ post, hay = (needle ++ post)%string.
Proof.
  revert hay. induction needle as [|a needle IH]; intros hay.
  - destruct hay; simpl; split; eauto.
  - destruct hay as [|b hay]; simpl.
    + split; [discriminate|]. intros [post H].
      change (EmptyString = String a (needle ++ post)%string) in H. discriminate.
    + destruct (ascii_dec a b) as [->|Hne].
      * rewrite IH. split; intros [post H]; exists post.
        -- by rewrite H.
        -- change (String b hay = String b (needle ++ post)%string) in H. congruence.
      * split; [discriminate|]. intros [post H].
        change (String b hay = String a (needle ++ post)%string) in H. congruence.
Qed.

(** [needle in hay] holds exactly when [hay] is [pre + needle + post]. *)
Lemma str_in_spec (needle hay : string) :
  Py.str_in needle hay = true ↔ ∃ pre post, hay = (pre ++ needle ++ post)%string.
Proof.
  induction hay as [|c hay IH]; cbn [Py.str_in].
  - rewrite prefix_spec. split.
    + intros [post H]. by exists ""%string, post.
    + intros (pre & post & H). destruct pre as [|c pre]; [by exists post|].
      change (EmptyString = String c (pre ++ needle ++ post)%string) in H. discriminate.
  - rewrite orb_true_iff, IH, prefix_spec. split.
    + intros [[post H]|(pre & post & H)].
      * by exists ""%string, post.
      * exists (String c pre), post. simpl. by rewrite H.
    + intros (pre & post & H). destruct pre as [|c' pre].
      * left. by exists post.
      * right. exists pre, post.
        change (String c hay = String c' (pre ++ needle ++ post)%string) in H. congruence.
Qed.

(** [in] on strings is transitive. *)
Lemma str_in_trans (a b c : string) :
  Py.str_in a b = true → Py.str_in b c = true → Py.str_in a c = true.
Proof.
  rewrite !str_in_spec. intros (p1 & q1 & ->) (p2 & q2 & ->).
  exists (p2 ++ p1)%string, (q1 ++ q2)%string. by rewrite !append_assoc.
Qed.

(** ** FileSelector: longer names *)

Lemma pattern_hits_mono (f g pattern : string) :
  Py.str_in f g = true → pattern_hits f pattern = true → pattern_hits g pattern = true.
Proof.
  unfold pattern_hits. intros Hfg.
  destruct (Py.endswith pattern "/*"); intros H; eapply str_in_trans; eassumption.
Qed.

(** The loop over the options, on a longer file name. *)
Lemma scan_options_mono (family f g : string) (options : list (string * bool)) :
  Py.str_in f g = true →
  scan_options family f options = Ok true → scan_options family g options = Ok true.
Proof.
  intros Hfg. induction options as [|[data_type enabled] options IH]; simpl; [done|].
  destruct enabled; simpl; [|exact IH].
  destruct (patterns_for family data_type) as [ps|ex]; [|done].
  destruct (existsb (pattern_hits f) ps) eqn:Hf.
  - intros _. apply existsb_exists in Hf as (p & Hp & Hhit).
    rewrite (proj2 (existsb_exists (pattern_hits g) ps)); [done|].
    exists p. split; [done|]. by eapply pattern_hits_mono.
  - intros H. destruct (existsb (pattern_hits g) ps); [done | by apply IH].
Qed.

(** The loop over the options returns on a longer file name when it
    returns on a shorter one. *)
Lemma scan_options_returns_mono (family f g : string) (options : list (string * bool)) :
  Py.str_in f g = true →
  (∃ b, scan_options family f options = Ok b) → ∃ b, scan_options family g options = Ok b.
Proof.
  intros Hfg. induction options as [|[data_type enabled] options IH]; simpl; [eauto|].
  destruct enabled; simpl; [|exact IH].
  destruct (patterns_for family data_type) as [ps|ex]; [|by intros [b ?]].
  destruct (existsb (pattern_hits f) ps) eqn:Hf.
  - intros _. apply existsb_exists in Hf as (p & Hp & Hhit).
    rewrite (proj2 (existsb_exists (pattern_hits g) ps)); [eauto|].
    exists p. split; [done|]. by eapply pattern_hits_mono.
  - intros H. destruct (existsb (pattern_hits g) ps); [eauto | by apply IH].
Qed.

Lemma should_backup_file_returns_mono (cfg : config) (f g browser_type : string) :
  Py.str_in f g = true →
  (∃ b, _should_backup_file cfg f browser_type = Ok b) →
  ∃ b, _should_backup_file cfg g browser_type = Ok b.
Proof.
  intros Hfg. unfold _should_backup_file.
  destruct (negb _); [eauto|]. by apply scan_options_returns_mono.
Qed.

Lemma append_nil_r (s : string) : (s ++ "")%string = s.
Proof.
  induction s as [|c s IH]; [done|].
  change (String c (s ++ "")%string = String c s). by rewrite IH.
Qed.

(** The name of a file is in every path that ends with it. *)
Lemma str_in_path_str (rel : list string) (f : string) :
  Py.str_in f (path_str (rel ++ [f])) = true.
Proof.
  apply str_in_spec. unfold path_str.
  induction rel as [|a rel (pre & post & IH)]; simpl.
  - exists ""%string, ""%string. change (f = (f ++ "")%string). by rewrite append_nil_r.
  - destruct (rel ++ [f]) as [|b l] eqn:E; [by destruct rel|].
    rewrite IH. exists (a ++ "/" ++ pre)%string, post. by rewrite !append_assoc.
Qed.

(** ** Paths and enumeration *)

Lemma parent_name (p : path) : p ≠ [] → parent p ++ [name p] = p.
Proof. intros Hp. symmetry. apply app_removelast_last, Hp. Qed.

Lemma parent_snoc (root : path) (file : string) : parent (root ++ [file]) = root.
Proof. apply removelast_last. Qed.

Lemma name_snoc (root : path) (file : string) : name (root ++ [file]) = file.
Proof. apply last_last. Qed.

Lemma below_snoc (top root : path) (file : string) :
  below top (root ++ [file]) ↔ top `prefix_of` root.
Proof.
  unfold below. split.
  - intros [[k Hk] Hlen]. rewrite length_app in Hlen. simpl in Hlen.
    exists (take (length root - length top) k).
    assert (Htake : take (length root) (root ++ [file]) = take (length root) (top ++ k))
      by (rewrite Hk; reflexivity).
    rewrite take_app_length in Htake. rewrite take_app_ge in Htake by lia.
    exact Htake.
  - intros [k ->]. split.
    + exists (k ++ [file]). by rewrite <- app_assoc.
    + rewrite !length_app. simpl. lia.
Qed.

Lemma below_nonempty (top p : path) : below top p → p ≠ [].
Proof. intros [_ Hlen] ->. simpl in Hlen. lia. Qed.

Lemma relative_to_snoc (top root : path) (file : string) :
  top `prefix_of` root → relative_to (root ++ [file]) top = relative_to root top ++ [file].
Proof.
  intros [k ->]. unfold relative_to. rewrite <- app_assoc.
  rewrite !drop_app_length. reflexivity.
Qed.

Lemma relative_to_below (top p : path) : top `prefix_of` p → top ++ relative_to p top = p.
Proof. intros [k ->]. unfold relative_to. by rewrite drop_app_length. Qed.

Lemma elem_of_file_paths (d : disk) (p : path) : p ∈ file_paths d ↔ is_Some (files d !! p).
Proof.
  unfold file_paths. rewrite list_elem_of_fmap. split.
  - intros [[q c] [-> Hin]]. apply elem_of_map_to_list in Hin. simpl. eauto.
  - intros [c Hc]. exists (p, c). split; [reflexivity|]. by apply elem_of_map_to_list.
Qed.

Lemma NoDup_file_paths (d : disk) : NoDup (file_paths d).
Proof. apply NoDup_fst_map_to_list. Qed.

Lemma elem_of_all_paths (d : disk) (p : path) :
  p ∈ all_paths d ↔ is_Some (files d !! p) ∨ p ∈ dirs d.
Proof.
  unfold all_paths. rewrite elem_of_app, elem_of_file_paths, elem_of_elements. reflexivity.
Qed.

Lemma exists_spec (d : disk) (p : path) :
  exists_ d p = true ↔ ∃ q, q ∈ all_paths d ∧ p `prefix_of` q.
Proof.
  unfold exists_. rewrite existsb_exists. split.
  - intros (q & Hq & Hpre). exists q. split; [by apply list_elem_of_In|].
    by apply bool_decide_eq_true in Hpre.
  - intros (q & Hq & Hpre). exists q. split; [by apply list_elem_of_In|].
    by apply bool_decide_eq_true.
Qed.

Lemma exists_below (d : disk) (top p : path) :
  is_Some (files d !! p) → top `prefix_of` p → exists_ d top = true.
Proof.
  intros Hp Hpre. unfold exists_. apply existsb_exists. exists p. split.
  - apply list_elem_of_In. unfold all_paths. apply elem_of_app. left.
    by apply elem_of_file_paths.
  - by apply bool_decide_eq_true.
Qed.

(** [os_walk] yields exactly the files below [top]. *)
Lemma os_walk_spec (d : disk) (top root : path) (file : string) :
  (∃ names, In (root, names) (os_walk d top) ∧ In file names)
  ↔ is_Some (files d !! (root ++ [file])) ∧ top `prefix_of` root.
Proof.
  unfold os_walk. set (found := filter (below top) (file_paths d)).
  assert (Hfound : ∀ p, p ∈ found ↔ is_Some (files d !! p) ∧ below top p).
  { intros p. unfold found. rewrite list_elem_of_filter, elem_of_file_paths. tauto. }
  split.
  - intros (names & Hentry & Hfile).
    apply in_map_iff in Hentry as (r & Heq & _). inversion Heq; subst r names. clear Heq.
    apply in_map_iff in Hfile as (p & <- & Hp).
    apply list_elem_of_In, list_elem_of_filter in Hp as [Hpar Hp].
    apply Hfound in Hp as [Hsome Hbelow]. subst root.
    rewrite parent_name by (eapply below_nonempty; eassumption).
    split; [exact Hsome|].
    apply below_snoc with (file := name p).
    rewrite parent_name by (eapply below_nonempty; eassumption). exact Hbelow.
  - intros [Hsome Hpre].
    assert (Hin : root ++ [file] ∈ found) by (apply Hfound; split; [done | by apply below_snoc]).
    exists (map name (filter (λ p, parent p = root) found)). split.
    + apply in_map_iff. exists root. split; [reflexivity|].
      apply list_elem_of_In, elem_of_remove_dups, list_elem_of_fmap.
      exists (root ++ [file]). split; [by rewrite parent_snoc | exact Hin].
    + apply in_map_iff. exists (root ++ [file]). split; [apply name_snoc|].
      apply list_elem_of_In, list_elem_of_filter. split; [apply parent_snoc | exact Hin].
Qed.

(** ** Removing a tree *)

Lemma elem_of_all_paths_remove (d : disk) (p q : path) :
  q ∈ all_paths (remove_tree p d) ↔ q ∈ all_paths d ∧ ¬ p `prefix_of` q.
Proof.
  rewrite !elem_of_all_paths. unfold remove_tree. simpl.
  rewrite elem_of_filter. unfold is_Some.
  setoid_rewrite map_lookup_filter_Some. simpl. split.
  - intros [[c [Hc Hp]]|[Hp Hq]]; (split; [|exact Hp]); [left; eauto | right; exact Hq].
  - intros [[[c Hc]|Hq] Hp]; [left; eauto | right; done].
Qed.

Lemma prefix_same_length (p q : path) : p `prefix_of` q → length p = length q → p = q.
Proof.
  intros [k ->] Hlen. rewrite length_app in Hlen.
  destruct k; [by rewrite app_nil_r | simpl in Hlen; lia].
Qed.

Lemma siblings_disjoint (p q k : path) :
  length p = length q → p ≠ q → q `prefix_of` k → ¬ p `prefix_of` k.
Proof.
  intros Hlen Hne [k1 ->] [k2 Hk]. apply Hne.
  assert (H : take (length p) (q ++ k1) = take (length p) (p ++ k2)) by (by rewrite Hk).
  rewrite take_app_length in H. rewrite Hlen, take_app_length in H. done.
Qed.

Lemma remove_tree_lookup (d : disk) (p q : path) :
  files (remove_tree p d) !! q = if decide (p `prefix_of` q) then None else files d !! q.
Proof.
  unfold remove_tree. simpl. destruct (decide (p `prefix_of` q)) as [Hpre|Hpre].
  - apply map_lookup_filter_None. right. intros c _ Hn. by apply Hn.
  - destruct (files d !! q) as [c|] eqn:E.
    + apply map_lookup_filter_Some. done.
    + apply map_lookup_filter_None. by left.
Qed.

Lemma remove_part_lookup (removed : path → bool) (d : disk) (p q : path) :
  files (remove_part removed p d) !! q
  = if decide (below p q ∧ removed q = true) then None else files d !! q.
Proof.
  unfold remove_part. simpl. destruct (decide (below p q ∧ removed q = true)) as [Hq|Hq].
  - apply map_lookup_filter_None. right. intros c _ Hn. by apply Hn.
  - destruct (files d !! q) as [c|] eqn:E.
    + apply map_lookup_filter_Some. done.
    + apply map_lookup_filter_None. by left.
Qed.

(** [same_below] is reflexive and transitive, and what is asked of a path
    has the same answer on both disks. *)
Lemma same_below_refl (q : path) (d : disk) : same_below q d d.
Proof. by intros p _. Qed.

Lemma same_below_trans (q : path) (d1 d2 d3 : disk) :
  same_below q d1 d2 → same_below q d2 d3 → same_below q d1 d3.
Proof.
  intros H12 H23 p Hp. destruct (H12 p Hp) as [E1 D1], (H23 p Hp) as [E2 D2].
  split; [congruence | tauto].
Qed.

Lemma same_below_exists (q : path) (d d' : disk) :
  same_below q d d' → exists_ d' q = exists_ d q.
Proof.
  intros H. apply Bool.eq_iff_eq_true. rewrite !exists_spec.
  split; intros (k & Hk & Hpre); exists k; (split; [|done]);
    apply elem_of_all_paths; apply elem_of_all_paths in Hk; destruct (H k Hpre) as [E D].
  - destruct Hk as [Hk|Hk]; [left; by rewrite <- E | right; by apply D].
  - destruct Hk as [Hk|Hk]; [left; by rewrite E | right; by apply D].
Qed.

Lemma same_below_is_file (q : path) (d d' : disk) :
  same_below q d d' → is_file d' q = is_file d q.
Proof. intros H. unfold is_file. by destruct (H q) as [-> _]. Qed.

Lemma same_below_is_dir (q : path) (d d' : disk) :
  same_below q d d' → is_dir d' q = is_dir d q.
Proof.
  intros H. unfold is_dir. by rewrite (same_below_is_file q d d'), (same_below_exists q d d').
Qed.

(** Removing a tree, or a part of it, does not touch another path of the
    same depth. *)
Lemma remove_tree_sibling (d : disk) (p q : path) :
  length p = length q → p ≠ q → same_below q d (remove_tree p d).
Proof.
  intros Hlen Hne k Hk.
  assert (Hnot : ¬ p `prefix_of` k) by (by eapply siblings_disjoint).
  split.
  - rewrite remove_tree_lookup. by rewrite decide_False.
  - unfold remove_tree. simpl. rewrite elem_of_filter. tauto.
Qed.

Lemma remove_part_sibling (removed : path → bool) (d : disk) (p q : path) :
  length p = length q → p ≠ q → same_below q d (remove_part removed p d).
Proof.
  intros Hlen Hne k Hk.
  assert (Hnot : ¬ p `prefix_of` k) by (by eapply siblings_disjoint).
  assert (Hbelow : ¬ (below p k ∧ removed k = true)) by (intros [[? _] _]; done).
  split.
  - rewrite remove_part_lookup. by rewrite decide_False.
  - unfold remove_part. simpl. rewrite elem_of_union, elem_of_singleton, elem_of_filter.
    split; [|tauto]. intros [->|[_ ?]]; [|done]. exfalso. by apply Hnot.
Qed.

(** The directory on which [rmtree] failed is still there. *)
Lemma is_dir_remove_part (removed : path → bool) (d : disk) (p : path) :
  is_dir d p = true → is_dir (remove_part removed p d) p = true.
Proof.
  unfold is_dir, is_file. intros [Hfile _]%andb_prop. apply andb_true_intro. split.
  - rewrite remove_part_lookup. rewrite decide_False; [exact Hfile|].
    intros [[_ Hlen] _]. lia.
  - apply exists_spec. exists p. split; [|done].
    apply elem_of_all_paths. right. unfold remove_part. simpl. set_solver.
Qed.

Lemma exists_remove_sibling (d : disk) (p q : path) :
  length p = length q → p ≠ q → exists_ (remove_tree p d) q = exists_ d q.
Proof. intros Hlen Hne. by apply same_below_exists, remove_tree_sibling. Qed.

Lemma exists_remove_self (d : disk) (p : path) : exists_ (remove_tree p d) p = false.
Proof.
  apply not_true_is_false. rewrite exists_spec.
  intros (k & [_ Hk]%elem_of_all_paths_remove & Hpre). done.
Qed.

Lemma is_dir_remove_sibling (d : disk) (p q : path) :
  length p = length q → p ≠ q → is_dir (remove_tree p d) q = is_dir d q.
Proof. intros Hlen Hne. by apply same_below_is_dir, remove_tree_sibling. Qed.

Lemma iterdir_spec (d : disk) (top q : path) :
  q ∈ iterdir d top →
  length q = S (length top) ∧ exists_ d q = true.
Proof.
  unfold iterdir. rewrite elem_of_remove_dups, list_elem_of_fmap.
  intros (k & -> & [[Hpre Hlen] Hk]%list_elem_of_filter). split.
  - rewrite length_take. lia.
  - apply exists_spec. exists k. split; [exact Hk|]. apply prefix_take.
Qed.

Lemma NoDup_iterdir (d : disk) (top : path) : NoDup (iterdir d top).
Proof. apply NoDup_remove_dups. Qed.

Lemma iterdir_same_length (d : disk) (top : path) (pre post : list path) (x : path) :
  iterdir d top = pre ++ x :: post →
  ∀ q, q ∈ pre ++ x :: post → length q = length x.
Proof.
  intros Hsplit q Hq.
  assert (Hx : x ∈ iterdir d top) by (rewrite Hsplit, elem_of_app; right; left).
  rewrite <- Hsplit in Hq.
  apply iterdir_spec in Hx as [-> _]. by apply iterdir_spec in Hq as [-> _].
Qed.

Lemma iterdir_exists (d : disk) (top q : path) : q ∈ iterdir d top → exists_ d top = true.
Proof.
  unfold iterdir. rewrite elem_of_remove_dups, list_elem_of_fmap.
  intros (k & _ & [[Hpre _] Hk]%list_elem_of_filter).
  apply exists_spec. eauto.
Qed.

(** ** RetentionSweeper *)

Section sweeper.
Variables (e : env) (retention_seconds current_time : Z).

Abbreviation sweep := (sweep_one e retention_seconds current_time).

Lemma sweep_one_cases (d : path) (s : state) :
  sweep d s =
  if is_dir (fs s) d then
    if stat_fails e d then (Raise (OSError d), s)
    else if current_time - st_mtime e d >? retention_seconds then
      if rmtree_fails e d
      then (Raise (OSError d), with_fs (remove_part (rmtree_removed e d) d) s)
      else (Ok tt, log_add (INFO, Removed_old_backup d) (with_fs (remove_tree d) s))
    else (Ok tt, s)
  else (Ok tt, s).
Proof.
  unfold sweep_one, bind, gets, lift, stat_mtime, rmtree, logger, modify, raise, ret, log_add.
  simpl. destruct (is_dir (fs s) d) eqn:Hdir; [|reflexivity].
  destruct (stat_fails e d); [reflexivity|].
  destruct (current_time - st_mtime e d >? retention_seconds); [|reflexivity].
  unfold bind, gets. simpl. rewrite Hdir. simpl.
  destruct (rmtree_fails e d); reflexivity.
Qed.

(** The loop leaves alone every path of the depth of its entries that is
    not one of them. *)
Lemma sweep_untouched (n : nat) (ds : list path) (s : state) :
  (∀ d, d ∈ ds → length d = n) →
  untouched n ds s (for_each ds sweep s).2.
Proof.
  intros Hlen.
  apply (for_each_preserves (untouched n ds s)); [|intros q _ _; apply same_below_refl].
  intros d s1 Hd Hs1 q Hq Hnot.
  eapply same_below_trans; [exact (Hs1 q Hq Hnot)|].
  rewrite sweep_one_cases.
  assert (Hne : d ≠ q) by (intros ->; apply Hnot, list_elem_of_In, Hd).
  assert (Hdlen : length d = length q).
  { rewrite Hq. apply Hlen, list_elem_of_In, Hd. }
  destruct (is_dir (fs s1) d); [|apply same_below_refl].
  destruct (stat_fails e d); [apply same_below_refl|].
  destruct (current_time - st_mtime e d >? retention_seconds); [|apply same_below_refl].
  destruct (rmtree_fails e d); simpl.
  - by apply remove_part_sibling.
  - by apply remove_tree_sibling.
Qed.

Lemma sweep_returns (ds : list path) (s : state) :
  (∀ p, rmtree_fails e p = false) → (∀ p, stat_fails e p = false) →
  (for_each ds sweep s).1 = Ok tt.
Proof.
  intros Hrm Hstat. apply for_each_ok. intros d s1 _. rewrite sweep_one_cases.
  rewrite Hrm, Hstat. by repeat case_match.
Qed.

(** What the loop does to an entry [d] that it reaches. *)
Lemma sweep_entry (pre post : list path) (d : path) (s : state) :
  NoDup (pre ++ d :: post) →
  (∀ q, q ∈ pre ++ d :: post → length q = length d) →
  (for_each pre sweep s).1 = Ok tt →
  is_dir (fs s) d = true →
  stat_fails e d = false →
  (current_time - st_mtime e d >? retention_seconds) = true →
  rmtree_fails e d = false →
  exists_ (fs (for_each (pre ++ d :: post) sweep s).2) d = false.
Proof.
  intros Hnd Hlen Hpre Hdir Hstat Haged Hrm.
  apply NoDup_app in Hnd as (_ & Hdisj & [Hd _]%NoDup_cons).
  pose proof (sweep_untouched (length d) pre s) as Hun.
  assert (Hdir1 : is_dir (fs (for_each pre sweep s).2) d = true).
  { rewrite <- Hdir. apply same_below_is_dir, Hun; [|done|].
    - intros q Hq. apply Hlen, elem_of_app. by left.
    - intros Hin. apply (Hdisj _ Hin). left. }
  rewrite for_each_app. destruct (for_each pre sweep s) as [r s1]. simpl in *. subst r.
  unfold bind. rewrite sweep_one_cases, Hdir1, Hstat, Haged, Hrm.
  rewrite (same_below_exists d
             (fs (log_add (INFO, Removed_old_backup d) (with_fs (remove_tree d) s1)))).
  - simpl. apply exists_remove_self.
  - apply (sweep_untouched (length d) post); [|done|done].
    intros q Hq. apply Hlen, elem_of_app. right. by right.
Qed.

(** An entry that is young, or whose [stat] fails, stays. *)
Lemma sweep_skips (pre post : list path) (d : path) (s : state) :
  NoDup (pre ++ d :: post) →
  (∀ q, q ∈ pre ++ d :: post → length q = length d) →
  is_dir (fs s) d = true →
  (stat_fails e d = true
   ∨ (current_time - st_mtime e d >? retention_seconds) = false) →
  same_below d (fs s) (fs (for_each (pre ++ d :: post) sweep s).2).
Proof.
  intros Hnd Hlen Hdir Hwhy.
  apply NoDup_app in Hnd as (_ & Hdisj & [Hd _]%NoDup_cons).
  assert (Hun : same_below d (fs s) (fs (for_each pre sweep s).2)).
  { apply (sweep_untouched (length d) pre s); [|done|].
    - intros q Hq. apply Hlen, elem_of_app. by left.
    - intros Hin. apply (Hdisj _ Hin). left. }
  rewrite for_each_app. destruct (for_each pre sweep s) as [[[]|ex] s1]; simpl in *; [|done].
  unfold bind. rewrite sweep_one_cases.
  rewrite (same_below_is_dir d (fs s) (fs s1) Hun), Hdir.
  destruct (stat_fails e d); [done|].
  destruct (current_time - st_mtime e d >? retention_seconds).
  - destruct Hwhy as [? | ?]; done.
  - eapply same_below_trans; [exact Hun|].
    apply (sweep_untouched (length d) post s1); [|done|done].
    intros q Hq. apply Hlen, elem_of_app. right. by right.
Qed.

(** A raised deletion ends the loop: the directory is still there, and
    nothing after it is touched. *)
Lemma sweep_stops (pre post : list path) (d : path) (s : state) :
  NoDup (pre ++ d :: post) →
  (∀ q, q ∈ pre ++ d :: post → length q = length d) →
  is_dir (fs s) d = true →
  (current_time - st_mtime e d >? retention_seconds) = true →
  rmtree_fails e d = true →
  ∃ ex s', for_each (pre ++ d :: post) sweep s = (Raise ex, s')
           ∧ is_dir (fs s') d = true
           ∧ ∀ q, q ∈ post → same_below q (fs s) (fs s').
Proof.
  intros Hnd Hlen Hdir Haged Hrm.
  apply NoDup_app in Hnd as (_ & Hdisj & [Hd Hpost]%NoDup_cons).
  pose proof (sweep_untouched (length d) pre s) as Hun.
  assert (Hd1 : same_below d (fs s) (fs (for_each pre sweep s).2)).
  { apply Hun; [|done|].
    - intros q Hq. apply Hlen, elem_of_app. by left.
    - intros Hin. apply (Hdisj _ Hin). left. }
  assert (Hpost1 : ∀ q, q ∈ post → same_below q (fs s) (fs (for_each pre sweep s).2)).
  { intros q Hq. apply Hun.
    - intros x Hx. apply Hlen, elem_of_app. by left.
    - apply Hlen, elem_of_app. right. by right.
    - intros Hin. apply (Hdisj _ Hin). by right. }
  rewrite for_each_app. destruct (for_each pre sweep s) as [[[]|ex] s1]; simpl in *.
  - unfold bind. rewrite sweep_one_cases.
    rewrite (same_below_is_dir d (fs s) (fs s1) Hd1), Hdir, Haged, Hrm.
    destruct (stat_fails e d).
    + exists (OSError d), s1. split; [reflexivity|]. split; [|exact Hpost1].
      by rewrite (same_below_is_dir d (fs s) (fs s1) Hd1).
    + eexists _, _. split; [reflexivity|]. simpl. split.
      * apply is_dir_remove_part. by rewrite (same_below_is_dir d (fs s) (fs s1) Hd1).
      * intros q Hq. eapply same_below_trans; [by apply Hpost1|].
        apply remove_part_sibling.
        -- symmetry. apply Hlen, elem_of_app. right. by right.
        -- intros ->. done.
  - exists ex, s1. split; [reflexivity|]. split; [|exact Hpost1].
    by rewrite (same_below_is_dir d (fs s) (fs s1) Hd1).
Qed.

End sweeper.

(** [cleanup_old_backups] as its loop and its handler. *)
Lemma cleanup_run (e : env) (cfg : config) (backups : path) (now : Z) (s : state) :
  exists_ (fs s) backups = true →
  cleanup_old_backups e cfg backups now s =
  match for_each (iterdir (fs s) backups)
          (sweep_one e (retention_days cfg * 24 * 60 * 60) now) s with
  | (Ok _, s') => (Ok tt, s')
  | (Raise ex, s') => (Ok tt, log_add (ERROR, Error_cleaning_up ex) s')
  end.
Proof.
  intros Hex. unfold cleanup_old_backups, try_except, bind, gets. simpl. rewrite Hex. simpl.
  destruct (for_each _ _ s) as [[[]|ex] s']; reflexivity.
Qed.

Lemma sweep_one_report e rs now d s :
  saved_report (sweep_one e rs now d s).2 = saved_report s.
Proof.
  rewrite sweep_one_cases.
  destruct (is_dir (fs s) d); [|reflexivity].
  destruct (stat_fails e d); [reflexivity|].
  destruct (now - st_mtime e d >? rs); [|reflexivity].
  destruct (rmtree_fails e d); reflexivity.
Qed.

(** [cleanup_old_backups] never raises and leaves the report alone. *)
Lemma cleanup_returns e cfg backups now s :
  (cleanup_old_backups e cfg backups now s).1 = Ok tt
  ∧ saved_report (cleanup_old_backups e cfg backups now s).2 = saved_report s.
Proof.
  unfold cleanup_old_backups, try_except, bind, gets. simpl.
  destruct (exists_ (fs s) backups); simpl; [|done].
  pose proof (for_each_preserves (λ s', saved_report s' = saved_report s)
    (iterdir (fs s) backups) (sweep_one e (retention_days cfg * 24 * 60 * 60) now) s) as Hrep.
  simpl in Hrep.
  destruct (for_each _ _ s) as [[[]|ex] s1]; simpl in *.
  - split; [reflexivity|]. apply Hrep; [|reflexivity].
    intros x s2 _ <-. apply sweep_one_report.
  - split; [reflexivity|]. apply Hrep; [|reflexivity].
    intros x s2 _ <-. apply sweep_one_report.
Qed.

(** C5. When no [stat] or [rmtree] call fails, an immediate subdirectory
    of the backup root is gone after the sweep if and only if
    [now - mtime > retention_days * 86400]; at the threshold it is kept. *)
Theorem sweeper_threshold (e : env) (cfg : config) (backups : path) (now : Z)
    (s : state) (d : path) :
  (∀ p, rmtree_fails e p = false) →
  (∀ p, stat_fails e p = false) →
  d ∈ iterdir (fs s) backups →
  is_dir (fs s) d = true →
  exists_ (fs (cleanup_old_backups e cfg backups now s).2) d = false
  ↔ now - st_mtime e d > retention_days cfg * 86400.
Proof.
  intros Hrm Hstat Hd Hdir.
  rewrite cleanup_run by (eapply iterdir_exists; exact Hd).
  pose proof (sweep_returns e (retention_days cfg * 24 * 60 * 60) now
                (iterdir (fs s) backups) s Hrm Hstat) as Hok.
  destruct (list_elem_of_split _ _ Hd) as (pre & post & Hsplit).
  pose proof (NoDup_iterdir (fs s) backups) as Hnd. rewrite Hsplit in Hnd.
  pose proof (iterdir_same_length _ _ _ _ _ Hsplit) as Hlen.
  destruct (now - st_mtime e d >? retention_days cfg * 24 * 60 * 60) eqn:Haged.
  - pose proof (sweep_entry e (retention_days cfg * 24 * 60 * 60) now pre post d s Hnd Hlen)
      as Hgone.
    rewrite <- Hsplit in Hgone.
    destruct (for_each (iterdir (fs s) backups) _ s) as [r s']. simpl in *. subst r.
    split; [lia|]. intros _. apply Hgone; try done.
    apply sweep_returns; done.
  - pose proof (sweep_skips e (retention_days cfg * 24 * 60 * 60) now pre post d s
                  Hnd Hlen Hdir (or_intror Haged)) as Hkept.
    rewrite <- Hsplit in Hkept. apply same_below_exists in Hkept.
    destruct (for_each (iterdir (fs s) backups) _ s) as [r s']. simpl in *. subst r. simpl.
    rewrite Hkept.
    apply iterdir_spec in Hd as [_ ->]. split; [discriminate | lia].
Qed.

(** C6, amended. A failed deletion of an aged subdirectory is logged and
    is not fatal: [cleanup_old_backups] returns. It ends the sweep: the
    directory that could not be deleted is still there, without what
    [rmtree] had removed of it, and every entry that [iterdir] yields after
    it is left as it was, with all that it holds. *)
Theorem sweeper_stops_at_failed_deletion (e : env) (cfg : config) (backups : path)
    (now : Z) (s : state) (pre post : list path) (d : path) :
  iterdir (fs s) backups = pre ++ d :: post →
  is_dir (fs s) d = true →
  now - st_mtime e d > retention_days cfg * 86400 →
  rmtree_fails e d = true →
  ∃ s', cleanup_old_backups e cfg backups now s = (Ok tt, s')
        ∧ (∃ ex, In (ERROR, Error_cleaning_up ex) (log s'))
        ∧ is_dir (fs s') d = true
        ∧ ∀ q, q ∈ post →
            same_below q (fs s) (fs s')
            ∧ exists_ (fs s') q = exists_ (fs s) q
            ∧ is_dir (fs s') q = is_dir (fs s) q.
Proof.
  intros Hsplit Hdir Haged Hrm.
  assert (Hd : d ∈ iterdir (fs s) backups) by (rewrite Hsplit, elem_of_app; right; left).
  rewrite cleanup_run by (eapply iterdir_exists; exact Hd).
  pose proof (NoDup_iterdir (fs s) backups) as Hnd. rewrite Hsplit in Hnd.
  pose proof (iterdir_same_length _ _ _ _ _ Hsplit) as Hlen.
  destruct (sweep_stops e (retention_days cfg * 24 * 60 * 60) now pre post d s Hnd Hlen Hdir)
    as (ex & s' & Hrun & Hthere & Hleft); [lia | exact Hrm |].
  rewrite Hsplit, Hrun. eexists. split; [reflexivity|]. split_and!.
  - exists ex. simpl. apply in_or_app. right. by left.
  - exact Hthere.
  - intros q Hq. pose proof (Hleft q Hq) as Hsame. split_and!; [exact Hsame | |].
    + by apply same_below_exists.
    + by apply same_below_is_dir.
Qed.

(** ** TaskScheduler *)

(** With distinct browser names, [collect] appends one entry per future. *)
Lemma collect_entries (on_error : string → exn → message)
    (futures : list (result bool * string)) (acc : Py.dict bool) (s : state) :
  NoDup (Py.keys acc ++ futures.*2) →
  (collect on_error futures acc s).1 = Ok (acc ++ map entry_of futures).
Proof.
  revert acc s. induction futures as [|[f browser] futures IH]; intros acc s Hnd.
  - simpl. rewrite app_nil_r. reflexivity.
  - assert (Hfresh : browser ∉ Py.keys acc).
    { apply NoDup_app in Hnd as (_ & Hdisj & _). intros Hin. apply (Hdisj _ Hin). left. }
    assert (Hnext : ∀ r, NoDup (Py.keys (Py.set acc browser r) ++ futures.*2)).
    { intros r. rewrite set_fresh by exact Hfresh. unfold Py.keys. rewrite map_app. simpl.
      rewrite <- app_assoc. exact Hnd. }
    destruct f as [r|ex]; simpl.
    + rewrite IH by apply Hnext. rewrite set_fresh by exact Hfresh.
      rewrite <- app_assoc. reflexivity.
    + unfold bind, logger, modify. rewrite IH by apply Hnext.
      rewrite set_fresh by exact Hfresh. rewrite <- app_assoc. reflexivity.
Qed.

Lemma collect_fs (on_error : string → exn → message)
    (futures : list (result bool * string)) (acc : Py.dict bool) (s : state) :
  fs (collect on_error futures acc s).2 = fs s
  ∧ saved_report (collect on_error futures acc s).2 = saved_report s.
Proof.
  revert acc s. induction futures as [|[[r|ex] browser] futures IH]; intros acc s; simpl.
  - done.
  - apply IH.
  - unfold bind, logger, modify. destruct (IH (Py.set acc browser false)
      {| fs := fs s; log := log s ++ [(ERROR, on_error browser ex)];
         success := success s; saved_report := saved_report s |}) as [-> ->]. done.
Qed.

(** [submit_all] never raises and yields one future per task. *)
Lemma submit_all_futures task (tasks : list (string * list path)) (s : state) :
  ∃ futures, (submit_all task tasks s).1 = Ok futures
             ∧ Forall2 (dispatched task) futures tasks.
Proof.
  revert s. induction tasks as [|[browser paths] tasks IH]; intros s; simpl.
  - exists []. split; [reflexivity | constructor].
  - unfold bind, future. simpl.
    destruct (IH (task browser paths s).2) as (futures & Hsub & Hall).
    destruct (submit_all task tasks (task browser paths s).2) as [r s'] eqn:E.
    simpl in Hsub. subst r. exists (((task browser paths s).1, browser) :: futures).
    split; [reflexivity|]. constructor; [|exact Hall].
    split; [reflexivity|]. exists s. reflexivity.
Qed.

Lemma Forall2_dispatched_keys task futures (tasks : list (string * list path)) :
  Forall2 (dispatched task) futures tasks → futures.*2 = Py.keys tasks.
Proof.
  induction 1 as [|f t futures tasks [Hk _] _ IH]; [reflexivity|].
  unfold Py.keys in *. rewrite !fmap_cons. rewrite Hk, IH. reflexivity.
Qed.

(** [_validate_paths] builds a dictionary: its keys are distinct. *)
Lemma validate_paths_NoDup cfg src paths : NoDup (Py.keys (_validate_paths cfg src paths)).
Proof.
  unfold _validate_paths.
  assert (Hgen : ∀ acc : Py.dict (list path), NoDup (Py.keys acc) →
    NoDup (Py.keys (fold_left
      (λ validated_paths kv,
         if negb (Py.get_default (browsers cfg) kv.1 true) then validated_paths
         else Py.set validated_paths kv.1
                (List.filter (λ p, exists_ src p && negb (has_excluded cfg (path_str p))) kv.2))
      paths acc))).
  { induction paths as [|[browser ps] paths IH]; intros acc Hacc; simpl; [exact Hacc|].
    apply IH. destruct (negb _); [exact Hacc|].
    rewrite keys_set. case_bool_decide as Hin; [exact Hacc|].
    apply NoDup_app. split_and!; [exact Hacc | | apply NoDup_singleton].
    intros x Hx Hx'. apply list_elem_of_singleton in Hx'. congruence. }
  apply Hgen. constructor.
Qed.

(** The paths that [_validate_paths] keeps exist and contain no excluded
    substring. *)
Lemma validate_paths_excluded (cfg : config) (src : disk) (paths : Py.dict (list path))
    (browser : string) (ps : list path) (p : path) :
  In (browser, ps) (_validate_paths cfg src paths) → In p ps →
  exists_ src p = true ∧ has_excluded cfg (path_str p) = false.
Proof.
  unfold _validate_paths.
  assert (Hgen : ∀ acc : Py.dict (list path),
    (∀ b qs q, In (b, qs) acc → In q qs →
       exists_ src q = true ∧ has_excluded cfg (path_str q) = false) →
    ∀ b qs q,
    In (b, qs) (fold_left
      (λ validated_paths kv,
         if negb (Py.get_default (browsers cfg) kv.1 true) then validated_paths
         else Py.set validated_paths kv.1
                (List.filter (λ p, exists_ src p && negb (has_excluded cfg (path_str p))) kv.2))
      paths acc) → In q qs →
    exists_ src q = true ∧ has_excluded cfg (path_str q) = false).
  { induction paths as [|[b0 ps0] paths IH]; intros acc Hacc; simpl; [exact Hacc|].
    apply IH. destruct (negb _); [exact Hacc|].
    clear IH. intros b1 qs1 q1 Hin Hq1. simpl in Hin.
    induction acc as [|[k v] acc IHacc]; simpl in Hin.
    - destruct Hin as [Heq|[]]. inversion Heq; subst.
      apply filter_In in Hq1 as [_ Hq1]. apply andb_prop in Hq1 as [? ?%negb_true_iff]. done.
    - destruct (String.eqb k b0).
      + destruct Hin as [Heq|Hin].
        * inversion Heq; subst.
          apply filter_In in Hq1 as [_ Hq1]. apply andb_prop in Hq1 as [? ?%negb_true_iff]. done.
        * apply (Hacc b1 qs1 q1); [right; exact Hin | exact Hq1].
      + destruct Hin as [Heq|Hin].
        * apply (Hacc b1 qs1 q1); [left; exact Heq | exact Hq1].
        * apply IHacc; [|exact Hin].
          intros b2 qs2 q2 Hin2. apply (Hacc b2 qs2 q2). right. exact Hin2. }
  apply (Hgen []). intros b qs q [].
Qed.

(** The disk after the sweep depends on the disk before it only. *)
Lemma sweep_fs_ext (e : env) (rs now : Z) (ds : list path) (s s' : state) :
  fs s = fs s' →
  (for_each ds (sweep_one e rs now) s).1 = (for_each ds (sweep_one e rs now) s').1
  ∧ fs (for_each ds (sweep_one e rs now) s).2 = fs (for_each ds (sweep_one e rs now) s').2.
Proof.
  revert s s'. induction ds as [|d ds IH]; intros s s' Hfs; simpl; [done|].
  unfold bind. rewrite !sweep_one_cases, <- Hfs.
  destruct (is_dir (fs s) d); [|by apply IH].
  destruct (stat_fails e d); [done|].
  destruct (now - st_mtime e d >? rs); [|by apply IH].
  destruct (rmtree_fails e d); simpl.
  - by rewrite Hfs.
  - apply IH. simpl. by rewrite Hfs.
Qed.

Lemma cleanup_fs_ext (e : env) (cfg : config) (backups : path) (now : Z) (s s' : state) :
  fs s = fs s' →
  fs (cleanup_old_backups e cfg backups now s).2
  = fs (cleanup_old_backups e cfg backups now s').2.
Proof.
  intros Hfs. unfold cleanup_old_backups, try_except, bind, gets. simpl. rewrite <- Hfs.
  destruct (exists_ (fs s) backups); simpl; [|done].
  destruct (sweep_fs_ext e (retention_days cfg * 24 * 60 * 60) now (iterdir (fs s) backups)
              s s' Hfs) as [H1 H2].
  destruct (for_each _ _ s) as [[[]|ex] s1], (for_each _ _ s') as [[[]|ex'] s1'];
    simpl in *; done.
Qed.

Lemma collect_result (on_error : string → exn → message)
    (futures : list (result bool * string)) (acc : Py.dict bool) (s : state) :
  ∃ results, (collect on_error futures acc s).1 = Ok results.
Proof.
  revert acc s. induction futures as [|[[r|ex] browser] futures IH]; intros acc s; simpl.
  - by eexists.
  - apply IH.
  - unfold bind, logger, modify. apply IH.
Qed.

(** [_save_backup_report]: the report is written when [open] does not fail
    and finds the directory of the run. *)
Lemma save_backup_report_run (e : env) (backup_root : path) (results : Py.dict bool)
    (s : state) :
  _save_backup_report e backup_root results s
  = if open_fails e (backup_root ++ ["backup_report.json"])
       || negb (can_create (fs s) (backup_root ++ ["backup_report.json"]))
    then (Raise (OSError (backup_root ++ ["backup_report.json"])), s)
    else (Ok tt, with_report (json_dump e backup_root results)
                   {| backup_location := backup_root; results := results |} s).
Proof.
  unfold _save_backup_report, bind, gets. simpl.
  by destruct (open_fails e _ || negb (can_create (fs s) _)).
Qed.

(** [run] when there are no browser paths. *)
Lemma run_with_nothing task e cfg src backups backup_root now paths s :
  _validate_paths cfg src paths = [] →
  run_with task e cfg src backups backup_root now paths s
  = (Ok None, log_add (WARNING, No_profiles_found) (log_add (INFO, Starting_backup) s)).
Proof. intros Hnone. unfold run_with. rewrite Hnone. reflexivity. Qed.

(** [run] when the pool cannot be made. *)
Lemma run_with_no_workers task e cfg src backups backup_root now paths s :
  _validate_paths cfg src paths ≠ [] → max_workers cfg ≤ 0 →
  run_with task e cfg src backups backup_root now paths s
  = (Ok (Some false),
     log_add (ERROR, Backup_process_failed ValueError) (log_add (INFO, Starting_backup) s)).
Proof.
  intros Hne Hw. unfold run_with.
  destruct (_validate_paths cfg src paths) as [|t tasks]; [done|].
  unfold bind, try_except, logger, modify. simpl.
  assert (Ew : (max_workers cfg <=? 0) = true) by lia. rewrite Ew. reflexivity.
Qed.

(** [run] when tasks are dispatched: the futures, the results, the sweep
    and the report. *)
Lemma run_with_steps task e cfg src backups backup_root now paths s :
  _validate_paths cfg src paths ≠ [] → 0 < max_workers cfg →
  ∃ futures s1 s2 s3,
    submit_all task (_validate_paths cfg src paths) (log_add (INFO, Starting_backup) s)
    = (Ok futures, s1)
    ∧ Forall2 (dispatched task) futures (_validate_paths cfg src paths)
    ∧ collect Error_backing_up futures [] s1 = (Ok (map entry_of futures), s2)
    ∧ fs s2 = fs s1 ∧ saved_report s2 = saved_report s1
    ∧ cleanup_old_backups e cfg backups now s2 = (Ok tt, s3)
    ∧ fs s3 = disk_before_report task e cfg src backups now paths s
    ∧ run_with task e cfg src backups backup_root now paths s
      = if open_fails e (backup_root ++ ["backup_report.json"])
           || negb (can_create (fs s3) (backup_root ++ ["backup_report.json"]))
        then (Ok (Some false),
              log_add (ERROR, Backup_process_failed
                                (OSError (backup_root ++ ["backup_report.json"]))) s3)
        else (Ok (Some true),
              with_report (json_dump e backup_root (map entry_of futures))
                {| backup_location := backup_root;
                   results := map entry_of futures |} s3).
Proof.
  intros Hne Hw.
  pose proof (validate_paths_NoDup cfg src paths) as Hnd.
  unfold run_with, disk_before_report.
  destruct (_validate_paths cfg src paths) as [|t tasks] eqn:Etasks; [done|].
  set (s0 := log_add (INFO, Starting_backup) s).
  destruct (submit_all_futures task (t :: tasks) s0) as (futures & Hsub & Hall).
  set (s1 := (submit_all task (t :: tasks) s0).2).
  pose proof (collect_entries Error_backing_up futures [] s1) as Hcol.
  rewrite (Forall2_dispatched_keys _ _ _ Hall) in Hcol. specialize (Hcol Hnd).
  destruct (collect_fs Error_backing_up futures [] s1) as [Hfs Hrep].
  set (s2 := (collect Error_backing_up futures [] s1).2) in *.
  destruct (cleanup_returns e cfg backups now s2) as [Hc1 Hc2].
  set (s3 := (cleanup_old_backups e cfg backups now s2).2) in *.
  exists futures, s1, s2, s3. split_and!; try done.
  - rewrite (run_pair (submit_all _ _)), Hsub. reflexivity.
  - rewrite (run_pair (collect _ _ _)), Hcol. reflexivity.
  - rewrite (run_pair (cleanup_old_backups _ _ _ _)), Hc1. reflexivity.
  - by apply cleanup_fs_ext.
  - rewrite (bind_ok _ _ s tt s0) by reflexivity.
    assert (Ew : (max_workers cfg <=? 0) = false) by lia.
    pose proof (save_backup_report_run e backup_root (map entry_of futures) s3) as Hsave.
    destruct (open_fails e (backup_root ++ ["backup_report.json"])
              || negb (can_create (fs s3) (backup_root ++ ["backup_report.json"]))).
    + rewrite (try_except_raise _ _ s0 (OSError (backup_root ++ ["backup_report.json"])) s3);
        [reflexivity|].
      cbv beta iota zeta. rewrite Ew.
      rewrite (bind_ok _ _ s0 tt s0) by reflexivity.
      rewrite (bind_ok _ _ s0 futures s1)
        by (rewrite (run_pair (submit_all _ _)), Hsub; reflexivity).
      rewrite (bind_ok _ _ s1 (map entry_of futures) s2)
        by (rewrite (run_pair (collect _ _ _)), Hcol; reflexivity).
      rewrite (bind_ok _ _ s2 tt s3)
        by (rewrite (run_pair (cleanup_old_backups _ _ _ _)), Hc1; reflexivity).
      apply bind_raise. exact Hsave.
    + apply try_except_ok. cbv beta iota zeta. rewrite Ew.
      rewrite (bind_ok _ _ s0 tt s0) by reflexivity.
      rewrite (bind_ok _ _ s0 futures s1)
        by (rewrite (run_pair (submit_all _ _)), Hsub; reflexivity).
      rewrite (bind_ok _ _ s1 (map entry_of futures) s2)
        by (rewrite (run_pair (collect _ _ _)), Hcol; reflexivity).
      rewrite (bind_ok _ _ s2 tt s3)
        by (rewrite (run_pair (cleanup_old_backups _ _ _ _)), Hc1; reflexivity).
      rewrite (bind_ok _ _ s3 tt _ Hsave). reflexivity.
Qed.

(** C4. Completeness of the report: when there is a task to dispatch, the
    pool can be made and the report can be written ([open] does not fail,
    and the directory of the run is there when the tasks and the sweep are
    done), [run] returns [True] and the saved report holds exactly one
    entry per dispatched task, in the order of submission and under the
    task's own browser name: the value the task returned, or [False] when
    it raised. This holds for any worker function; an entry depends on the
    outcome of its own task only. *)
Theorem run_report_complete (task : string → list path → M state bool)
    (e : env) (cfg : config) (src : disk) (backups backup_root : path)
    (current_time : Z) (paths : Py.dict (list path)) (s : state) :
  _validate_paths cfg src paths ≠ [] →
  0 < max_workers cfg →
  open_fails e (backup_root ++ ["backup_report.json"]) = false →
  can_create (disk_before_report task e cfg src backups current_time paths s)
    (backup_root ++ ["backup_report.json"]) = true →
  ∃ futures s',
    run_with task e cfg src backups backup_root current_time paths s = (Ok (Some true), s')
    ∧ Forall2 (dispatched task) futures (_validate_paths cfg src paths)
    ∧ saved_report s' =
        Some {| backup_location := backup_root; results := map entry_of futures |}
    ∧ files (fs s') !! (backup_root ++ ["backup_report.json"])
      = Some (json_dump e backup_root (map entry_of futures)).
Proof.
  intros Hne Hw Hopen Hdir.
  destruct (run_with_steps task e cfg src backups backup_root current_time paths s Hne Hw)
    as (futures & s1 & s2 & s3 & _ & Hall & _ & _ & _ & _ & Hfs3 & Hrun).
  rewrite Hfs3, Hopen, Hdir in Hrun. simpl in Hrun.
  exists futures. eexists. split; [exact Hrun|]. split; [exact Hall|]. split; [reflexivity|].
  simpl. apply lookup_insert_eq.
Qed.

(** ** The disk: what is in the way *)

Lemma file_above_spec (d : disk) (p : path) :
  file_above d p = true ↔ ∃ q, is_Some (files d !! q) ∧ q `prefix_of` p.
Proof.
  unfold file_above. rewrite existsb_exists. split.
  - intros (q & Hq & Hpre). exists q. split.
    + by apply elem_of_file_paths, list_elem_of_In.
    + by apply bool_decide_eq_true in Hpre.
  - intros (q & Hq & Hpre). exists q. split.
    + by apply list_elem_of_In, elem_of_file_paths.
    + by apply bool_decide_eq_true.
Qed.

Lemma file_above_false (d : disk) (p : path) :
  file_above d p = false ↔ ∀ q, is_Some (files d !! q) → ¬ q `prefix_of` p.
Proof.
  rewrite <- not_true_iff_false, file_above_spec. split.
  - intros H q Hq Hpre. apply H. eauto.
  - intros H (q & Hq & Hpre). by apply (H q).
Qed.

(** A path is no directory when it is a file or when nothing is at it
    or below it. *)
Lemma is_dir_false (d : disk) (p : path) :
  is_dir d p = false ↔
  is_Some (files d !! p) ∨ ∀ q, q ∈ all_paths d → ¬ p `prefix_of` q.
Proof.
  unfold is_dir, is_file. rewrite andb_false_iff, negb_false_iff, bool_decide_eq_true.
  rewrite <- not_true_iff_false, exists_spec. split.
  - intros [?|H]; [by left | right]. intros q Hq Hpre. apply H. eauto.
  - intros [?|H]; [by left | right]. intros (q & Hq & Hpre). by apply (H q).
Qed.

Lemma fresh_spec (d : disk) (top : path) :
  fresh d top = true ↔
  (∀ p, is_Some (files d !! p) → ¬ p `prefix_of` top)
  ∧ (∀ q, q ∈ all_paths d → ¬ below top q).
Proof.
  unfold fresh. rewrite andb_true_iff, negb_true_iff, file_above_false, forallb_forall.
  split; intros [H1 H2]; (split; [exact H1|]).
  - intros q Hq. apply list_elem_of_In, H2, negb_true_iff, bool_decide_eq_false in Hq. done.
  - intros q Hq. apply negb_true_iff, bool_decide_eq_false, H2, list_elem_of_In, Hq.
Qed.

Lemma tree_like_spec (d : disk) (p q : path) :
  tree_like d = true →
  is_Some (files d !! p) → is_Some (files d !! q) → p `prefix_of` q → p = q.
Proof.
  unfold tree_like. rewrite forallb_forall. intros H Hp Hq.
  apply elem_of_file_paths, list_elem_of_In, H in Hp.
  rewrite forallb_forall in Hp.
  apply elem_of_file_paths, list_elem_of_In, Hp in Hq.
  by apply bool_decide_eq_true in Hq.
Qed.

Lemma distinct_names_spec (source_paths : list path) (a b : path) :
  distinct_names source_paths = true →
  In a source_paths → In b source_paths → name a = name b → a = b.
Proof.
  unfold distinct_names. rewrite forallb_forall. intros H Ha Hb.
  apply H in Ha. rewrite forallb_forall in Ha. apply Ha in Hb.
  by apply bool_decide_eq_true in Hb.
Qed.

(** Making a directory changes no answer about a path that is not above it. *)
Lemma exists_make_dir (d : disk) (p : path) : exists_ (make_dir p d) p = true.
Proof.
  apply exists_spec. exists p. split; [|done].
  apply elem_of_all_paths. right. simpl. set_solver.
Qed.

Lemma is_dir_make_dir (d : disk) (p q : path) :
  ¬ q `prefix_of` p → is_dir (make_dir p d) q = is_dir d q.
Proof.
  intros Hq. unfold is_dir. f_equal. apply Bool.eq_iff_eq_true. rewrite !exists_spec.
  split; intros (k & Hk & Hpre); exists k; (split; [|done]).
  - apply elem_of_all_paths in Hk as [Hk|Hk]; apply elem_of_all_paths; [by left|].
    simpl in Hk. apply elem_of_union in Hk as [->%elem_of_singleton|Hk]; [done | by right].
  - apply elem_of_all_paths in Hk as [Hk|Hk]; apply elem_of_all_paths; [by left|].
    right. simpl. set_solver.
Qed.

(** ** CopyEngine: one file *)

#[global] Instance grows_preorder : PreOrder grows.
Proof.
  split.
  - intros s. split; auto.
  - intros s1 s2 s3 [] []. split; auto. congruence.
Qed.

Lemma grows_log_add (r : log_record) (s : state) : grows s (log_add r s).
Proof. split; simpl; auto. intros r' Hr. apply in_or_app. by left. Qed.

Lemma grows_make_dir (p : path) (s : state) : grows s (with_fs (make_dir p) s).
Proof. split; simpl; auto. intros q Hq. apply elem_of_union. by right. Qed.

Lemma mkdir_run e p s :
  mkdir e p s = if mkdir_fails e p || file_above (fs s) p then (Raise (OSError p), s)
                else (Ok tt, with_fs (make_dir p) s).
Proof.
  unfold mkdir, bind, gets. simpl.
  destruct (mkdir_fails e p || file_above (fs s) p); reflexivity.
Qed.

Lemma copy2_run e src a b s :
  copy2 e src a b s =
  match files src !! a with
  | None => (Raise (OSError a), s)
  | Some c =>
      let t := copy2_target (fs s) a b in
      if can_create (fs s) t then
        match copy2_outcome e a b with
        | Copy_ok => (Ok tt, with_fs (write_file t c) s)
        | Copy_corrupt c' => (Ok tt, with_fs (write_file t c') s)
        | Copy_raises None => (Raise (OSError t), s)
        | Copy_raises (Some c') => (Raise (OSError t), with_fs (write_file t c') s)
        end
      else (Raise (OSError t), s)
  end.
Proof.
  unfold copy2. destruct (files src !! a); [|reflexivity].
  unfold bind, gets. simpl.
  destruct (can_create (fs s) (copy2_target (fs s) a b)); [|reflexivity]. simpl.
  destruct (copy2_outcome e a b) as [| |[|]]; reflexivity.
Qed.

(** Once its directory is made, a copy onto a path that is no directory
    writes at that path. *)
Lemma copy2_onto_file (d : disk) (a dest_dir : path) (file : string) :
  file_above d dest_dir = false →
  is_dir d (dest_dir ++ [file]) = false →
  copy2_target (make_dir dest_dir d) a (dest_dir ++ [file]) = dest_dir ++ [file]
  ∧ can_create (make_dir dest_dir d) (dest_dir ++ [file]) = true.
Proof.
  intros Habove Hdir.
  assert (Hdir1 : is_dir (make_dir dest_dir d) (dest_dir ++ [file]) = false).
  { rewrite is_dir_make_dir; [exact Hdir | apply prefix_snoc_not]. }
  unfold copy2_target, can_create. rewrite Hdir1, parent_snoc, exists_make_dir. simpl.
  split; [reflexivity|]. unfold make_dir, file_above, file_paths in *. simpl. by rewrite Habove.
Qed.

Lemma verify_copy_run e cfg src a b s :
  verify_copy e cfg src a b s =
  if negb (verify_copies cfg) then (Ok true, s)
  else match read_file e src a with
       | Raise ex => (Ok false, log_add (ERROR, Verification_failed ex) s)
       | Ok sf =>
           match read_file e (fs s) b with
           | Raise ex => (Ok false, log_add (ERROR, Verification_failed ex) s)
           | Ok df => (Ok (String.eqb (sha256 e sf) (sha256 e df)), s)
           end
       end.
Proof.
  unfold verify_copy. destruct (negb (verify_copies cfg)); [reflexivity|].
  unfold try_except, bind, lift, gets, logger, modify, ret, log_add.
  destruct (read_file e src a); [|reflexivity].
  destruct (read_file e (fs s) b); reflexivity.
Qed.

Lemma verify_copy_after e cfg src a b s c arrived :
  files src !! a = Some c →
  files (fs s) !! b = Some arrived →
  ∃ s', verify_copy e cfg src a b s = (Ok (verifies e cfg src a b arrived), s')
    ∧ fs s' = fs s ∧ success s' = success s ∧ saved_report s' = saved_report s
    ∧ (∀ r, In r (log s) → In r (log s'))
    ∧ (open_fails e a = false → open_fails e b = false → log s' = log s).
Proof.
  intros Ha Hb. rewrite verify_copy_run. unfold verifies, read_file. rewrite Ha, Hb.
  destruct (verify_copies cfg); simpl.
  2:{ eexists. split; [reflexivity|]. done. }
  destruct (open_fails e a); simpl.
  { eexists. split; [reflexivity|]. simpl. split_and!; try done.
    intros r Hr. apply in_or_app. by left. }
  destruct (open_fails e b); simpl.
  { eexists. split; [reflexivity|]. simpl. split_and!; try done.
    intros r Hr. apply in_or_app. by left. }
  eexists. split; [reflexivity|]. done.
Qed.

(** Whatever is at the destination, [verify_copy] returns, and it answers
    [True] only when it is switched off or the hashes agree. *)
Lemma verify_copy_any e cfg src a b s :
  ∃ v s', verify_copy e cfg src a b s = (Ok v, s')
    ∧ fs s' = fs s ∧ success s' = success s ∧ saved_report s' = saved_report s
    ∧ (∀ r, In r (log s) → In r (log s'))
    ∧ (v = true →
       verify_copies cfg = false
       ∨ ∃ arrived, files (fs s) !! b = Some arrived
                    ∧ verifies e cfg src a b arrived = true).
Proof.
  rewrite verify_copy_run. unfold verifies.
  destruct (verify_copies cfg) eqn:Hv; simpl.
  2:{ eexists _, _. split; [reflexivity|]. split_and!; auto. }
  unfold read_file.
  destruct (open_fails e a); simpl.
  { eexists _, _. split; [reflexivity|]. simpl. split_and!; try done.
    intros r Hr. apply in_or_app. by left. }
  destruct (files src !! a) as [c|]; simpl.
  2:{ eexists _, _. split; [reflexivity|]. simpl. split_and!; try done.
      intros r Hr. apply in_or_app. by left. }
  destruct (open_fails e b); simpl.
  { eexists _, _. split; [reflexivity|]. simpl. split_and!; try done.
    intros r Hr. apply in_or_app. by left. }
  destruct (files (fs s) !! b) as [df|]; simpl.
  2:{ eexists _, _. split; [reflexivity|]. simpl. split_and!; try done.
      intros r Hr. apply in_or_app. by left. }
  eexists _, _. split; [reflexivity|]. split_and!; try done.
  intros Heq. right. exists df. done.
Qed.

Lemma set_success_if (v : bool) (s : state) :
  (if v then set_success true else ret tt) s =
  (Ok tt, {| fs := fs s; log := log s; success := success s || v;
             saved_report := saved_report s |}).
Proof.
  destruct v; unfold set_success, modify, ret; simpl.
  - rewrite orb_true_r. reflexivity.
  - rewrite orb_false_r. destruct s; reflexivity.
Qed.

(** The end of the [try] block, once [arrived] is at the destination. *)
Lemma verify_and_flag e cfg src root dest_dir file s c arrived :
  files src !! (root ++ [file]) = Some c →
  files (fs s) !! (dest_dir ++ [file]) = Some arrived →
  ∃ s',
    try_except
      (let* verified := verify_copy e cfg src (root ++ [file]) (dest_dir ++ [file]) in
       if verified then set_success true else ret tt)
      (λ ex, logger ERROR (Error_copying file ex)) s = (Ok tt, s')
    ∧ fs s' = fs s
    ∧ saved_report s' = saved_report s
    ∧ success s' = success s || verifies e cfg src (root ++ [file]) (dest_dir ++ [file]) arrived
    ∧ (∀ r, In r (log s) → In r (log s'))
    ∧ (open_fails e (root ++ [file]) = false → open_fails e (dest_dir ++ [file]) = false →
       log s' = log s).
Proof.
  intros Hsrc Hdst.
  destruct (verify_copy_after e cfg src _ _ s c arrived Hsrc Hdst)
    as (s1 & Hrun & Hfs & Hsucc & Hrep & Hlog & Hquiet).
  eexists. split.
  { apply try_except_ok. rewrite (bind_ok _ _ _ _ _ Hrun). apply set_success_if. }
  simpl. rewrite Hsucc. done.
Qed.

(** The end of the [try] block, whatever is at the destination. *)
Lemma verify_and_flag_any e cfg src a b file s :
  ∃ s',
    try_except
      (let* verified := verify_copy e cfg src a b in
       if verified then set_success true else ret tt)
      (λ ex, logger ERROR (Error_copying file ex)) s = (Ok tt, s')
    ∧ fs s' = fs s
    ∧ saved_report s' = saved_report s
    ∧ (∀ r, In r (log s) → In r (log s'))
    ∧ (success s = true → success s' = true)
    ∧ (success s' = true →
       success s = true ∨ verify_copies cfg = false
       ∨ ∃ arrived, files (fs s) !! b = Some arrived
                    ∧ verifies e cfg src a b arrived = true).
Proof.
  destruct (verify_copy_any e cfg src a b s)
    as (v & s1 & Hrun & Hfs & Hsucc & Hrep & Hlog & Hv).
  eexists. split.
  { apply try_except_ok. rewrite (bind_ok _ _ _ _ _ Hrun). apply set_success_if. }
  simpl. rewrite Hsucc, Hfs. split_and!; try done.
  - by intros ->.
  - intros [?| ->]%orb_prop; [by left|]. right. by apply Hv.
Qed.

(** One file, whatever is on the disk: the handler always returns; it
    takes nothing away, it writes at most the destination of this file or,
    when that is a directory, the path of the same name in it, and it sets
    the flag only when [mkdir] and [copy2] returned and [verify_copy]
    answered [True]. *)
Lemma backup_file_any e cfg src root dest_dir file s :
  ∃ s', backup_file e cfg src root dest_dir file s = (Ok tt, s')
    ∧ grows s s'
    ∧ (success s' = true →
       success s = true ∨ copied_ok e cfg src root dest_dir file = true)
    ∧ (∀ p, files (fs s') !! p ≠ files (fs s) !! p →
         (p = dest_dir ++ [file] ∨ p = (dest_dir ++ [file]) ++ [file])
         ∧ ((∀ a b, copy2_outcome e a b = Copy_ok) →
            files (fs s') !! p = files src !! (root ++ [file])))
    ∧ (∀ q, q ∈ dirs (fs s') → q ∈ dirs (fs s) ∨ q = dest_dir).
Proof.
  unfold backup_file, copied_ok, arrives.
  pose proof (mkdir_run e dest_dir s) as Hmk.
  destruct (mkdir_fails e dest_dir) eqn:Emk; simpl in Hmk.
  { rewrite (try_except_bind_raise _ _ _ _ _ _ Hmk).
    eexists; split; [reflexivity|]. simpl.
    split_and!; [apply grows_log_add | by left | by intros p Hp | by left]. }
  destruct (file_above (fs s) dest_dir) eqn:Eabove.
  { rewrite (try_except_bind_raise _ _ _ _ _ _ Hmk).
    eexists; split; [reflexivity|]. simpl.
    split_and!; [apply grows_log_add | by left | by intros p Hp | by left]. }
  set (s1 := with_fs (make_dir dest_dir) s) in *.
  assert (Hg1 : grows s s1) by apply grows_make_dir.
  assert (Hd1 : ∀ q, q ∈ dirs (fs s1) → q ∈ dirs (fs s) ∨ q = dest_dir).
  { simpl. intros q [->%elem_of_singleton|Hq]%elem_of_union; auto. }
  pose proof (copy2_run e src (root ++ [file]) (dest_dir ++ [file]) s1) as Hcp.
  destruct (files src !! (root ++ [file])) as [c|] eqn:Esrc.
  2:{ rewrite (try_except_bind _ _ _ _ _ _ Hmk), (try_except_bind_raise _ _ _ _ _ _ Hcp).
      eexists. split; [reflexivity|].
      split_and!; [etrans; [exact Hg1 | apply grows_log_add] | by left | by intros p Hp
                  | exact Hd1]. }
  cbv zeta in Hcp.
  assert (Htarget : (copy2_target (fs s1) (root ++ [file]) (dest_dir ++ [file])
                     = dest_dir ++ [file]
                     ∧ is_dir (fs s1) (dest_dir ++ [file]) = false)
                    ∨ (copy2_target (fs s1) (root ++ [file]) (dest_dir ++ [file])
                       = (dest_dir ++ [file]) ++ [file]
                       ∧ files (fs s1) !! (dest_dir ++ [file]) = None)).
  { unfold copy2_target. destruct (is_dir (fs s1) (dest_dir ++ [file])) eqn:Edir; [|by left].
    right. rewrite name_snoc. split; [reflexivity|].
    unfold is_dir, is_file in Edir. apply andb_prop in Edir as [Hf _].
    apply negb_true_iff, bool_decide_eq_false in Hf.
    destruct (files (fs s1) !! (dest_dir ++ [file])); [exfalso; eauto | reflexivity]. }
  set (t := copy2_target (fs s1) (root ++ [file]) (dest_dir ++ [file])) in *.
  assert (Ht : t = dest_dir ++ [file] ∨ t = (dest_dir ++ [file]) ++ [file])
    by (destruct Htarget as [[? _]|[? _]]; auto).
  assert (Hwritten : ∀ w, grows s (with_fs (write_file t w) s1)).
  { intros w. etrans; [exact Hg1|]. split; simpl; auto.
    intros p Hp. rewrite lookup_insert_is_Some. destruct (decide (t = p)); auto. }
  assert (Hflag : ∀ w,
            ∃ s', try_except
                    (let* verified := verify_copy e cfg src (root ++ [file])
                                        (dest_dir ++ [file]) in
                     if verified then set_success true else ret tt)
                    (λ ex, logger ERROR (Error_copying file ex))
                    (with_fs (write_file t w) s1) = (Ok tt, s')
              ∧ grows s s'
              ∧ (success s' = true →
                 success s = true
                 ∨ verifies e cfg src (root ++ [file]) (dest_dir ++ [file]) w = true)
              ∧ fs s' = fs (with_fs (write_file t w) s1)).
  { intros w.
    destruct (verify_and_flag_any e cfg src (root ++ [file]) (dest_dir ++ [file]) file
                (with_fs (write_file t w) s1))
      as (s' & Hrun & Hfs & Hrep & Hlog & Hkeep & Hset).
    exists s'. split; [exact Hrun|]. split_and!; [| |exact Hfs].
    - etrans; [apply (Hwritten w)|]. split; auto; intros x; by rewrite Hfs.
    - intros Hs. destruct (Hset Hs) as [?|[Hoff|(arrived & Harr & Hver)]]; [by left | |].
      + right. unfold verifies. by rewrite Hoff.
      + right. simpl in Harr.
        destruct Htarget as [[Et _]|[Et Hnone]].
        * rewrite Et, lookup_insert_eq in Harr. by injection Harr as <-.
        * rewrite lookup_insert_ne in Harr.
          -- simpl in Hnone. rewrite Hnone in Harr. discriminate.
          -- rewrite Et. intros Heq. apply (f_equal length) in Heq.
             rewrite !length_app in Heq. simpl in Heq. lia. }
  destruct (can_create (fs s1) t) eqn:Ecan.
  2:{ rewrite (try_except_bind _ _ _ _ _ _ Hmk), (try_except_bind_raise _ _ _ _ _ _ Hcp).
      eexists. split; [reflexivity|].
      split_and!; [etrans; [exact Hg1 | apply grows_log_add] | by left | by intros p Hp
                  | exact Hd1]. }
  destruct (copy2_outcome e (root ++ [file]) (dest_dir ++ [file])) as [|c'|[c'|]] eqn:Ecp.
  - (* [copy2] returns with the bytes of the source *)
    rewrite (try_except_bind _ _ _ _ _ _ Hmk), (try_except_bind _ _ _ _ _ _ Hcp).
    destruct (Hflag c) as (s' & -> & Hg & Hs & Hfs).
    exists s'. split; [reflexivity|]. split_and!; [exact Hg | | |].
    + intros H. destruct (Hs H) as [?|Hok]; [by left|]. right. by rewrite Hok.
    + intros p Hp. rewrite Hfs in *. simpl in *.
      destruct (decide (t = p)) as [<-|Hne]; [|by rewrite lookup_insert_ne in Hp].
      split; [exact Ht|]. intros _. by rewrite lookup_insert_eq.
    + intros q. rewrite Hfs. exact (Hd1 q).
  - (* [copy2] returns with other bytes *)
    rewrite (try_except_bind _ _ _ _ _ _ Hmk), (try_except_bind _ _ _ _ _ _ Hcp).
    destruct (Hflag c') as (s' & -> & Hg & Hs & Hfs).
    exists s'. split; [reflexivity|]. split_and!; [exact Hg | | |].
    + intros H. destruct (Hs H) as [?|Hok]; [by left|]. right. by rewrite Hok.
    + intros p Hp. rewrite Hfs in *. simpl in *.
      destruct (decide (t = p)) as [<-|Hne]; [|by rewrite lookup_insert_ne in Hp].
      split; [exact Ht|]. intros Hall. by rewrite Hall in Ecp.
    + intros q. rewrite Hfs. exact (Hd1 q).
  - (* [copy2] raises after writing *)
    rewrite (try_except_bind _ _ _ _ _ _ Hmk), (try_except_bind_raise _ _ _ _ _ _ Hcp).
    eexists. split; [reflexivity|]. split_and!.
    + etrans; [apply (Hwritten c') | apply grows_log_add].
    + by left.
    + intros p Hp. simpl in *.
      destruct (decide (t = p)) as [<-|Hne]; [|by rewrite lookup_insert_ne in Hp].
      split; [exact Ht|]. intros Hall. by rewrite Hall in Ecp.
    + exact Hd1.
  - (* [copy2] raises *)
    rewrite (try_except_bind _ _ _ _ _ _ Hmk), (try_except_bind_raise _ _ _ _ _ _ Hcp).
    eexists. split; [reflexivity|].
    split_and!; [etrans; [exact Hg1 | apply grows_log_add] | by left | by intros p Hp
                | exact Hd1].
Qed.

(** One file, with nothing in the way: the handler always returns; it
    writes at most the destination of this file, takes nothing away, sets
    the flag exactly when the copy succeeded, and logs only when a call
    raised. *)
Lemma backup_file_run e cfg src root dest_dir file s :
  file_above (fs s) dest_dir = false →
  is_dir (fs s) (dest_dir ++ [file]) = false →
  ∃ s', backup_file e cfg src root dest_dir file s = (Ok tt, s')
    ∧ success s' = success s || copied_ok e cfg src root dest_dir file
    ∧ (∀ p, p ≠ dest_dir ++ [file] → files (fs s') !! p = files (fs s) !! p)
    ∧ grows s s'
    ∧ (∀ q, q ∈ dirs (fs s') → q ∈ dirs (fs s) ∨ q = dest_dir)
    ∧ (if copy_returns e src root dest_dir file
       then is_Some (files (fs s') !! (dest_dir ++ [file]))
       else ∃ ex, In (ERROR, Error_copying file ex) (log s'))
    ∧ (nothing_raises e src root dest_dir file → log s' = log s).
Proof.
  intros Habove Hclear.
  unfold backup_file, copied_ok, nothing_raises, copy_returns, arrives.
  pose proof (mkdir_run e dest_dir s) as Hmk. rewrite Habove, orb_false_r in Hmk.
  destruct (mkdir_fails e dest_dir) eqn:Emk.
  { (* [mkdir] raises *)
    rewrite (try_except_bind_raise _ _ _ _ _ _ Hmk).
    eexists; split; [reflexivity|]. split_and!.
    - simpl. by rewrite orb_false_r.
    - done.
    - apply grows_log_add.
    - by left.
    - eexists. apply in_or_app. right. left. reflexivity.
    - intros [? _]. done. }
  set (s1 := with_fs (make_dir dest_dir) s) in *.
  assert (Hd1 : ∀ q, q ∈ dirs (fs s1) → q ∈ dirs (fs s) ∨ q = dest_dir).
  { simpl. intros q [->%elem_of_singleton|Hq]%elem_of_union; auto. }
  assert (Hwritten : ∀ w, grows s (with_fs (write_file (dest_dir ++ [file]) w) s1)).
  { intros w. etrans; [apply (grows_make_dir dest_dir)|]. split; simpl; auto.
    intros p Hp. rewrite lookup_insert_is_Some.
    destruct (decide (dest_dir ++ [file] = p)); auto. }
  pose proof (copy2_run e src (root ++ [file]) (dest_dir ++ [file]) s1) as Hcp.
  destruct (copy2_onto_file (fs s) (root ++ [file]) dest_dir file Habove Hclear) as [Et Ecan].
  cbv zeta in Hcp. change (fs s1) with (make_dir dest_dir (fs s)) in Hcp.
  rewrite Et, Ecan in Hcp.
  destruct (files src !! (root ++ [file])) as [c|] eqn:Esrc;
    [destruct (copy2_outcome e (root ++ [file]) (dest_dir ++ [file])) as [|c'|[c'|]] eqn:Ecp|].
  - (* [copy2] returns with the bytes of the source *)
    rewrite (try_except_bind _ _ _ _ _ _ Hmk), (try_except_bind _ _ _ _ _ _ Hcp).
    destruct (verify_and_flag e cfg src root dest_dir file
                (with_fs (write_file (dest_dir ++ [file]) c) s1) c c Esrc)
      as (s' & -> & Hfs & Hrep & Hsucc & Hlog & Hquiet); [apply lookup_insert_eq|].
    exists s'. split; [reflexivity|]. rewrite Hfs, Hsucc. simpl. split_and!.
    + reflexivity.
    + intros p Hp. by rewrite lookup_insert_ne.
    + etrans; [apply (Hwritten c)|].
      split; [by rewrite Hfs | by rewrite Hfs | exact Hlog
             | rewrite Hsucc; simpl; by intros -> | exact Hrep].
    + exact Hd1.
    + rewrite lookup_insert_eq. eauto.
    + intros (_ & H1 & H2). by apply Hquiet.
  - (* [copy2] returns with other bytes *)
    rewrite (try_except_bind _ _ _ _ _ _ Hmk), (try_except_bind _ _ _ _ _ _ Hcp).
    destruct (verify_and_flag e cfg src root dest_dir file
                (with_fs (write_file (dest_dir ++ [file]) c') s1) c c' Esrc)
      as (s' & -> & Hfs & Hrep & Hsucc & Hlog & Hquiet); [apply lookup_insert_eq|].
    exists s'. split; [reflexivity|]. rewrite Hfs, Hsucc. simpl. split_and!.
    + reflexivity.
    + intros p Hp. by rewrite lookup_insert_ne.
    + etrans; [apply (Hwritten c')|].
      split; [by rewrite Hfs | by rewrite Hfs | exact Hlog
             | rewrite Hsucc; simpl; by intros -> | exact Hrep].
    + exact Hd1.
    + rewrite lookup_insert_eq. eauto.
    + intros (_ & H1 & H2). by apply Hquiet.
  - (* [copy2] raises after writing *)
    rewrite (try_except_bind _ _ _ _ _ _ Hmk), (try_except_bind_raise _ _ _ _ _ _ Hcp).
    eexists. split; [reflexivity|]. split_and!.
    + simpl. by rewrite orb_false_r.
    + intros p Hp. simpl. by rewrite lookup_insert_ne.
    + etrans; [apply (Hwritten c') | apply grows_log_add].
    + exact Hd1.
    + eexists. apply in_or_app. right. left. reflexivity.
    + intros [? _]. done.
  - (* [copy2] raises *)
    rewrite (try_except_bind _ _ _ _ _ _ Hmk), (try_except_bind_raise _ _ _ _ _ _ Hcp).
    eexists. split; [reflexivity|]. split_and!.
    + simpl. by rewrite orb_false_r.
    + done.
    + etrans; [apply (grows_make_dir dest_dir) | apply grows_log_add].
    + exact Hd1.
    + eexists. apply in_or_app. right. left. reflexivity.
    + intros [? _]. done.
  - (* the source file is gone *)
    rewrite (try_except_bind _ _ _ _ _ _ Hmk), (try_except_bind_raise _ _ _ _ _ _ Hcp).
    eexists. split; [reflexivity|]. split_and!.
    + simpl. by rewrite orb_false_r.
    + done.
    + etrans; [apply (grows_make_dir dest_dir) | apply grows_log_add].
    + exact Hd1.
    + eexists. apply in_or_app. right. left. reflexivity.
    + intros [? _]. done.
Qed.

(** ** CopyEngine: the loops of a task *)

(** A loop whose body, on a state that satisfies [I], returns, keeps [I],
    makes a step of [R] and establishes [Q] for its item. *)
Lemma for_each_inv {S A} (I : S → Prop) (R : S → S → Prop) `{!PreOrder R}
    (Q : A → S → Prop) (xs : list A) (body : A → M S unit) (s : S) :
  (∀ x s, In x xs → I s →
     (body x s).1 = Ok tt ∧ I (body x s).2 ∧ R s (body x s).2 ∧ Q x (body x s).2) →
  (∀ x s s', Q x s → R s s' → Q x s') →
  I s →
  (for_each xs body s).1 = Ok tt ∧ I (for_each xs body s).2 ∧ R s (for_each xs body s).2
  ∧ ∀ x, In x xs → Q x (for_each xs body s).2.
Proof.
  intros Hbody Hstable. revert s. induction xs as [|y xs IH]; intros s Hs.
  - simpl. split_and!; [done | done | reflexivity | intros x []].
  - simpl. unfold bind.
    destruct (Hbody y s (or_introl eq_refl) Hs) as (Hok & HI & HR & HQ).
    destruct (body y s) as [r s1]. simpl in *. subst r.
    destruct (IH (λ x s Hx, Hbody x s (or_intror Hx)) s1 HI) as (Hok' & HI' & HR' & HQ').
    split_and!; [exact Hok' | exact HI' | by etrans |].
    intros x [<-|Hx]; [by eapply Hstable | by apply HQ'].
Qed.

(** Steps that take nothing away and, under [P], log nothing. *)
#[global] Instance quiet_preorder (P : Prop) :
  PreOrder (λ s s' : state, grows s s' ∧ (P → log s' = log s)).
Proof.
  split.
  - intros s. split; [reflexivity | done].
  - intros s1 s2 s3 [G1 Q1] [G2 Q2]. split; [by etrans|].
    intros HP. by rewrite Q2, Q1.
Qed.

Section copy_engine.
Variables (e : env) (cfg : config) (src : disk).
Variables (backup_root : path) (browser_name : string).

Lemma copies_of_refl J s : copies_of e cfg src J s s.
Proof. split; [reflexivity | auto | congruence]. Qed.

Lemma copies_of_trans J s1 s2 s3 :
  copies_of e cfg src J s1 s2 → copies_of e cfg src J s2 s3 → copies_of e cfg src J s1 s3.
Proof.
  intros [G1 S1 W1] [G2 S2 W2]. split.
  - etrans; eassumption.
  - intros H3. destruct (S2 H3) as [H2|?]; auto.
  - intros p Hp. destruct (decide (files (fs s2) !! p = files (fs s1) !! p)) as [Heq|Hne].
    + apply W2. congruence.
    + apply W1. exact Hne.
Qed.

Lemma copies_of_mono (J J' : path → path → string → Prop) s s' :
  (∀ root d f, J root d f → J' root d f) → copies_of e cfg src J s s' → copies_of e cfg src J' s s'.
Proof.
  intros HJ [G S W]. split; [exact G | |].
  - intros H. destruct (S H) as [?|(root & d & f & ? & ?)]; [by left|].
    right. exists root, d, f. auto.
  - intros p Hp. destruct (W p Hp) as (root & d & f & ? & ?). exists root, d, f. auto.
Qed.

(** A step that writes no file and leaves the flag. *)
Lemma copies_of_idle J s s' :
  grows s s' → files (fs s') = files (fs s) → success s' = success s →
  copies_of e cfg src J s s'.
Proof.
  intros Hg Hf Hs. split; [exact Hg | |].
  - rewrite Hs. by left.
  - intros p Hp. by rewrite Hf in Hp.
Qed.

Lemma for_each_copies {A} (J : path → path → string → Prop) (xs : list A)
    (body : A → M state unit) s :
  (∀ x s, In x xs → copies_of e cfg src J s (body x s).2) →
  copies_of e cfg src J s (for_each xs body s).2.
Proof.
  intros Hbody. apply (for_each_preserves (copies_of e cfg src J s)); [|apply copies_of_refl].
  intros x s1 Hx Hs1. eapply copies_of_trans; [exact Hs1|]. apply Hbody, Hx.
Qed.

Lemma consider_file_cases root rel_path dest_dir file s :
  consider_file e cfg src browser_name root rel_path dest_dir file s =
  if has_excluded cfg file then (Ok tt, s)
  else match _should_backup_file cfg (path_str (rel_path ++ [file])) browser_name with
       | Raise ex => (Raise ex, s)
       | Ok false => (Ok tt, s)
       | Ok true => backup_file e cfg src root dest_dir file s
       end.
Proof.
  unfold consider_file. destruct (has_excluded cfg file); [reflexivity|].
  unfold bind, lift. destruct (_should_backup_file _ _ _) as [[|]|ex]; reflexivity.
Qed.

Lemma consider_file_copies root rel_path dest_dir file s :
  copies_of e cfg src (λ r d f, wanted cfg browser_name rel_path file = true ∧ r = root ∧ d = dest_dir ∧ f = file)
    s (consider_file e cfg src browser_name root rel_path dest_dir file s).2.
Proof.
  rewrite consider_file_cases. unfold wanted.
  destruct (has_excluded cfg file); [apply copies_of_refl|].
  destruct (_should_backup_file _ _ _) as [[|]|ex]; try apply copies_of_refl.
  destruct (backup_file_any e cfg src root dest_dir file s)
    as (s' & -> & Hgrow & Hsucc & Hwritten & _). simpl.
  split; [exact Hgrow | |].
  - intros Hs. destruct (Hsucc Hs) as [?|Hok]; [by left|].
    right. exists root, dest_dir, file. done.
  - intros p Hp. exists root, dest_dir, file. split; [done|].
    by destruct (Hwritten p Hp) as [? _].
Qed.

Lemma backup_dir_copies source dest entry s :
  copies_of e cfg src (λ r d f, r = entry.1 ∧ In f entry.2
                      ∧ wanted cfg browser_name (relative_to entry.1 source) f = true
                      ∧ d = dest ++ relative_to entry.1 source)
    s (backup_dir e cfg src browser_name source dest entry s).2.
Proof.
  unfold backup_dir. apply for_each_copies. intros file s1 Hfile.
  eapply copies_of_mono; [|apply consider_file_copies].
  intros r d f (Hw & -> & -> & ->). done.
Qed.

Lemma backup_source_copies source s :
  copies_of e cfg src (job cfg src backup_root browser_name [source]) s (backup_source e cfg src backup_root browser_name source s).2.
Proof.
  unfold backup_source. destruct (exists_ src source) eqn:Hex; simpl; [|apply copies_of_refl].
  unfold bind. rewrite mkdir_run.
  destruct (mkdir_fails e _ || file_above (fs s) _); [apply copies_of_refl|].
  unfold lift. destruct (count_files _ _ _) as [n|ex]; simpl.
  2:{ apply copies_of_idle; [apply grows_make_dir | done | done]. }
  eapply copies_of_trans with (s2 := with_fs (make_dir _) s).
  { apply copies_of_idle; [apply grows_make_dir | done | done]. }
  apply for_each_copies. intros [root files] s1 Hentry.
  eapply copies_of_mono; [|apply backup_dir_copies].
  simpl. intros r d f (-> & Hf & Hw & ->).
  exists source, files. split_and!; try done. by left.
Qed.

Lemma job_mono (xs ys : list path) root d f :
  (∀ x, In x xs → In x ys) → job cfg src backup_root browser_name xs root d f → job cfg src backup_root browser_name ys root d f.
Proof.
  intros Hsub (source & files & Hin & H). exists source, files. split; [auto | exact H].
Qed.

Lemma job_split source_paths root d file :
  job cfg src backup_root browser_name source_paths root d file ↔ ∃ source, In source source_paths ∧ job cfg src backup_root browser_name [source] root d file.
Proof.
  split.
  - intros (source & files & Hin & H). exists source. split; [exact Hin|].
    exists source, files. split; [by left | exact H].
  - intros (source & Hin & (s0 & files & [<-|[]] & H)). exists source, files. auto.
Qed.

(** The source at which the loop ends raises before any file is copied. *)
Lemma backup_source_stops source s :
  stops_at e cfg src backup_root browser_name source = true →
  ∃ ex s', backup_source e cfg src backup_root browser_name source s = (Raise ex, s')
    ∧ grows s s' ∧ files (fs s') = files (fs s) ∧ success s' = success s
    ∧ log s' = log s
    ∧ (fs s' = fs s ∨ fs s' = make_dir (dest_of backup_root browser_name source) (fs s)).
Proof.
  unfold stops_at, backup_source. intros [Hex Hwhy]%andb_prop. rewrite Hex. simpl.
  unfold bind. rewrite mkdir_run. fold (dest_of backup_root browser_name source).
  destruct (mkdir_fails e _ || file_above (fs s) _) eqn:Emk.
  { eexists _, _. split; [reflexivity|]. split_and!; auto. reflexivity. }
  apply orb_false_elim in Emk as [Emk _]. rewrite Emk in Hwhy. simpl in Hwhy.
  unfold lift. destruct (count_files _ _ _) as [n|ex]; [discriminate|].
  eexists _, _. split; [reflexivity|]. split_and!; auto. apply grows_make_dir.
Qed.

Lemma reached_sub (source_paths : list path) (x : path) :
  In x (reached e cfg src backup_root browser_name source_paths) → In x source_paths.
Proof.
  induction source_paths as [|y l IH]; simpl; [done|].
  destruct (stops_at e cfg src backup_root browser_name y); [done|].
  intros [->|Hx]; [by left | right; by apply IH].
Qed.

Lemma reached_all (source_paths : list path) :
  (∀ x, In x source_paths → stops_at e cfg src backup_root browser_name x = false) →
  reached e cfg src backup_root browser_name source_paths = source_paths.
Proof.
  induction source_paths as [|y l IH]; intros Hall; simpl; [done|].
  rewrite (Hall y) by (by left). f_equal. apply IH. intros x Hx. apply Hall. by right.
Qed.

(** Whatever faults occur, the loop over the sources has only made copy
    attempts on the jobs of the sources that it got through. *)
Lemma backup_sources_copies source_paths s :
  copies_of e cfg src
    (job cfg src backup_root browser_name
       (reached e cfg src backup_root browser_name source_paths))
    s (for_each source_paths (backup_source e cfg src backup_root browser_name) s).2.
Proof.
  revert s. induction source_paths as [|x rest IH]; intros s; simpl; [apply copies_of_refl|].
  unfold bind. destruct (stops_at e cfg src backup_root browser_name x) eqn:Hstop.
  - destruct (backup_source_stops x s Hstop) as (ex & s' & -> & Hg & Hf & Hs & _).
    by apply copies_of_idle.
  - pose proof (backup_source_copies x s) as Hx.
    destruct (backup_source e cfg src backup_root browser_name x s) as [[[]|ex] s1];
      simpl in *.
    + eapply copies_of_trans.
      * eapply copies_of_mono; [|exact Hx]. intros root d f. apply job_mono.
        intros y [<-|[]]. by left.
      * eapply copies_of_mono; [|apply IH]. intros root d f. apply job_mono.
        intros y Hy. by right.
    + eapply copies_of_mono; [|exact Hx]. intros root d f. apply job_mono.
      intros y [<-|[]]. by left.
Qed.

Lemma backup_browser_copies_reached source_paths s :
  ∃ s', backup_browser e cfg src backup_root browser_name source_paths s = (Ok (success s'), s')
        ∧ copies_of e cfg src
            (job cfg src backup_root browser_name
               (reached e cfg src backup_root browser_name source_paths))
            (reset s) s'.
Proof.
  unfold backup_browser.
  rewrite (bind_ok _ _ s tt (reset s)) by reflexivity.
  pose proof (backup_sources_copies source_paths (reset s)) as Hloop.
  unfold bind, try_except, gets.
  destruct (for_each source_paths _ (reset s)) as [[[]|ex] s1]; simpl in *.
  - eexists. split; [reflexivity | exact Hloop].
  - exists (log_add (ERROR, Error_backing_up browser_name ex) s1).
    split; [reflexivity|].
    eapply copies_of_trans; [exact Hloop|].
    apply copies_of_idle; [apply grows_log_add | done | done].
Qed.

(** Whatever faults occur, a task returns its flag and has only made
    copy attempts on its own jobs. *)
Lemma backup_browser_copies source_paths s :
  ∃ s', backup_browser e cfg src backup_root browser_name source_paths s = (Ok (success s'), s')
        ∧ copies_of e cfg src (job cfg src backup_root browser_name source_paths) (reset s) s'.
Proof.
  destruct (backup_browser_copies_reached source_paths s) as (s' & Hrun & Hcopies).
  exists s'. split; [exact Hrun|].
  eapply copies_of_mono; [|exact Hcopies]. intros root d f. apply job_mono, reached_sub.
Qed.

Lemma attempted_grows root d file s s' :
  attempted e cfg src root d file s → grows s s' → attempted e cfg src root d file s'.
Proof.
  unfold attempted. intros [Hf Hs] [Gf _ Gl Gs _]. split; [|auto].
  destruct (copy_returns e src root d file); [auto|].
  destruct Hf as [ex Hl]. exists ex. auto.
Qed.

(** What a job is made of. *)
Lemma job_shape source_paths root d f :
  job cfg src backup_root browser_name source_paths root d f →
  ∃ source, In source source_paths ∧ exists_ src source = true
            ∧ source `prefix_of` root ∧ is_Some (files src !! (root ++ [f]))
            ∧ wanted cfg browser_name (relative_to root source) f = true
            ∧ d = dest_of backup_root browser_name source ++ relative_to root source.
Proof.
  intros (source & names & Hin & Hex & Hentry & Hfile & Hw & ->).
  destruct (proj1 (os_walk_spec src source root f)) as [Hsome Hpre]; [eauto|].
  exists source. done.
Qed.

Lemma job_dest_prefix source_paths root d file :
  job cfg src backup_root browser_name source_paths root d file →
  (backup_root ++ [browser_name]) `prefix_of` d
  ∧ (length (backup_root ++ [browser_name]) < length d)%nat.
Proof.
  intros (source & names & _ & _ & _ & _ & _ & ->). unfold dest_of. split.
  - exists ([name source] ++ relative_to root source). by rewrite <- !app_assoc.
  - rewrite !length_app. simpl. lia.
Qed.

Lemma dest_of_prefix_inv (source source' k k' : path) :
  (dest_of backup_root browser_name source ++ k)
    `prefix_of` (dest_of backup_root browser_name source' ++ k') →
  name source = name source' ∧ k `prefix_of` k'.
Proof.
  unfold dest_of. rewrite <- !app_assoc. intros H%prefix_app_inv. simpl in H.
  apply prefix_cons_inv_2 in H. split.
  - by apply prefix_cons_inv_1 in H.
  - by apply prefix_cons_inv_2 in H.
Qed.

(** The count for the progress bar has asked the FileSelector about every
    file name, so the loop that copies can ask about the paths. *)
Lemma count_files_returns names n file :
  count_files cfg browser_name names = Ok n → In file names →
  ∃ b, _should_backup_file cfg file browser_name = Ok b.
Proof.
  revert n. induction names as [|f names IH]; intros n Hn Hin; [destruct Hin|].
  simpl in Hn. destruct (_should_backup_file cfg f browser_name) as [b|ex] eqn:Ef; [|done].
  destruct (count_files cfg browser_name names) as [m|ex]; [|done].
  destruct Hin as [->|Hin]; [eauto | by eapply IH].
Qed.

Section from_scratch.
Variable source_paths : list path.
Hypothesis src_is_tree : tree_like src = true.
Hypothesis names_differ : distinct_names source_paths = true.

Abbreviation top := (backup_root ++ [browser_name]).
Abbreviation J := (job cfg src backup_root browser_name source_paths).
Abbreviation Inv s := (task_made cfg src backup_root browser_name source_paths (fs s)).
Abbreviation quiet :=
  (∀ root d file, job cfg src backup_root browser_name source_paths root d file →
                  nothing_raises e src root d file).
Abbreviation step := (λ s s' : state, grows s s' ∧ (quiet → log s' = log s)).

(** Two jobs whose destinations are nested come from nested source paths. *)
Lemma jobs_nested root d f root' d' f' k :
  J root d f → J root' d' f' → (d ++ [f]) `prefix_of` (d' ++ k) →
  (root ++ [f]) `prefix_of` (root' ++ k)
  ∧ ∃ source, d = dest_of backup_root browser_name source ++ relative_to root source
              ∧ d' = dest_of backup_root browser_name source ++ relative_to root' source.
Proof.
  intros (source & Hin & _ & Hpre & _ & _ & ->)%job_shape
         (source' & Hin' & _ & Hpre' & _ & _ & ->)%job_shape Hnest.
  rewrite <- !app_assoc in Hnest. apply dest_of_prefix_inv in Hnest as [Hname Hrel].
  assert (source' = source) as -> by (symmetry; by eapply distinct_names_spec).
  split; [|by exists source].
  rewrite <- (relative_to_below source root Hpre), <- (relative_to_below source root' Hpre').
  rewrite <- !app_assoc. by apply prefix_app.
Qed.

(** No job is copied onto, or below, the directory of another job. *)
Lemma job_not_above_dir root d f root' d' f' :
  J root d f → J root' d' f' → ¬ (d ++ [f]) `prefix_of` d'.
Proof.
  intros Hj Hj' Hnest.
  destruct (jobs_nested root d f root' d' f' [] Hj Hj') as [Hsrc _];
    [by rewrite app_nil_r|].
  rewrite app_nil_r in Hsrc.
  apply job_shape in Hj as (_ & _ & _ & _ & Hf & _).
  apply job_shape in Hj' as (_ & _ & _ & _ & Hf' & _).
  assert (Heq : root ++ [f] = root' ++ [f']).
  { apply (tree_like_spec src); [done..|]. by apply prefix_app_r. }
  apply prefix_length in Hsrc. apply (f_equal length) in Heq.
  rewrite !length_app in *. simpl in *. lia.
Qed.

Lemma job_nested_same root d f root' d' f' :
  J root d f → J root' d' f' → (d ++ [f]) `prefix_of` (d' ++ [f']) → d ++ [f] = d' ++ [f'].
Proof.
  intros Hj Hj' Hnest.
  destruct (jobs_nested root d f root' d' f' [f'] Hj Hj' Hnest)
    as [Hsrc (source & -> & ->)].
  apply job_shape in Hj as (_ & _ & _ & _ & Hf & _).
  apply job_shape in Hj' as (_ & _ & _ & _ & Hf' & _).
  assert (Heq : root ++ [f] = root' ++ [f']) by (by apply (tree_like_spec src)).
  apply app_inj_tail in Heq as [-> ->]. done.
Qed.

(** Under the invariant nothing is in the way of a job. *)
Lemma job_clear s root d f :
  Inv s → J root d f →
  file_above (fs s) d = false ∧ is_dir (fs s) (d ++ [f]) = false.
Proof.
  intros [Hfiles Hdirs] Hj.
  pose proof (job_dest_prefix _ _ _ _ Hj) as [Htop Hlen].
  split.
  - apply file_above_false. intros q Hq Hpre.
    destruct (Hfiles q Hq) as [[H1 H2]|(root' & d' & f' & Hj' & ->)].
    + destruct (prefix_weak_total _ _ _ Hpre Htop); done.
    + by eapply (job_not_above_dir root' d' f' root d f).
  - apply is_dir_false.
    destruct (files (fs s) !! (d ++ [f])) as [c|] eqn:Efile; [left; eauto | right].
    intros q Hq Hpre.
    assert (Htopq : top `prefix_of` q).
    { etrans; [exact Htop|]. etrans; [|exact Hpre]. by apply prefix_app_r. }
    apply elem_of_all_paths in Hq as [Hq|Hq].
    + destruct (Hfiles q Hq) as [[H1 H2]|(root' & d' & f' & Hj' & ->)]; [done|].
      rewrite <- (job_nested_same root d f root' d' f') in Hq by done.
      rewrite Efile in Hq. by destruct Hq.
    + destruct (Hdirs q Hq) as [H|[(source & Hin & ->)|(root' & d' & f' & Hj' & ->)]].
      * apply H. split; [exact Htopq|].
        apply prefix_length in Hpre. rewrite length_app in Hpre. simpl in Hpre. lia.
      * apply prefix_length in Hpre. unfold dest_of in Hpre.
        rewrite !length_app in *. simpl in *. lia.
      * by eapply (job_not_above_dir root d f root' d' f').
Qed.

Lemma source_clear s source :
  Inv s → file_above (fs s) (dest_of backup_root browser_name source) = false.
Proof.
  intros [Hfiles _]. apply file_above_false. intros q Hq Hpre.
  assert (Htop : top `prefix_of` dest_of backup_root browser_name source).
  { unfold dest_of. exists [name source]. by rewrite <- app_assoc. }
  destruct (Hfiles q Hq) as [[H1 H2]|(root' & d' & f' & Hj' & ->)].
  - destruct (prefix_weak_total _ _ _ Hpre Htop); done.
  - pose proof (job_dest_prefix _ _ _ _ Hj') as [_ Hlen].
    apply prefix_length in Hpre. unfold dest_of in Hpre.
    rewrite !length_app in *. simpl in *. lia.
Qed.

Lemma made_source s source :
  Inv s → In source source_paths →
  Inv (with_fs (make_dir (dest_of backup_root browser_name source)) s).
Proof.
  intros [Hfiles Hdirs] Hin. split; [exact Hfiles|]. simpl.
  intros q [->%elem_of_singleton|Hq]%elem_of_union; [|by apply Hdirs].
  right. left. by exists source.
Qed.

Lemma made_job s s' root d f :
  Inv s → J root d f →
  (∀ p, p ≠ d ++ [f] → files (fs s') !! p = files (fs s) !! p) →
  (∀ q, q ∈ dirs (fs s') → q ∈ dirs (fs s) ∨ q = d) →
  Inv s'.
Proof.
  intros [Hfiles Hdirs] Hj Hother Hd. split.
  - intros p Hp. destruct (decide (p = d ++ [f])) as [->|Hne].
    + right. by exists root, d, f.
    + rewrite Hother in Hp by done. by apply Hfiles.
  - intros q Hq. destruct (Hd q Hq) as [Hold| ->]; [by apply Hdirs|].
    right. right. by exists root, d, f.
Qed.

(** A fresh directory satisfies the invariant. *)
Lemma fresh_task_made (d : disk) :
  fresh d top = true → task_made cfg src backup_root browser_name source_paths d.
Proof.
  intros [Hfiles Hbelow]%fresh_spec. split.
  - intros p Hp. left. split; [by apply Hfiles|]. intros Hpre.
    destruct (decide (length top < length p)%nat) as [Hlt|Hge].
    + apply (Hbelow p); [|done]. apply elem_of_all_paths. by left.
    + apply (Hfiles p Hp). assert (top = p) as <-; [|done].
      apply prefix_same_length; [done|]. apply prefix_length in Hpre. lia.
  - intros q Hq. left. apply Hbelow, elem_of_all_paths. by right.
Qed.

(** One file of a walk: it is attempted, and the invariant is kept. *)
Lemma consider_file_clear source root files file s :
  In source source_paths → exists_ src source = true →
  In (root, files) (os_walk src source) → In file files →
  (∃ b, _should_backup_file cfg file browser_name = Ok b) →
  Inv s →
  let rel_path := relative_to root source in
  let dest_dir := dest_of backup_root browser_name source ++ rel_path in
  let out := consider_file e cfg src browser_name root rel_path dest_dir file s in
  out.1 = Ok tt ∧ Inv out.2 ∧ step s out.2
  ∧ (wanted cfg browser_name rel_path file = true →
     attempted e cfg src root dest_dir file out.2).
Proof.
  intros Hin Hex Hentry Hfile Hcount Hinv rel_path dest_dir out. subst out.
  rewrite consider_file_cases. unfold wanted.
  destruct (has_excluded cfg file) eqn:Hx; simpl.
  { split_and!; first [done | reflexivity]. }
  destruct (should_backup_file_returns_mono cfg file (path_str (rel_path ++ [file]))
              browser_name (str_in_path_str rel_path file) Hcount) as [b Hb].
  rewrite Hb. destruct b.
  2:{ split_and!; first [done | reflexivity]. }
  assert (Hj : J root dest_dir file).
  { exists source, files. split_and!; try done. unfold wanted. fold rel_path.
    by rewrite Hx, Hb. }
  destruct (job_clear s root dest_dir file Hinv Hj) as [Habove Hclear].
  destruct (backup_file_run e cfg src root dest_dir file s Habove Hclear)
    as (s' & -> & Hsucc & Hother & Hgrow & Hd & Hdone & Hlog). simpl.
  split; [reflexivity|]. split; [by eapply made_job|]. split.
  - split; [exact Hgrow|]. intros Hq. by apply Hlog, Hq.
  - intros _. split; [exact Hdone|]. intros Hok. rewrite Hsucc, Hok. apply orb_true_r.
Qed.

(** One source that does not stop the loop: every job of it is attempted. *)
Lemma backup_source_clear source s :
  In source source_paths → Inv s →
  stops_at e cfg src backup_root browser_name source = false →
  let out := backup_source e cfg src backup_root browser_name source s in
  out.1 = Ok tt ∧ Inv out.2 ∧ step s out.2
  ∧ ∀ root d file, job cfg src backup_root browser_name [source] root d file →
      attempted e cfg src root d file out.2.
Proof.
  intros Hin Hinv Hgo out. subst out. unfold backup_source.
  destruct (exists_ src source) eqn:Hex; simpl.
  2:{ split; [done|]. split; [done|]. split; [split; [reflexivity | done]|].
      intros root d file (s0 & fs0 & [<-|[]] & Hex' & _). congruence. }
  unfold stops_at in Hgo. rewrite Hex in Hgo. simpl in Hgo.
  apply orb_false_elim in Hgo as [Hmk Hcount].
  unfold bind. rewrite mkdir_run. fold (dest_of backup_root browser_name source).
  rewrite Hmk, (source_clear s source Hinv). simpl.
  destruct (count_files cfg browser_name (concat (os_walk src source).*2)) as [n|ex] eqn:Ecount;
    [|discriminate]. unfold lift.
  set (dest := dest_of backup_root browser_name source).
  set (s1 := with_fs (make_dir dest) s).
  assert (Hinv1 : Inv s1) by (by apply made_source).
  assert (Hstable : ∀ root d file s2 s3,
            attempted e cfg src root d file s2 → step s2 s3 →
            attempted e cfg src root d file s3).
  { intros root d file s2 s3 Ha [Hg _]. by eapply attempted_grows. }
  destruct (for_each_inv (λ s, Inv s) step
              (λ entry s, ∀ f, In f entry.2 →
                 wanted cfg browser_name (relative_to entry.1 source) f = true →
                 attempted e cfg src entry.1 (dest ++ relative_to entry.1 source) f s)
              (os_walk src source) (backup_dir e cfg src browser_name source dest) s1)
    as (Hok & Hinv' & [Hgrow Hlog] & Hatt); [| |exact Hinv1|].
  - intros [root files] s2 Hentry Hinv2. unfold backup_dir. simpl.
    destruct (for_each_inv (λ s, Inv s) step
                (λ f s, wanted cfg browser_name (relative_to root source) f = true →
                        attempted e cfg src root (dest ++ relative_to root source) f s)
                files
                (consider_file e cfg src browser_name root (relative_to root source)
                   (dest ++ relative_to root source)) s2)
      as (Hok & Hinv' & Hstep & Hatt); [| |exact Hinv2|done].
    + intros f s3 Hf Hinv3.
      apply (consider_file_clear source root files f s3); try done.
      eapply count_files_returns; [exact Ecount|].
      apply in_concat. exists files. split; [|exact Hf].
      apply in_map_iff. by exists (root, files).
    + intros f s3 s4 HQ Hs Hw. eapply Hstable; [by apply HQ | exact Hs].
  - intros entry s2 s3 HQ Hs f Hf Hw. eapply Hstable; [by apply HQ | exact Hs].
  - split; [exact Hok|]. split; [exact Hinv'|]. split.
    + split; [etrans; [apply (grows_make_dir dest) | exact Hgrow] | exact Hlog].
    + intros root d file (s0 & files & [<-|[]] & _ & Hentry & Hfile & Hw & ->).
      by apply (Hatt (root, files)).
Qed.

(** The loop over the sources: every job of a source that it gets through
    is attempted. *)
Lemma backup_sources_clear sources s :
  (∀ x, In x sources → In x source_paths) → Inv s →
  let out := for_each sources (backup_source e cfg src backup_root browser_name) s in
  Inv out.2 ∧ grows s out.2
  ∧ (reached e cfg src backup_root browser_name sources = sources →
     out.1 = Ok tt ∧ (quiet → log out.2 = log s))
  ∧ ∀ root d file,
      job cfg src backup_root browser_name
        (reached e cfg src backup_root browser_name sources) root d file →
      attempted e cfg src root d file out.2.
Proof.
  revert s. induction sources as [|x rest IH]; intros s Hsub Hinv; simpl.
  { split_and!; [done | reflexivity | done |].
    intros root d file (s0 & fs0 & [] & _). }
  unfold bind. destruct (stops_at e cfg src backup_root browser_name x) eqn:Hstop.
  - destruct (backup_source_stops x s Hstop) as (ex & s' & -> & Hg & Hf & Hs & Hl & Hfs).
    simpl. split_and!; [| exact Hg | done |].
    + destruct Hfs as [-> | ->]; [exact Hinv|].
      apply (made_source s x Hinv), Hsub. by left.
    + intros root d file (s0 & fs0 & [] & _).
  - destruct (backup_source_clear x s (Hsub x (or_introl eq_refl)) Hinv Hstop)
      as (Hok & Hinv1 & [Hg1 Hl1] & Hatt1).
    destruct (backup_source e cfg src backup_root browser_name x s) as [r s1].
    simpl in *. subst r.
    destruct (IH s1 (λ y Hy, Hsub y (or_intror Hy)) Hinv1) as (Hinv2 & Hg2 & Hall & Hatt2).
    split_and!; [exact Hinv2 | by etrans | |].
    + intros [= Heq]. destruct (Hall Heq) as [Hok2 Hl2]. split; [exact Hok2|].
      intros Hq. by rewrite (Hl2 Hq), (Hl1 Hq).
    + intros root d file (y & [<-|Hy] & Hj)%job_split.
      * eapply attempted_grows; [by apply Hatt1 | exact Hg2].
      * apply Hatt2, job_split. by exists y.
Qed.

(** The task, into a fresh directory: it returns its flag, every job of a
    source that the loop gets through is attempted, and when the loop gets
    through every source and no call raises, nothing is logged. *)
Lemma backup_browser_clear s :
  fresh (fs s) top = true →
  ∃ s', backup_browser e cfg src backup_root browser_name source_paths s = (Ok (success s'), s')
    ∧ Inv s'
    ∧ (∀ root d file,
         job cfg src backup_root browser_name
           (reached e cfg src backup_root browser_name source_paths) root d file →
         attempted e cfg src root d file s')
    ∧ (reached e cfg src backup_root browser_name source_paths = source_paths →
       quiet → log s' = log s).
Proof.
  intros Hfresh.
  assert (Hinv : Inv (reset s)) by (by apply fresh_task_made).
  destruct (backup_sources_clear source_paths (reset s) (λ x Hx, Hx) Hinv)
    as (Hinv' & Hg & Hall & Hatt).
  unfold backup_browser.
  rewrite (bind_ok _ _ s tt (reset s)) by reflexivity.
  unfold bind, try_except, gets.
  destruct (for_each source_paths _ (reset s)) as [[[]|ex] s1]; simpl in *.
  - exists s1. split_and!; [reflexivity | exact Hinv' | exact Hatt |].
    intros Heq Hq. by destruct (Hall Heq) as [_ ->].
  - exists (log_add (ERROR, Error_backing_up browser_name ex) s1).
    split_and!; [reflexivity | exact Hinv' | |].
    + intros root d file Hj. eapply attempted_grows; [by apply Hatt | apply grows_log_add].
    + intros Heq. by destruct (Hall Heq) as [? _].
Qed.

(** Into a fresh directory a copy lands at its destination only. *)
Lemma written_at_destination s' root d f :
  Inv s' → J root d f → ¬ is_Some (files (fs s') !! ((d ++ [f]) ++ [f])).
Proof.
  intros [Hfiles _] Hj Hp.
  pose proof (job_dest_prefix _ _ _ _ Hj) as [Htop _].
  destruct (Hfiles _ Hp) as [[_ H]|(root' & d' & f' & Hj' & Heq)].
  - apply H. etrans; [exact Htop|]. rewrite <- app_assoc. by apply prefix_app_r.
  - apply app_inj_tail in Heq as [<- <-].
    by apply (job_not_above_dir root d f root' (d ++ [f]) f).
Qed.

End from_scratch.

End copy_engine.

Lemma distinct_names_single (source : path) : distinct_names [source] = true.
Proof. unfold distinct_names. simpl. by rewrite bool_decide_eq_true_2. Qed.

(** When the FileSelector cannot raise and the directory of each source
    can be made, the loop gets through every source. *)
Lemma reached_every_source (e : env) (cfg : config) (src : disk)
    (backup_root : path) (browser_name : string) (source_paths : list path) :
  known_options cfg = true →
  (∀ source, In source source_paths →
     mkdir_fails e (dest_of backup_root browser_name source) = false) →
  reached e cfg src backup_root browser_name source_paths = source_paths.
Proof.
  intros Hknown Hmk. apply reached_all. intros x Hx. unfold stops_at.
  rewrite (Hmk x Hx). simpl.
  assert (Hcount : ∀ names, ∃ n, count_files cfg browser_name names = Ok n).
  { induction names as [|f names [n IH]]; simpl; [by eexists|].
    destruct (known_options_total cfg browser_name Hknown f) as [b ->].
    rewrite IH. by eexists. }
  destruct (Hcount (concat (os_walk src x).*2)) as [n ->]. apply andb_false_r.
Qed.

(** Into a fresh directory and without a fault outside the per-file
    handler every copy job of the task is attempted, and the log only
    grows by calls that raised. *)
Lemma backup_browser_forward (e : env) (cfg : config) (src : disk)
    (backup_root : path) (browser_name : string) (source_paths : list path) (s : state) :
  known_options cfg = true →
  (∀ source, In source source_paths →
     mkdir_fails e (dest_of backup_root browser_name source) = false) →
  fresh (fs s) (backup_root ++ [browser_name]) = true →
  tree_like src = true →
  distinct_names source_paths = true →
  ∃ b s',
    backup_browser e cfg src backup_root browser_name source_paths s = (Ok b, s')
    ∧ task_made cfg src backup_root browser_name source_paths (fs s')
    ∧ (∀ root d file,
         job cfg src backup_root browser_name source_paths root d file →
         attempted e cfg src root d file s')
    ∧ ((∀ root d file,
          job cfg src backup_root browser_name source_paths root d file →
          nothing_raises e src root d file) →
       log s' = log s).
Proof.
  intros Hknown Hmk Hfresh Htree Hnames.
  pose proof (reached_every_source e cfg src backup_root browser_name source_paths
                Hknown Hmk) as Hall.
  destruct (backup_browser_clear e cfg src backup_root browser_name source_paths
              Htree Hnames s Hfresh) as (s' & Hrun & Hinv & Hatt & Hquiet).
  rewrite Hall in Hatt.
  exists (success s'), s'. split_and!; [exact Hrun | exact Hinv | exact Hatt |].
  intros Hq. by apply Hquiet.
Qed.

(** The flag that [backup_browser] returns, against the copy jobs of the
    sources that the loop got through. *)
Lemma backup_browser_success_iff (e : env) (cfg : config) (src : disk)
    (backup_root : path) (browser_name : string) (source_paths : list path) (s : state) :
  ∃ b s',
    backup_browser e cfg src backup_root browser_name source_paths s = (Ok b, s')
    ∧ (b = true →
       ∃ root d file,
         job cfg src backup_root browser_name
           (reached e cfg src backup_root browser_name source_paths) root d file
         ∧ copied_ok e cfg src root d file = true)
    ∧ (fresh (fs s) (backup_root ++ [browser_name]) = true →
       tree_like src = true →
       distinct_names source_paths = true →
       (∃ root d file,
          job cfg src backup_root browser_name
            (reached e cfg src backup_root browser_name source_paths) root d file
          ∧ copied_ok e cfg src root d file = true) →
       b = true).
Proof.
  destruct (backup_browser_copies_reached e cfg src backup_root browser_name source_paths s)
    as (s' & Hrun & Hcopies).
  exists (success s'), s'. split; [exact Hrun|]. split.
  - intros Hb. destruct (copies_success _ _ _ _ _ _ Hcopies Hb) as [Habs|Hjob]; [discriminate|].
    exact Hjob.
  - intros Hfresh Htree Hnames (root & d & file & Hjob & Hok).
    destruct (backup_browser_clear e cfg src backup_root browser_name source_paths
                Htree Hnames s Hfresh) as (s2 & Hrun2 & _ & Hatt & _).
    rewrite Hrun in Hrun2. injection Hrun2 as _ <-.
    apply (Hatt root d file Hjob), Hok.
Qed.

(** Every write of the engine goes to a path whose last component is the
    name of a file that passed the exclusion test. *)
Lemma backup_browser_keeps_excluded (e : env) (cfg : config) (src : disk)
    (backup_root : path) (browser_name : string) (source_paths : list path) (s : state)
    (p : path) :
  has_excluded cfg (name p) = true →
  files (fs (backup_browser e cfg src backup_root browser_name source_paths s).2) !! p
  = files (fs s) !! p.
Proof.
  intros Hx.
  destruct (backup_browser_copies e cfg src backup_root browser_name source_paths s)
    as (s' & Hrun & Hcopies).
  rewrite Hrun. simpl.
  destruct (decide (files (fs s') !! p = files (fs s) !! p)) as [|Hne]; [done|].
  exfalso.
  destruct (copies_written _ _ _ _ _ _ Hcopies p Hne) as (root & d & f & Hjob & Hp).
  destruct Hjob as (source & names & _ & _ & _ & _ & Hw & _).
  assert (Hname : name p = f) by (destruct Hp as [-> | ->]; apply name_snoc).
  rewrite Hname in Hx. unfold wanted in Hw. rewrite Hx in Hw. discriminate.
Qed.

(** ** CopyEngine: one source tree *)

Lemma length_filter_split {A} (P : A → Prop) `{!∀ x, Decision (P x)} (l : list A) :
  (length (filter P l) + length (filter (λ x, ¬ P x) l) = length l)%nat.
Proof.
  induction l as [|x l IH]; [reflexivity|].
  rewrite !filter_cons. destruct (decide (P x)), (decide (¬ P x)); simpl; try lia; tauto.
Qed.

Lemma filter_ext_in {A} (P Q : A → Prop) `{!∀ x, Decision (P x)} `{!∀ x, Decision (Q x)}
    (l : list A) :
  (∀ x, x ∈ l → P x ↔ Q x) → filter P l = filter Q l.
Proof.
  induction l as [|x l IH]; intros Hext; [reflexivity|].
  rewrite !filter_cons.
  rewrite IH by (intros y Hy; apply Hext; by right).
  pose proof (Hext x (list_elem_of_here x l)).
  destruct (decide (P x)), (decide (Q x)); tauto.
Qed.

Section one_source.
Variables (e : env) (cfg : config) (src : disk).
Variables (backup_root : path) (browser_name : string) (source : path).

Lemma elem_of_tree p : p ∈ tree src source ↔ is_Some (files src !! p) ∧ below source p.
Proof. unfold tree. rewrite list_elem_of_filter, elem_of_file_paths. tauto. Qed.

Lemma copy_of_snoc root file :
  source `prefix_of` root →
  copy_of backup_root browser_name source (root ++ [file])
  = (dest_of backup_root browser_name source ++ relative_to root source) ++ [file].
Proof. intros Hpre. unfold copy_of. rewrite relative_to_snoc by done. by rewrite app_assoc. Qed.

Lemma job_of_tree root d file :
  job cfg src backup_root browser_name [source] root d file ↔
  (root ++ [file]) ∈ tree src source ∧ passes cfg browser_name source (root ++ [file])
  ∧ d = dest_of backup_root browser_name source ++ relative_to root source.
Proof.
  unfold passes. rewrite parent_snoc, name_snoc, elem_of_tree, below_snoc. split.
  - intros (s0 & names & [<-|[]] & Hex & Hentry & Hfile & Hw & ->).
    destruct (proj1 (os_walk_spec src source root file)) as [Hsome Hpre]; [eauto|].
    done.
  - intros ([Hsome Hpre] & Hw & ->).
    destruct (proj2 (os_walk_spec src source root file)) as (names & Hentry & Hfile); [done|].
    exists source, names. split_and!; try done; [by left|].
    eapply exists_below; [exact Hsome|]. destruct Hpre as [k ->].
    exists (k ++ [file]). by rewrite app_assoc.
Qed.

Lemma copy_of_inj p q :
  p ∈ tree src source → q ∈ tree src source →
  copy_of backup_root browser_name source p = copy_of backup_root browser_name source q →
  p = q.
Proof.
  intros [_ [Hp _]]%elem_of_tree [_ [Hq _]]%elem_of_tree Heq.
  unfold copy_of in Heq. apply app_inv_head in Heq.
  rewrite <- (relative_to_below source p Hp), <- (relative_to_below source q Hq).
  by rewrite Heq.
Qed.

(** The job of a file of the tree that passes the filters. *)
Lemma job_of_passing p :
  p ∈ tree src source → passes cfg browser_name source p →
  job cfg src backup_root browser_name [source] (parent p)
    (dest_of backup_root browser_name source ++ relative_to (parent p) source) (name p)
  ∧ (dest_of backup_root browser_name source ++ relative_to (parent p) source) ++ [name p]
    = copy_of backup_root browser_name source p.
Proof.
  intros Htree Hpass.
  pose proof Htree as [_ Hb]%elem_of_tree.
  pose proof (below_nonempty _ _ Hb) as Hne.
  split.
  - apply job_of_tree. rewrite parent_name by done. done.
  - rewrite <- (parent_name p Hne) at 3. symmetry. apply copy_of_snoc.
    apply below_snoc with (file := name p). by rewrite parent_name.
Qed.

(** Into a fresh directory, whatever faults occur, the task changes only
    the paths of the copies of files that pass the filters. *)
Lemma backup_writes_copies (s : state) (q : path) :
  fresh (fs s) (backup_root ++ [browser_name]) = true →
  tree_like src = true →
  files (fs (backup_browser e cfg src backup_root browser_name [source] s).2) !! q
  ≠ files (fs s) !! q →
  ∃ p, p ∈ tree src source ∧ passes cfg browser_name source p
       ∧ q = copy_of backup_root browser_name source p.
Proof.
  intros Hfresh Htree Hq.
  destruct (backup_browser_copies e cfg src backup_root browser_name [source] s)
    as (s' & Hrun & Hcopies).
  destruct (backup_browser_clear e cfg src backup_root browser_name [source]
              Htree (distinct_names_single source) s Hfresh) as (s2 & Hrun2 & Hinv & _).
  rewrite Hrun in Hrun2. injection Hrun2 as _ <-.
  rewrite Hrun in Hq. simpl in Hq.
  destruct (copies_written _ _ _ _ _ _ Hcopies q Hq) as (root & d & f & Hjob & Hat).
  assert (Hthere : is_Some (files (fs s') !! q)).
  { destruct (files (fs s') !! q) as [c|] eqn:E; [eauto|]. exfalso.
    simpl in Hq. destruct (files (fs s) !! q) as [c|] eqn:E0; [|done].
    assert (H : is_Some (files (fs s') !! q)); [|rewrite E in H; by destruct H].
    apply (grows_files _ _ (copies_grow _ _ _ _ _ _ Hcopies)). simpl. by rewrite E0. }
  destruct Hat as [-> | ->].
  2:{ exfalso. by eapply (written_at_destination cfg src backup_root browser_name [source]
                             Htree (distinct_names_single source) s' root d f). }
  apply job_of_tree in Hjob as (Hin & Hpass & ->).
  exists (root ++ [f]). split_and!; try done.
  symmetry. apply copy_of_snoc.
  apply elem_of_tree in Hin as [_ Hb]. by apply below_snoc in Hb.
Qed.

(** On a fresh backup directory, the files of the backup are the copies
    of the files that pass the filters, when each of these copies returns. *)
Lemma backup_copies_exactly (s : state) :
  known_options cfg = true →
  mkdir_fails e (dest_of backup_root browser_name source) = false →
  files (fs s) = ∅ →
  fresh (fs s) (backup_root ++ [browser_name]) = true →
  tree_like src = true →
  (∀ p, p ∈ tree src source → passes cfg browser_name source p →
     copy_returns e src (parent p)
       (dest_of backup_root browser_name source ++ relative_to (parent p) source)
       (name p) = true) →
  size (files (fs (backup_browser e cfg src backup_root browser_name [source] s).2))
  = length (filter (passes cfg browser_name source) (tree src source)).
Proof.
  intros Hknown Hmk Hempty Hfresh Htree Hret.
  pose proof (backup_writes_copies s) as Hwritten.
  destruct (backup_browser_forward e cfg src backup_root browser_name [source] s Hknown)
    as (b & s' & Hrun & _ & Hatt & _); try done.
  { intros x [<-|[]]. exact Hmk. }
  { apply distinct_names_single. }
  rewrite Hrun in *. simpl in *.
  rewrite <- (size_dom (D := gset (list string))).
  assert (Hdom : dom (files (fs s')) = list_to_set ((copy_of backup_root browser_name source) <$> filter (passes cfg browser_name source) (tree src source))).
  { apply set_eq. intros q. rewrite elem_of_dom, elem_of_list_to_set, list_elem_of_fmap. split.
    - intros Hq. destruct (Hwritten q Hfresh Htree) as (p & Hin & Hpass & ->).
      { rewrite Hempty, lookup_empty. intros Heq. rewrite Heq in Hq.
        by apply is_Some_None in Hq. }
      exists p. split; [done|]. by apply list_elem_of_filter.
    - intros (p & -> & [Hpass Hin]%list_elem_of_filter).
      destruct (job_of_passing p Hin Hpass) as [Hjob Hdst].
      destruct (Hatt _ _ _ Hjob) as [Hfile _].
      rewrite (Hret p Hin Hpass) in Hfile. by rewrite Hdst in Hfile. }
  rewrite Hdom. rewrite size_list_to_set.
  - by rewrite length_fmap.
  - apply NoDup_fmap_2_strong.
    + intros p q [_ Hp]%list_elem_of_filter [_ Hq]%list_elem_of_filter. by apply copy_of_inj.
    + apply NoDup_filter, NoDup_filter, NoDup_file_paths.
Qed.

End one_source.

(** The scenario of three files, one of them excluded by its name. *)
Lemma three_files_one_excluded (e : env) (cfg : config) (src : disk)
    (backup_root : path) (browser_name : string) (source : path) (s : state) :
  known_options cfg = true →
  mkdir_fails e (dest_of backup_root browser_name source) = false →
  files (fs s) = ∅ →
  fresh (fs s) (backup_root ++ [browser_name]) = true →
  tree_like src = true →
  length (tree src source) = 3%nat →
  length (filter (λ p, has_excluded cfg (name p) = true) (tree src source)) = 1%nat →
  (∀ p, p ∈ tree src source → has_excluded cfg (name p) = false →
     _should_backup_file cfg (path_str (relative_to p source)) browser_name = Ok true
     ∧ copied_ok e cfg src (parent p)
         (dest_of backup_root browser_name source ++ relative_to (parent p) source)
         (name p) = true) →
  ∃ s', backup_browser e cfg src backup_root browser_name [source] s = (Ok true, s')
        ∧ size (files (fs s')) = 2%nat.
Proof.
  intros Hknown Hmk Hempty Hfresh Htree H3 H1 Hgood.
  assert (Hrel : ∀ p, p ∈ tree src source →
            relative_to (parent p) source ++ [name p] = relative_to p source).
  { intros p [_ Hb]%elem_of_tree. pose proof (below_nonempty _ _ Hb) as Hne.
    rewrite <- (parent_name p Hne) at 3. symmetry. apply relative_to_snoc.
    apply below_snoc with (file := name p). by rewrite parent_name. }
  assert (Hpass : ∀ p, p ∈ tree src source →
            passes cfg browser_name source p ↔ ¬ has_excluded cfg (name p) = true).
  { intros p Hp. unfold passes, wanted. rewrite (Hrel p Hp).
    destruct (has_excluded cfg (name p)) eqn:Hx; simpl.
    - split; [discriminate | intros H; by destruct H].
    - destruct (Hgood p Hp Hx) as [-> _]. split; [discriminate | reflexivity]. }
  assert (Hcount : length (filter (passes cfg browser_name source) (tree src source)) = 2%nat).
  { rewrite (filter_ext_in _ _ _ Hpass).
    pose proof (length_filter_split (λ p, has_excluded cfg (name p) = true) (tree src source)).
    lia. }
  pose proof (backup_copies_exactly e cfg src backup_root browser_name source s
                Hknown Hmk Hempty Hfresh Htree) as Hsize.
  rewrite Hcount in Hsize.
  assert (Hok : ∀ p, p ∈ tree src source → passes cfg browser_name source p →
            copied_ok e cfg src (parent p)
              (dest_of backup_root browser_name source ++ relative_to (parent p) source)
              (name p) = true).
  { intros p Hp Hpp. apply Hgood; [exact Hp|].
    apply Hpass in Hpp; [|exact Hp]. by destruct (has_excluded cfg (name p)). }
  destruct (backup_browser_success_iff e cfg src backup_root browser_name [source] s)
    as (b & s' & Hrun & _ & Hb).
  rewrite Hrun in Hsize. simpl in Hsize.
  exists s'. split; [|apply Hsize].
  - assert (b = true) as ->; [|exact Hrun].
    apply Hb; [exact Hfresh | exact Htree | apply distinct_names_single |].
    rewrite (reached_every_source e cfg src backup_root browser_name [source] Hknown)
      by (by intros x [<-|[]]).
    destruct (filter (passes cfg browser_name source) (tree src source)) as [|p rest] eqn:Ef;
      [discriminate|].
    assert (Hin : p ∈ filter (passes cfg browser_name source) (tree src source))
      by (rewrite Ef; left).
    apply list_elem_of_filter in Hin as [Hpp Hp].
    exists (parent p), (dest_of backup_root browser_name source ++ relative_to (parent p) source),
      (name p).
    split; [|by apply Hok].
    by apply (job_of_passing cfg src backup_root browser_name source).
  - intros p Hp Hpp. specialize (Hok p Hp Hpp).
    unfold copied_ok in Hok. apply andb_prop in Hok as [Hm Ha].
    unfold copy_returns. rewrite Hm. simpl.
    destruct (arrives e src _ _); [reflexivity | discriminate].
Qed.

(** ** CopyEngine: the claims *)

(** C1, amended. CopyEngine isolates per-file failures. Take a task that
    writes into a fresh directory (nothing lies below
    [backup_root/browser_name] and no regular file lies at it or above it),
    from source trees with distinct names. When the FileSelector cannot
    raise and the directory of each source can be made, [backup_browser]
    returns, and every file that passes the two filters is attempted
    whatever happened to the other files: if [mkdir] and [copy2] returned
    for it, its destination exists, and otherwise an [Error copying] record
    names it; a file that was copied and verified sets the flag. A hash
    mismatch is not recorded: when no call raises, the log is left as it
    was, whatever bytes the copies wrote. *)
Theorem copy_engine_isolates_failures (e : env) (cfg : config) (src : disk)
    (backup_root : path) (browser_name : string) (source_paths : list path) (s : state) :
  known_options cfg = true →
  (∀ source, In source source_paths →
     mkdir_fails e (dest_of backup_root browser_name source) = false) →
  fresh (fs s) (backup_root ++ [browser_name]) = true →
  tree_like src = true →
  distinct_names source_paths = true →
  ∃ b s',
    backup_browser e cfg src backup_root browser_name source_paths s = (Ok b, s')
    ∧ (∀ root d file,
         job cfg src backup_root browser_name source_paths root d file →
         attempted e cfg src root d file s')
    ∧ ((∀ root d file,
          job cfg src backup_root browser_name source_paths root d file →
          nothing_raises e src root d file) →
       log s' = log s).
Proof.
  intros Hknown Hmk Hfresh Htree Hnames.
  destruct (backup_browser_forward e cfg src backup_root browser_name source_paths s
              Hknown Hmk Hfresh Htree Hnames) as (b & s' & Hrun & _ & Hatt & Hquiet).
  by exists b, s'.
Qed.

(** C2, amended. [backup_browser] returns its flag, and the flag is true
    if and only if a file was copied successfully during the invocation: a
    file that passes the filters, in a source that the loop over the
    sources got through, for which [mkdir] and [copy2] returned and
    [verify_copy] answered [True]. A fault outside the per-file handler
    ends the loop and does not reset the flag. "Only if" holds whatever is
    on the disk; "if" holds for a task that writes into a fresh directory,
    from source trees with distinct names. For a source tree of three files
    of which one has an excluded substring in its name, and the other two
    are selected by the FileSelector and copied without fault into a fresh
    backup directory, exactly two files are copied and the flag is true. *)
Theorem copy_engine_success_flag :
  (∀ (e : env) (cfg : config) (src : disk) (backup_root : path) (browser_name : string)
     (source_paths : list path) (s : state),
     ∃ b s',
       backup_browser e cfg src backup_root browser_name source_paths s = (Ok b, s')
       ∧ (b = true →
          ∃ root d file,
            job cfg src backup_root browser_name
              (reached e cfg src backup_root browser_name source_paths) root d file
            ∧ copied_ok e cfg src root d file = true)
       ∧ (fresh (fs s) (backup_root ++ [browser_name]) = true →
          tree_like src = true →
          distinct_names source_paths = true →
          (∃ root d file,
             job cfg src backup_root browser_name
               (reached e cfg src backup_root browser_name source_paths) root d file
             ∧ copied_ok e cfg src root d file = true) →
          b = true))
  ∧ (∀ (e : env) (cfg : config) (src : disk) (backup_root : path) (browser_name : string)
       (source : path) (s : state),
       known_options cfg = true →
       mkdir_fails e (dest_of backup_root browser_name source) = false →
       files (fs s) = ∅ →
       fresh (fs s) (backup_root ++ [browser_name]) = true →
       tree_like src = true →
       length (tree src source) = 3%nat →
       length (filter (λ p, has_excluded cfg (name p) = true) (tree src source)) = 1%nat →
       (∀ p, p ∈ tree src source → has_excluded cfg (name p) = false →
          _should_backup_file cfg (path_str (relative_to p source)) browser_name = Ok true
          ∧ copied_ok e cfg src (parent p)
              (dest_of backup_root browser_name source ++ relative_to (parent p) source)
              (name p) = true) →
       ∃ s', backup_browser e cfg src backup_root browser_name [source] s = (Ok true, s')
             ∧ size (files (fs s')) = 2%nat).
Proof. split; [apply backup_browser_success_iff | apply three_files_one_excluded]. Qed.

(** C7, amended. A file whose name contains an excluded substring is
    skipped: the engine leaves the path of its copy as it was, so it never
    creates it; and a source root whose path contains an excluded substring
    is dropped by [_validate_paths]. (A file whose directory, below the
    source root, contains such a substring is not skipped for that.) *)
Theorem excluded_names_never_copied :
  (∀ (e : env) (cfg : config) (src : disk) (backup_root : path) (browser_name : string)
     (source_paths : list path) (s : state) (source root : path) (file : string),
     has_excluded cfg file = true →
     files (fs (backup_browser e cfg src backup_root browser_name source_paths s).2)
       !! ((dest_of backup_root browser_name source ++ relative_to root source) ++ [file])
     = files (fs s)
       !! ((dest_of backup_root browser_name source ++ relative_to root source) ++ [file]))
  ∧ (∀ (cfg : config) (src : disk) (paths : Py.dict (list path)) (browser : string)
       (ps : list path) (p : path),
       In (browser, ps) (_validate_paths cfg src paths) → In p ps →
       has_excluded cfg (path_str p) = false).
Proof.
  split.
  - intros e cfg src backup_root browser_name source_paths s source root file Hx.
    apply backup_browser_keeps_excluded. by rewrite name_snoc.
  - intros cfg src paths browser ps p Hin Hp.
    by destruct (validate_paths_excluded cfg src paths browser ps p Hin Hp).
Qed.

(** ** RestoreEngine *)

Lemma tree_like_intro (d : disk) :
  (∀ p q, is_Some (files d !! p) → is_Some (files d !! q) → p `prefix_of` q → p = q) →
  tree_like d = true.
Proof.
  intros H. unfold tree_like. apply forallb_forall. intros p Hp.
  apply forallb_forall. intros q Hq. apply bool_decide_eq_true.
  apply H; by apply elem_of_file_paths, list_elem_of_In.
Qed.

Section restore.
Variables (e : env) (backup : disk) (source_path dest_path : path).

Abbreviation entry := (restore_entry e backup source_path dest_path).
Abbreviation dst q := (dest_path ++ relative_to q source_path).

(** The body of the loop, case by case. *)
Lemma restore_entry_cases (src_file : path) (s : state) :
  entry src_file s =
  if scan_fails e src_file then (Raise (OSError src_file), s)
  else match files backup !! src_file with
       | None => (Ok tt, s)
       | Some c =>
           let dd := parent (dst src_file) in
           if mkdir_fails e dd || file_above (fs s) dd
           then (Ok tt, log_add (ERROR, Error_restoring src_file (OSError dd)) s)
           else
             let s1 := with_fs (make_dir dd) s in
             let t := copy2_target (fs s1) src_file (dst src_file) in
             if can_create (fs s1) t then
               match copy2_outcome e src_file (dst src_file) with
               | Copy_ok => (Ok tt, with_fs (write_file t c) s1)
               | Copy_corrupt c' => (Ok tt, with_fs (write_file t c') s1)
               | Copy_raises None =>
                   (Ok tt, log_add (ERROR, Error_restoring src_file (OSError t)) s1)
               | Copy_raises (Some c') =>
                   (Ok tt, log_add (ERROR, Error_restoring src_file (OSError t))
                             (with_fs (write_file t c') s1))
               end
             else (Ok tt, log_add (ERROR, Error_restoring src_file (OSError t)) s1)
       end.
Proof.
  unfold restore_entry, is_file.
  destruct (scan_fails e src_file); [reflexivity|].
  destruct (files backup !! src_file) as [c|] eqn:Esrc.
  2:{ rewrite bool_decide_eq_false_2 by (by intros [? ?]). reflexivity. }
  rewrite bool_decide_eq_true_2 by eauto. cbv zeta.
  unfold try_except, bind. rewrite mkdir_run.
  destruct (mkdir_fails e _ || file_above (fs s) _); [reflexivity|].
  rewrite copy2_run, Esrc. cbv zeta.
  destruct (can_create _ _); [|reflexivity].
  destruct (copy2_outcome e _ _) as [| |[|]]; reflexivity.
Qed.

Lemma copy2_target_cases (d : disk) (a b : path) :
  copy2_target d a b = b ∨ copy2_target d a b = b ++ [name a].
Proof. unfold copy2_target. destruct (is_dir d b); auto. Qed.

(** One entry whose scan succeeds, whatever is on the disk: the entry
    returns, takes nothing away, and writes at most the copy of a file of
    the backup, at its destination or in the directory that lies there. *)
Lemma restore_entry_any (src_file : path) (s : state) :
  scan_fails e src_file = false →
  ∃ s', entry src_file s = (Ok tt, s')
    ∧ grows s s'
    ∧ (∀ p, files (fs s') !! p ≠ files (fs s) !! p →
         is_Some (files backup !! src_file)
         ∧ (p = dst src_file ∨ p = dst src_file ++ [name src_file]))
    ∧ ((∀ a b, copy2_outcome e a b = Copy_raises None) → files (fs s') = files (fs s)).
Proof.
  intros Hscan. rewrite restore_entry_cases, Hscan.
  destruct (files backup !! src_file) as [c|] eqn:Esrc.
  2:{ exists s. split_and!; [done | reflexivity | done | done]. }
  cbv zeta.
  destruct (mkdir_fails e _ || file_above (fs s) _).
  { eexists. split; [reflexivity|].
    split_and!; [apply grows_log_add | by intros p Hp | done]. }
  set (dd := parent (dst src_file)).
  set (s1 := with_fs (make_dir dd) s).
  set (t := copy2_target (fs s1) src_file (dst src_file)).
  assert (Ht : t = dst src_file ∨ t = dst src_file ++ [name src_file])
    by apply copy2_target_cases.
  assert (Hg1 : grows s s1) by apply grows_make_dir.
  assert (Hw : ∀ w, grows s (with_fs (write_file t w) s1)).
  { intros w. etrans; [exact Hg1|]. split; simpl; auto.
    intros p Hp. rewrite lookup_insert_is_Some. destruct (decide (t = p)); auto. }
  assert (Hch : ∀ w p, files (fs (with_fs (write_file t w) s1)) !! p ≠ files (fs s) !! p →
            is_Some (Some c) ∧ (p = dst src_file ∨ p = dst src_file ++ [name src_file])).
  { intros w p. simpl. destruct (decide (t = p)) as [<-|Hne].
    - intros _. split; [eauto | exact Ht].
    - rewrite lookup_insert_ne by done. done. }
  destruct (can_create (fs s1) t).
  2:{ eexists. split; [reflexivity|].
      split_and!; [etrans; [exact Hg1 | apply grows_log_add] | by intros p Hp | done]. }
  destruct (copy2_outcome e src_file (dst src_file)) as [|c'|[c'|]] eqn:Eout.
  - eexists. split; [reflexivity|]. split_and!; [apply Hw | apply Hch |].
    intros Hall. rewrite Hall in Eout. discriminate.
  - eexists. split; [reflexivity|]. split_and!; [apply Hw | apply Hch |].
    intros Hall. rewrite Hall in Eout. discriminate.
  - eexists. split; [reflexivity|].
    split_and!; [etrans; [apply (Hw c') | apply grows_log_add] | apply Hch |].
    intros Hall. rewrite Hall in Eout. discriminate.
  - eexists. split; [reflexivity|].
    split_and!; [etrans; [exact Hg1 | apply grows_log_add] | by intros p Hp | done].
Qed.

Lemma restore_entry_scan (src_file : path) (s : state) :
  scan_fails e src_file = true → entry src_file s = (Raise (OSError src_file), s).
Proof. intros Hscan. by rewrite restore_entry_cases, Hscan. Qed.

(** The loop of the restore returns exactly when no scan fails. *)
Lemma restore_loop_result (entries : list path) (s : state) :
  (for_each entries entry s).1 = Ok tt ↔ ∀ p, p ∈ entries → scan_fails e p = false.
Proof.
  revert s. induction entries as [|x entries IH]; intros s; simpl.
  - split; [intros _ p Hp; inversion Hp | reflexivity].
  - unfold bind. destruct (scan_fails e x) eqn:Hx.
    + rewrite (restore_entry_scan x s Hx). simpl.
      split; [discriminate|]. intros H. specialize (H x (list_elem_of_here _ _)). congruence.
    + destruct (restore_entry_any x s Hx) as (s' & -> & _). rewrite IH.
      split; [intros H p Hp | intros H p Hp].
      * apply elem_of_cons in Hp as [->|Hp]; [exact Hx | by apply H].
      * apply H. by right.
Qed.

Lemma count_entries_result (entries : list path) :
  (∃ n, count_entries e backup entries = Ok n) ↔ ∀ p, p ∈ entries → scan_fails e p = false.
Proof.
  induction entries as [|x entries IH]; simpl.
  - split; [intros _ p Hp; inversion Hp | by eexists].
  - destruct (scan_fails e x) eqn:Hx.
    + split; [intros [n Hn]; discriminate|].
      intros H. specialize (H x (list_elem_of_here _ _)). congruence.
    + split.
      * intros [n Hn] p [->|Hp]%elem_of_cons; [exact Hx|].
        apply IH; [|exact Hp]. destruct (count_entries e backup entries); [eauto | discriminate].
      * intros H. destruct (proj2 IH) as [n ->]; [|by eexists].
        intros p Hp. apply H. by right.
Qed.

(** What one entry does, whether its scan fails or not. *)
Lemma restore_entry_step (x : path) (s : state) :
  grows s (entry x s).2
  ∧ (∀ p, files (fs (entry x s).2) !! p ≠ files (fs s) !! p →
       is_Some (files backup !! x) ∧ (p = dst x ∨ p = dst x ++ [name x]))
  ∧ ((∀ a b, copy2_outcome e a b = Copy_raises None) →
     files (fs (entry x s).2) = files (fs s)).
Proof.
  destruct (scan_fails e x) eqn:Hx.
  - rewrite (restore_entry_scan x s Hx). simpl. split_and!; [reflexivity | by intros p Hp | done].
  - destruct (restore_entry_any x s Hx) as (s' & -> & Hg & Hch & Hnone). by simpl.
Qed.

(** When every copy raises without writing, the loop writes no file. *)
Lemma restore_loop_nothing (entries : list path) (s : state) :
  (∀ a b, copy2_outcome e a b = Copy_raises None) →
  files (fs (for_each entries entry s).2) = files (fs s).
Proof.
  intros Hfail.
  apply (for_each_preserves (λ s', files (fs s') = files (fs s))); [|reflexivity].
  intros p s1 _ <-. by apply restore_entry_step.
Qed.

(** The loop takes nothing away and writes only copies of its entries. *)
Lemma restore_loop_changes (entries : list path) (s : state) :
  grows s (for_each entries entry s).2
  ∧ ∀ p, files (fs (for_each entries entry s).2) !! p ≠ files (fs s) !! p →
      ∃ q, In q entries ∧ is_Some (files backup !! q) ∧ (p = dst q ∨ p = dst q ++ [name q]).
Proof.
  apply (for_each_preserves
           (λ s', grows s s'
                  ∧ ∀ p, files (fs s') !! p ≠ files (fs s) !! p →
                      ∃ q, In q entries ∧ is_Some (files backup !! q)
                           ∧ (p = dst q ∨ p = dst q ++ [name q]))).
  2:{ split; [reflexivity | by intros p Hp]. }
  intros x s1 Hx [Hg Hch].
  destruct (restore_entry_step x s1) as (Hg1 & Hch1 & _).
  split; [by etrans|]. intros p Hp.
  destruct (decide (files (fs (entry x s1).2) !! p = files (fs s1) !! p)) as [Heq|Hne].
  - apply Hch. by rewrite <- Heq.
  - destruct (Hch1 p Hne) as [Hfile Hat]. by exists x.
Qed.

(** *** Into a fresh destination *)

Hypothesis backup_is_tree : tree_like backup = true.

Abbreviation RInv s := (restore_made backup source_path dest_path (fs s)).

Lemma fresh_restore_made (d : disk) :
  fresh d dest_path = true → restore_made backup source_path dest_path d.
Proof.
  intros [Hfiles Hbelow]%fresh_spec. split.
  - intros p Hp. left. split; [by apply Hfiles|]. intros Hpre.
    destruct (decide (length dest_path < length p)%nat) as [Hlt|Hge].
    + apply (Hbelow p); [|done]. apply elem_of_all_paths. by left.
    + apply (Hfiles p Hp). assert (dest_path = p) as <-; [|done].
      apply prefix_same_length; [done|]. apply prefix_length in Hpre. lia.
  - intros q Hq. left. apply Hbelow, elem_of_all_paths. by right.
Qed.

(** Two files of the backup whose destinations are nested are the same. *)
Lemma dst_nested (q q' : path) :
  is_Some (files backup !! q) → below source_path q →
  is_Some (files backup !! q') → below source_path q' →
  dst q `prefix_of` dst q' → q = q'.
Proof.
  intros Hq [Hb _] Hq' [Hb' _] Hpre.
  apply prefix_app_inv in Hpre.
  apply (tree_like_spec backup); [done..|].
  rewrite <- (relative_to_below source_path q Hb), <- (relative_to_below source_path q' Hb').
  by apply prefix_app.
Qed.

Lemma dst_snoc (q : path) :
  below source_path q →
  dst q = (dest_path ++ relative_to (parent q) source_path) ++ [name q].
Proof.
  intros Hb. pose proof (below_nonempty _ _ Hb) as Hne.
  rewrite <- (parent_name q Hne) at 1. rewrite relative_to_snoc, app_assoc; [done|].
  apply below_snoc with (file := name q). by rewrite parent_name.
Qed.

Lemma dst_split (q : path) :
  below source_path q → dst q = parent (dst q) ++ [name (dst q)] ∧ name (dst q) = name q.
Proof.
  intros Hb. rewrite (dst_snoc q Hb), parent_snoc, name_snoc. done.
Qed.

(** No copy goes onto, or below, the directory of another copy. *)
Lemma dst_not_above_dir (q q' : path) :
  is_Some (files backup !! q) → below source_path q →
  is_Some (files backup !! q') → below source_path q' →
  ¬ dst q `prefix_of` parent (dst q').
Proof.
  intros Hq Hb Hq' Hb' Hpre.
  destruct (dst_split q Hb) as [Hsplit _].
  assert (q = q') as <-.
  { apply (dst_nested q q'); try done. etrans; [exact Hpre|].
    destruct (dst_split q' Hb') as [Hs' _]. rewrite Hs' at 2. by apply prefix_app_r. }
  apply prefix_length in Hpre. rewrite Hsplit in Hpre at 1.
  rewrite length_app in Hpre. simpl in Hpre. lia.
Qed.

(** Under the invariant nothing is in the way of the copy of a file. *)
Lemma restore_clear (s : state) (q : path) :
  RInv s → is_Some (files backup !! q) → below source_path q →
  file_above (fs s) (parent (dst q)) = false ∧ is_dir (fs s) (dst q) = false.
Proof.
  intros [Hfiles Hdirs] Hq Hb.
  destruct (dst_split q Hb) as [Hsplit _].
  assert (Hdest : dest_path `prefix_of` parent (dst q)).
  { destruct Hb as [Hpre Hlen]. exists (parent (relative_to q source_path)).
    unfold parent. rewrite removelast_app; [done|].
    intros Hnil. apply (f_equal length) in Hnil. unfold relative_to in Hnil.
    rewrite length_drop in Hnil. simpl in Hnil. lia. }
  split.
  - apply file_above_false. intros p Hp Hpre.
    destruct (Hfiles p Hp) as [[H1 H2]|(q' & Hq' & Hb' & ->)].
    + destruct (prefix_weak_total _ _ _ Hpre Hdest); done.
    + by apply (dst_not_above_dir q' q).
  - apply is_dir_false.
    destruct (files (fs s) !! dst q) as [c|] eqn:Efile; [left; eauto | right].
    intros k Hk Hpre.
    assert (Hdk : dest_path `prefix_of` k).
    { etrans; [|exact Hpre]. by apply prefix_app_r. }
    apply elem_of_all_paths in Hk as [Hk|Hk].
    + destruct (Hfiles k Hk) as [[H1 H2]|(q' & Hq' & Hb' & ->)]; [done|].
      assert (q = q') as <- by (by apply (dst_nested q q')).
      rewrite Efile in Hk. by destruct Hk.
    + destruct (Hdirs k Hk) as [H|(q' & Hq' & Hb' & ->)].
      * apply H. split; [exact Hdk|].
        apply prefix_length in Hpre. rewrite Hsplit in Hpre.
        apply prefix_length in Hdest. rewrite length_app in Hpre. simpl in Hpre. lia.
      * by apply (dst_not_above_dir q q').
Qed.

Lemma dst_inj (q q' : path) :
  below source_path q → below source_path q' → dst q = dst q' → q = q'.
Proof.
  intros [H1 _] [H2 _] Heq. apply app_inv_head in Heq.
  rewrite <- (relative_to_below source_path q H1), <- (relative_to_below source_path q' H2).
  by rewrite Heq.
Qed.

#[global] Instance keeps_restored_preorder :
  PreOrder (keeps_restored backup source_path dest_path).
Proof.
  split; [by intros s q cq | intros s1 s2 s3 H12 H23 q cq Hq Hc H1].
  by apply (H23 q cq Hq Hc), (H12 q cq Hq Hc).
Qed.

(** One entry on a machine without faults: the invariant is kept, and a
    file arrives at its destination. *)
Lemma restore_entry_clear (x : path) (s : state) :
  (∀ q, mkdir_fails e q = false) →
  (∀ a b, copy2_outcome e a b = Copy_ok) →
  (∀ q, scan_fails e q = false) →
  below source_path x → RInv s →
  (entry x s).1 = Ok tt ∧ RInv (entry x s).2
  ∧ keeps_restored backup source_path dest_path s (entry x s).2
  ∧ ∀ cx, files backup !! x = Some cx → files (fs (entry x s).2) !! dst x = Some cx.
Proof.
  intros Hmk Hcp Hscan Hb Hinv. rewrite restore_entry_cases, Hscan.
  destruct (files backup !! x) as [cx|] eqn:Hx.
  2:{ simpl. split_and!; [done | done | reflexivity | done]. }
  destruct (restore_clear s x Hinv) as [Habove Hdir]; [eauto | done |].
  pose proof (copy2_onto_file (fs s) x (parent (dst x)) (name (dst x))) as Hon.
  rewrite <- (proj1 (dst_split x Hb)) in Hon.
  destruct (Hon Habove Hdir) as [Ht Hcan].
  cbv zeta. rewrite Hmk, Habove. simpl. rewrite Ht, Hcan, Hcp. simpl.
  split; [reflexivity|]. split_and!.
  - destruct Hinv as [Hfiles Hdirs]. split; simpl.
    + intros p Hp. destruct (decide (p = dst x)) as [->|Hne].
      * right. exists x. split_and!; eauto.
      * rewrite lookup_insert_ne in Hp by done. by apply Hfiles.
    + intros k [->%elem_of_singleton|Hk]%elem_of_union; [|by apply Hdirs].
      right. exists x. split_and!; eauto.
  - intros q cq Hq Hcq H1. simpl. destruct (decide (dst x = dst q)) as [Heq|Hne].
    + apply dst_inj in Heq; [|done..]. subst q. rewrite lookup_insert_eq. congruence.
    + by rewrite lookup_insert_ne.
  - intros cx' [= <-]. simpl. apply lookup_insert_eq.
Qed.

End restore.

(** C10. [restore_browser] always returns, and it returns [True] exactly
    when the source path exists and no fault occurs outside the per-file
    handler (here: while [rglob] scans the backup), whatever happens to the
    copies; when every copy fails, no file is written. *)
Theorem restore_browser_result (e : env) (backup : disk) (browser_name : string)
    (source_path dest_path : path) (s : state) :
  ∃ b s',
    restore_browser e backup browser_name source_path dest_path s = (Ok b, s')
    ∧ (b = true ↔ exists_ backup source_path = true
                  ∧ ∀ p, p ∈ rglob backup source_path → scan_fails e p = false)
    ∧ ((∀ a b, copy2_outcome e a b = Copy_raises None) → files (fs s') = files (fs s)).
Proof.
  unfold restore_browser, try_except.
  destruct (exists_ backup source_path) eqn:Hex; simpl.
  2:{ eexists _, _. split; [reflexivity|]. split; [|reflexivity].
      split; [discriminate | intros [? _]; discriminate]. }
  pose proof (restore_loop_result e backup source_path dest_path (rglob backup source_path) s)
    as Hres.
  pose proof (restore_loop_nothing e backup source_path dest_path (rglob backup source_path) s)
    as Hnone.
  pose proof (count_entries_result e backup (rglob backup source_path)) as Hcount.
  unfold bind, lift.
  destruct (count_entries e backup (rglob backup source_path)) as [n|ex0]; simpl.
  2:{ eexists _, _. split; [reflexivity|]. split; [|reflexivity].
      split; [discriminate|]. intros [_ H]. apply Hcount in H as [n Hn]. discriminate. }
  destruct (for_each (rglob backup source_path) _ s) as [[[]|ex] s1]; simpl in *.
  - eexists _, _. split; [reflexivity|]. split; [|exact Hnone].
    split; [intros _; split; [reflexivity | by apply Hres] | reflexivity].
  - eexists _, _. split; [reflexivity|]. split; [|exact Hnone].
    split; [discriminate|]. intros [_ H]. apply Hres in H. discriminate.
Qed.

(** With no fault, the restore into a fresh destination mirrors the tree
    below [source_path] under [dest_path], path for path and byte for
    byte, and makes nothing else there. *)
Lemma restore_mirrors (e : env) (backup : disk) (browser_name : string)
    (source_path dest_path : path) (s : state) :
  (∀ q, mkdir_fails e q = false) →
  (∀ a b, copy2_outcome e a b = Copy_ok) →
  (∀ q, scan_fails e q = false) →
  fresh (fs s) dest_path = true →
  tree_like backup = true →
  let s' := (restore_browser e backup browser_name source_path dest_path s).2 in
  restore_made backup source_path dest_path (fs s')
  ∧ ∀ p c, files backup !! p = Some c → below source_path p →
      files (fs s') !! (dest_path ++ relative_to p source_path) = Some c.
Proof.
  intros Hmk Hcp Hscan Hfresh Htree s'. subst s'.
  pose proof (fresh_restore_made backup source_path dest_path (fs s) Hfresh) as Hinv.
  destruct (for_each_inv (λ s1, restore_made backup source_path dest_path (fs s1))
              (keeps_restored backup source_path dest_path)
              (λ x s1, below source_path x → ∀ cx, files backup !! x = Some cx →
                 files (fs s1) !! (dest_path ++ relative_to x source_path) = Some cx)
              (rglob backup source_path)
              (restore_entry e backup source_path dest_path) s)
    as (Hok & Hinv' & _ & Hall); [| |exact Hinv|].
  { intros x s1 Hx Hinv1.
    apply list_elem_of_In, list_elem_of_filter in Hx as [Hbx _].
    destruct (restore_entry_clear e backup source_path dest_path Htree x s1)
      as (H1 & H2 & H3 & H4); done. }
  { intros x s1 s2 HQ H12 Hbx cx Hcx. apply (H12 x cx); [done | done | by apply HQ]. }
  unfold restore_browser, try_except.
  destruct (exists_ backup source_path) eqn:Hex; simpl.
  2:{ split; [exact Hinv|]. intros p c Hp Hb. exfalso.
      rewrite (exists_below backup source_path p) in Hex; [done | eauto | apply Hb]. }
  unfold bind, lift.
  destruct (proj2 (count_entries_result e backup (rglob backup source_path))) as [n ->];
    [intros q _; apply Hscan|].
  destruct (for_each (rglob backup source_path) _ s) as [r s1]. simpl in *. subst r. simpl.
  split; [exact Hinv'|]. intros p c Hp Hb. apply Hall; [|exact Hb|exact Hp].
  apply list_elem_of_In, list_elem_of_filter. split; [exact Hb|].
  apply elem_of_all_paths. left. eauto.
Qed.

(** * Further properties *)

(** ** Dictionaries, continued *)

(** Reading a dictionary after a series of updates: the last update of
    the key, or what was there. *)
Lemma get_fold_set {V} (items : list (string * V)) (d : Py.dict V) k :
  Py.get (fold_left (λ d kv, Py.set d kv.1 kv.2) items d) k
  = match Py.get (Py.of_items items) k with
    | Some v => Some v
    | None => Py.get d k
    end.
Proof.
  unfold Py.of_items. induction items as [|[k0 v0] items IH] using rev_ind; [reflexivity|].
  rewrite !fold_left_app. simpl. rewrite !get_set, IH.
  destruct (String.eqb k0 k); reflexivity.
Qed.

(** [dict(items)] of items with distinct keys reads like the items. *)
Lemma get_of_items_NoDup {V} (d : Py.dict V) k :
  NoDup (Py.keys d) → Py.get (Py.of_items d) k = Py.get d k.
Proof.
  induction d as [|[k0 v0] d IH]; intros Hnd; [reflexivity|].
  unfold Py.keys in Hnd. simpl in Hnd. apply NoDup_cons in Hnd as [Hk0 Hnd].
  unfold Py.of_items. simpl.
  rewrite (get_fold_set d [(k0, v0)] k). rewrite IH by exact Hnd. simpl.
  destruct (String.eqb_spec k0 k) as [->|Hne]; [|by destruct (Py.get d k)].
  apply get_None_keys in Hk0. by rewrite Hk0.
Qed.

(** [dict(items)] of items with distinct keys is the list of the items. *)
Lemma of_items_NoDup {V} (items : list (string * V)) :
  NoDup (Py.keys items) → Py.of_items items = items.
Proof.
  intros Hnd. unfold Py.of_items.
  assert (Hgen : ∀ acc : Py.dict V, NoDup (Py.keys acc ++ Py.keys items) →
            fold_left (λ d kv, Py.set d kv.1 kv.2) items acc = acc ++ items).
  { clear Hnd. induction items as [|[k v] items IH]; intros acc Hnd; simpl.
    - by rewrite app_nil_r.
    - unfold Py.keys in Hnd. simpl in Hnd.
      assert (Hfresh : k ∉ Py.keys acc).
      { apply NoDup_app in Hnd as (_ & Hdisj & _). intros Hin. apply (Hdisj _ Hin). left. }
      rewrite set_fresh by exact Hfresh. rewrite IH.
      + by rewrite <- app_assoc.
      + unfold Py.keys. rewrite fmap_app. simpl. by rewrite <- app_assoc. }
  apply (Hgen []). exact Hnd.
Qed.

(** ** Configuration, continued *)

(** X1. [load_config] merges per top-level field. When the file holds a
    JSON object, a key of the loaded configuration has the value of the
    file if the file has the key, and the default otherwise: a [browsers]
    or [backup_options] object of the file replaces the default one as a
    whole, and a key that the defaults lack is kept. Whatever is found,
    every key of [default_config] is present afterwards. *)
Theorem load_config_merges_top_level_fields :
  (∀ members k,
     Py.get (loaded_config (load_config (Parsed (JObj members)))) k
     = match Py.get (Py.of_items members) k with
       | Some v => Some v
       | None => Py.get default_config k
       end)
  ∧ (∀ f k, k ∈ Py.keys default_config →
       is_Some (Py.get (loaded_config (load_config f)) k)).
Proof.
  assert (Hmerge : ∀ members k,
     Py.get (loaded_config (load_config (Parsed (JObj members)))) k
     = match Py.get (Py.of_items members) k with
       | Some v => Some v
       | None => Py.get default_config k
       end).
  { intros members k.
    change (loaded_config (load_config (Parsed (JObj members))))
      with (Py.merge default_config (Py.of_items members)).
    unfold Py.merge. rewrite get_fold_set. rewrite get_of_items_NoDup; [reflexivity|].
    apply keys_fold_set_NoDup. constructor. }
  split; [exact Hmerge|].
  intros f k Hk.
  assert (Hdef : is_Some (Py.get default_config k)).
  { destruct (Py.get default_config k) eqn:E; [eauto|].
    apply get_None_keys in E. done. }
  destruct f as [[]| | |[| | | | |members]]; try exact Hdef.
  rewrite Hmerge. destruct (Py.get (Py.of_items members) k); [eauto | exact Hdef].
Qed.

(** ** PathCatalog *)

Lemma validate_paths_map (cfg : config) (src : disk) (paths : Py.dict (list path)) :
  NoDup (Py.keys paths) →
  _validate_paths cfg src paths
  = map (λ kv, (kv.1, List.filter (kept cfg src) kv.2))
        (List.filter (λ kv, enabled cfg kv.1) paths).
Proof.
  intros Hnd. unfold _validate_paths.
  assert (Hgen : ∀ acc : Py.dict (list path), NoDup (Py.keys acc ++ Py.keys paths) →
    fold_left
      (λ validated_paths kv,
         if negb (Py.get_default (browsers cfg) kv.1 true) then validated_paths
         else Py.set validated_paths kv.1
                (List.filter (λ p, exists_ src p && negb (has_excluded cfg (path_str p))) kv.2))
      paths acc
    = acc ++ map (λ kv, (kv.1, List.filter (kept cfg src) kv.2))
               (List.filter (λ kv, enabled cfg kv.1) paths)).
  { clear Hnd. induction paths as [|[browser ps] paths IH]; intros acc Hnd; simpl.
    - by rewrite app_nil_r.
    - unfold Py.keys in Hnd. simpl in Hnd. unfold enabled at 1. simpl.
      assert (Hfresh : browser ∉ Py.keys acc).
      { apply NoDup_app in Hnd as (_ & Hdisj & _). intros Hin. apply (Hdisj _ Hin). left. }
      destruct (Py.get_default (browsers cfg) browser true); simpl.
      + rewrite set_fresh by exact Hfresh. rewrite IH.
        * by rewrite <- app_assoc.
        * unfold Py.keys. rewrite fmap_app. simpl. by rewrite <- app_assoc.
      + apply IH. apply NoDup_app in Hnd as (Hacc & Hdisj & [_ Hrest]%NoDup_cons).
        apply NoDup_app. split_and!; [done | | done].
        intros x Hx Hx'. apply (Hdisj x Hx). by right. }
  apply (Hgen []). exact Hnd.
Qed.

(** X2. For a table with distinct browser names, [_validate_paths] keeps
    the browsers that the configuration does not switch off, in the order
    of the table (a browser that [config["browsers"]] lacks is on), each
    with those of its paths that exist and hold no excluded substring. An
    enabled browser keeps its entry when none of its paths is left. *)
Theorem validate_paths_spec (cfg : config) (src : disk) (paths : Py.dict (list path)) :
  NoDup (Py.keys paths) →
  _validate_paths cfg src paths
  = map (λ kv, (kv.1, List.filter (kept cfg src) kv.2))
        (List.filter (λ kv, enabled cfg kv.1) paths).
Proof. apply validate_paths_map. Qed.

(** The keys of a comprehension with a condition on the key. *)
Lemma keys_map_filter {V W} (f : string → V → W) (P : string → bool) (d : Py.dict V) :
  Py.keys (map (λ kv, (kv.1, f kv.1 kv.2)) (List.filter (λ kv, P kv.1) d))
  = List.filter P (Py.keys d).
Proof.
  unfold Py.keys. induction d as [|[k v] d IH]; [reflexivity|]. simpl.
  destruct (P k); simpl; by rewrite IH.
Qed.

(** The comprehension of the platform tables, for distinct browser names. *)
Lemma existing_map (src : disk) (paths : Py.dict (list path)) :
  NoDup (Py.keys paths) →
  BrowserBackup.existing src paths
  = map (λ kv, (kv.1, List.filter (exists_ src) kv.2)) paths.
Proof.
  intros Hnd. unfold BrowserBackup.existing. apply of_items_NoDup.
  unfold Py.keys in *. rewrite <- list_fmap_compose.
  erewrite list_fmap_ext; [exact Hnd|]. by intros i [k v] _.
Qed.

(** The browsers of the platform tables. *)
Lemma platform_paths_keys (h : host) (src : disk) :
  NoDup (Py.keys (BrowserBackup.platform_paths h src))
  ∧ Py.keys (BrowserBackup.platform_paths h src)
    = if String.eqb (system h) "Windows"
      then ["chrome"; "firefox"; "edge"; "brave"; "opera"; "operagx"; "vivaldi"]
      else if String.eqb (system h) "Linux"
      then ["chrome"; "firefox"; "brave"; "opera"; "operagx"; "vivaldi"]
      else if String.eqb (system h) "Darwin"
      then ["chrome"; "firefox"; "edge"; "brave"; "opera"; "operagx"; "vivaldi"]
      else [].
Proof.
  unfold BrowserBackup.platform_paths, BrowserBackup._get_windows_paths,
    BrowserBackup._get_linux_paths, BrowserBackup._get_macos_paths.
  assert (H7 : NoDup ["chrome"; "firefox"; "edge"; "brave"; "opera"; "operagx"; "vivaldi"]).
  { apply (bool_decide_unpack _). by vm_compute. }
  assert (H6 : NoDup ["chrome"; "firefox"; "brave"; "opera"; "operagx"; "vivaldi"]).
  { apply (bool_decide_unpack _). by vm_compute. }
  destruct (String.eqb (system h) "Windows").
  { rewrite existing_map by exact H7. split; [exact H7 | reflexivity]. }
  destruct (String.eqb (system h) "Linux").
  { rewrite existing_map by exact H6. split; [exact H6 | reflexivity]. }
  destruct (String.eqb (system h) "Darwin").
  { rewrite existing_map by exact H7. split; [exact H7 | reflexivity]. }
  split; [constructor | reflexivity].
Qed.

(** X3. The browsers of [get_browser_paths] are the enabled browsers of
    the table of the platform, whatever exists on the disk: seven on
    Windows and macOS, six on Linux (no Edge), none on another platform.
    Each path that is listed exists and holds no excluded substring. *)
Theorem get_browser_paths_keys (h : host) (cfg : config) (src : disk) :
  Py.keys (BrowserBackup.get_browser_paths h cfg src)
  = List.filter (enabled cfg)
      (if String.eqb (system h) "Windows"
       then ["chrome"; "firefox"; "edge"; "brave"; "opera"; "operagx"; "vivaldi"]
       else if String.eqb (system h) "Linux"
       then ["chrome"; "firefox"; "brave"; "opera"; "operagx"; "vivaldi"]
       else if String.eqb (system h) "Darwin"
       then ["chrome"; "firefox"; "edge"; "brave"; "opera"; "operagx"; "vivaldi"]
       else [])
  ∧ ∀ browser ps p,
      In (browser, ps) (BrowserBackup.get_browser_paths h cfg src) → In p ps →
      exists_ src p = true ∧ has_excluded cfg (path_str p) = false.
Proof.
  destruct (platform_paths_keys h src) as [Hnd Hkeys]. split.
  - unfold BrowserBackup.get_browser_paths. rewrite validate_paths_map by exact Hnd.
    rewrite (keys_map_filter (λ _ ps, List.filter (kept cfg src) ps) (enabled cfg)).
    by rewrite Hkeys.
  - intros browser ps p. apply validate_paths_excluded.
Qed.

(** ** FileSelector, continued *)

(** X4. Selection is by substring: when a file name is selected, every
    name that contains it is selected too, for the same configuration and
    browser. *)
Theorem should_backup_file_monotone (cfg : config) (f g browser_type : string) :
  Py.str_in f g = true →
  _should_backup_file cfg f browser_type = Ok true →
  _should_backup_file cfg g browser_type = Ok true.
Proof.
  intros Hfg. unfold _should_backup_file.
  destruct (negb _); [done|]. by apply scan_options_mono.
Qed.

(** The loop over the options, when none of them raises. *)
Lemma scan_options_known (family file_name : string) (options : list (string * bool)) :
  In family ["firefox"; "opera"; "chrome_based"] →
  forallb (λ kv, negb kv.2 || known_category kv.1) options = true →
  scan_options family file_name options
  = Ok (existsb (selects family file_name) options).
Proof.
  intros Hfam. induction options as [|[data_type enabled] options IH]; simpl; [done|].
  intros [Hk Hrest]%andb_prop. unfold selects at 1. simpl.
  destruct enabled; simpl in *; [|by apply IH].
  destruct (patterns_for_known _ _ Hfam Hk) as [ps ->].
  destruct (existsb _ ps); [done | by apply IH].
Qed.

(** X5. When every enabled option is a category of the pattern table,
    [_should_backup_file] returns, and it returns [True] exactly when no
    option is enabled or a pattern of an enabled option, in the row of the
    family of the browser, is found in the file name. *)
Theorem should_backup_file_spec (cfg : config) (file_name browser_type : string) :
  known_options cfg = true →
  _should_backup_file cfg file_name browser_type
  = Ok (negb (Py.any (Py.values (backup_options cfg)))
        || existsb (selects (browser_family browser_type) file_name) (backup_options cfg)).
Proof.
  intros Hknown. unfold _should_backup_file.
  destruct (negb _); [done|]. simpl.
  apply scan_options_known; [apply browser_family_cases | exact Hknown].
Qed.

(** The family of a family name is that name. *)
Lemma browser_family_idem (browser_type : string) :
  browser_family (browser_family browser_type) = browser_family browser_type.
Proof.
  destruct (browser_family_cases browser_type) as [<-|[<-|[<-|[]]]]; by vm_compute.
Qed.

(** X6. The family of a browser is never "operagx": the answer for a
    browser is the answer for its family (firefox, opera or chrome_based),
    and the operagx row of the pattern table is never read. With the
    preferences as the only enabled option, "GX Settings", a pattern of
    that row alone, is not selected for the browser "operagx". *)
Theorem operagx_patterns_are_never_used (cfg : config) (file_name browser_type : string) :
  browser_family browser_type ≠ "operagx"
  ∧ _should_backup_file cfg file_name browser_type
    = _should_backup_file cfg file_name (browser_family browser_type)
  ∧ _should_backup_file Scenario.only_preferences "GX Settings" "operagx" = Ok false.
Proof.
  split_and!.
  - destruct (browser_family_cases browser_type) as [<-|[<-|[<-|[]]]]; discriminate.
  - unfold _should_backup_file. by rewrite browser_family_idem.
  - by vm_compute.
Qed.

(** A data type that is no category of the table is missing from every
    row that a family name selects. *)
Lemma unknown_category_raises (family data_type : string) :
  In family ["firefox"; "opera"; "chrome_based"] → known_category data_type = false →
  patterns_for family data_type = Raise (KeyError data_type).
Proof.
  intros Hfam Hunknown.
  assert (Hnot : data_type ∉ ["bookmarks"; "history"; "passwords"; "extensions";
                              "cookies"; "preferences"]).
  { intros Hin. repeat (apply elem_of_cons in Hin as [->|Hin]; [by vm_compute in Hunknown|]).
    by apply elem_of_nil in Hin. }
  unfold patterns_for.
  destruct Hfam as [<-|[<-|[<-|[]]]].
  - let t := eval vm_compute in (Py.get _get_browser_data_patterns "firefox") in
    change (Py.get _get_browser_data_patterns "firefox") with t.
    cbv beta iota. by rewrite (proj2 (get_None_keys _ data_type)).
  - let t := eval vm_compute in (Py.get _get_browser_data_patterns "opera") in
    change (Py.get _get_browser_data_patterns "opera") with t.
    cbv beta iota. by rewrite (proj2 (get_None_keys _ data_type)).
  - let t := eval vm_compute in (Py.get _get_browser_data_patterns "chrome_based") in
    change (Py.get _get_browser_data_patterns "chrome_based") with t.
    cbv beta iota. by rewrite (proj2 (get_None_keys _ data_type)).
Qed.

(** The first enabled option names no category of the pattern table. *)
Lemma first_enabled_unknown_raises (cfg : config) (pre post : list (string * bool))
    (k file_name browser_type : string) :
  backup_options cfg = pre ++ (k, true) :: post →
  (∀ o, In o pre → o.2 = false) →
  known_category k = false →
  _should_backup_file cfg file_name browser_type = Raise (KeyError k).
Proof.
  intros Hopts Hpre Hk. unfold _should_backup_file. rewrite Hopts.
  assert (Hany : Py.any (Py.values (pre ++ (k, true) :: post)) = true).
  { unfold Py.any, Py.values. apply existsb_exists. exists true. split; [|done].
    apply in_map_iff. exists (k, true). split; [done|]. apply in_or_app. right. by left. }
  rewrite Hany. simpl. clear Hopts Hany.
  induction pre as [|[k0 b0] pre IH]; simpl.
  - rewrite (unknown_category_raises _ _ (browser_family_cases browser_type) Hk). done.
  - pose proof (Hpre (k0, b0) (or_introl eq_refl)) as Hb. simpl in Hb. subst b0. simpl.
    apply IH. intros o Ho. apply Hpre. by right.
Qed.

(** ** The menu of [select_backup_options] *)

Lemma set_app_fresh {V} (d1 d2 : Py.dict V) k v :
  k ∉ Py.keys d1 → Py.set (d1 ++ d2) k v = d1 ++ Py.set d2 k v.
Proof.
  induction d1 as [|[k0 v0] d1 IH]; intros Hk; simpl; [reflexivity|].
  unfold Py.keys in Hk. simpl in Hk. apply not_elem_of_cons in Hk as [Hne Hk].
  destruct (String.eqb_spec k0 k); [congruence|]. by rewrite IH.
Qed.

(** Assigning to every key of a dictionary, one after the other. *)
Lemma set_each_map (value : string → bool) (options : Py.dict bool) :
  NoDup (Py.keys options) →
  BrowserBackup.set_each value options = map (λ kv, (kv.1, value kv.1)) options.
Proof.
  intros Hnd. unfold BrowserBackup.set_each.
  assert (Hgen : ∀ todo seen : Py.dict bool, NoDup (Py.keys (seen ++ todo)) →
    fold_left (λ d option, Py.set d option (value option)) (Py.keys todo)
      (map (λ kv, (kv.1, value kv.1)) seen ++ todo)
    = map (λ kv, (kv.1, value kv.1)) (seen ++ todo)).
  { induction todo as [|[k x] todo IH]; intros seen Hseen; simpl.
    - by rewrite !app_nil_r.
    - rewrite set_app_fresh.
      2:{ unfold Py.keys in *. rewrite fmap_app in Hseen.
          apply NoDup_app in Hseen as (_ & Hdisj & _).
          rewrite <- list_fmap_compose. intros Hin. apply (Hdisj k).
          - erewrite list_fmap_ext; [exact Hin|]. by intros i [a b] _.
          - left. }
      simpl. rewrite String.eqb_refl.
      specialize (IH (seen ++ [(k, x)])). rewrite map_app in IH. simpl in IH.
      rewrite <- !app_assoc in IH. simpl in IH. apply IH. exact Hseen. }
  apply (Hgen options []). exact Hnd.
Qed.

(** [any(...)] of a non-empty dictionary whose values are all [True]. *)
Lemma any_values_map_true (options : Py.dict bool) :
  options ≠ [] → Py.any (Py.values (map (λ kv, (kv.1, true)) options)) = true.
Proof. destruct options as [|[k b] options]; [done | reflexivity]. Qed.

(** X7. [select_backup_options] keeps the keys of the options. With
    choice "2" an option holds whether its answer starts with "y" or "Y";
    with any other choice every option is [True]. When every answer of
    choice "2" declines, every file is selected; with another choice, and
    options that are categories of the pattern table, a file is selected
    exactly when a pattern of some option is found in its name. *)
Theorem select_backup_options_spec (choice : string)
    (answer : string → string) (cfg : config) :
  NoDup (Py.keys (backup_options cfg)) →
  let chosen := BrowserBackup.select_backup_options choice answer cfg in
  backup_options chosen
  = map (λ kv, (kv.1, if String.eqb choice "2"
                      then Py.startswith (Py.lower (answer kv.1)) "y" else true))
        (backup_options cfg)
  ∧ (choice = "2" →
     (∀ option, option ∈ Py.keys (backup_options cfg) →
        Py.startswith (Py.lower (answer option)) "y" = false) →
     ∀ file_name browser_type, _should_backup_file chosen file_name browser_type = Ok true)
  ∧ (choice ≠ "2" → backup_options cfg ≠ [] →
     (∀ option, option ∈ Py.keys (backup_options cfg) → known_category option = true) →
     ∀ file_name browser_type,
       _should_backup_file chosen file_name browser_type
       = Ok (existsb (λ option, selects (browser_family browser_type) file_name (option, true))
               (Py.keys (backup_options cfg)))).
Proof.
  intros Hnd chosen.
  assert (Hopts : backup_options chosen
    = map (λ kv, (kv.1, if String.eqb choice "2"
                        then Py.startswith (Py.lower (answer kv.1)) "y" else true))
          (backup_options cfg)).
  { unfold chosen, BrowserBackup.select_backup_options. simpl.
    destruct (String.eqb_spec choice "1") as [->|H1]; [by rewrite set_each_map|].
    destruct (String.eqb choice "2"); by rewrite set_each_map. }
  split_and!; [exact Hopts | |].
  - intros -> Hno file_name browser_type. unfold _should_backup_file. rewrite Hopts. simpl.
    rewrite any_values_false; [done|].
    intros category en [[k b] [[= <- <-] Hin]]%in_map_iff. simpl.
    apply Hno. unfold Py.keys. apply list_elem_of_fmap. exists (k, b).
    split; [done | by apply list_elem_of_In].
  - intros Hne Hsome Hknown file_name browser_type.
    assert (Hall : backup_options chosen = map (λ kv, (kv.1, true)) (backup_options cfg)).
    { rewrite Hopts. by destruct (String.eqb_spec choice "2"). }
    unfold _should_backup_file. rewrite Hall, any_values_map_true by exact Hsome. simpl.
    rewrite scan_options_known; [|apply browser_family_cases|].
    + f_equal. unfold Py.keys. clear. induction (backup_options cfg) as [|[k b] l IH]; [done|].
      simpl. by rewrite IH.
    + apply forallb_forall. intros [k b] [[k' b'] [[= <- <-] Hin]]%in_map_iff. simpl.
      apply Hknown. unfold Py.keys. apply list_elem_of_fmap. exists (k', b').
      split; [done | by apply list_elem_of_In].
Qed.

(** ** CopyEngine: where a task writes *)

(** Whatever faults occur, a task changes no file outside
    [backup_root/browser_name]. *)
Lemma backup_browser_elsewhere (e : env) (cfg : config) (src : disk)
    (backup_root : path) (browser_name : string) (source_paths : list path) (s : state)
    (p : path) :
  ¬ (backup_root ++ [browser_name]) `prefix_of` p →
  files (fs (backup_browser e cfg src backup_root browser_name source_paths s).2) !! p
  = files (fs s) !! p.
Proof.
  intros Hp.
  destruct (backup_browser_copies e cfg src backup_root browser_name source_paths s)
    as (s' & Hrun & [_ _ Hwritten]).
  rewrite Hrun. simpl.
  destruct (decide (files (fs s') !! p = files (fs s) !! p)) as [|Hne]; [done|].
  exfalso. destruct (Hwritten p Hne) as (root & d & f & Hjob & Hat).
  destruct (job_dest_prefix _ _ _ _ _ _ _ _ Hjob) as [Htop _].
  apply Hp. etrans; [exact Htop|].
  destruct Hat as [-> | ->]; [|rewrite <- app_assoc]; by apply prefix_app_r.
Qed.

(** A task leaves the saved report alone. *)
Lemma backup_browser_report (e : env) (cfg : config) (src : disk)
    (backup_root : path) (browser_name : string) (source_paths : list path) (s : state) :
  saved_report (backup_browser e cfg src backup_root browser_name source_paths s).2
  = saved_report s.
Proof.
  destruct (backup_browser_copies e cfg src backup_root browser_name source_paths s)
    as (s' & Hrun & [Hgrow _ _]).
  rewrite Hrun. apply Hgrow.
Qed.

(** X8. Whatever faults occur, [backup_browser] changes no file outside
    [backup_root/browser_name], removes no file and leaves the report
    alone. *)
Theorem backup_browser_stays_in_its_subtree (e : env) (cfg : config) (src : disk)
    (backup_root : path) (browser_name : string) (source_paths : list path) (s : state) :
  let s' := (backup_browser e cfg src backup_root browser_name source_paths s).2 in
  (∀ p, ¬ (backup_root ++ [browser_name]) `prefix_of` p →
        files (fs s') !! p = files (fs s) !! p)
  ∧ (∀ p, is_Some (files (fs s) !! p) → is_Some (files (fs s') !! p))
  ∧ saved_report s' = saved_report s.
Proof.
  split_and!.
  - intros p. apply backup_browser_elsewhere.
  - destruct (backup_browser_copies e cfg src backup_root browser_name source_paths s)
      as (s' & Hrun & [Hgrow _ _]).
    rewrite Hrun. apply Hgrow.
  - destruct (backup_browser_copies e cfg src backup_root browser_name source_paths s)
      as (s' & Hrun & [Hgrow _ _]).
    rewrite Hrun. apply Hgrow.
Qed.

(** ** CopyEngine: an option that the pattern table lacks *)

Section unknown_option.
Variables (e : env) (cfg : config) (src : disk).
Variables (backup_root : path) (browser_name : string) (k : string).
Hypothesis selector_raises :
  ∀ file_name, _should_backup_file cfg file_name browser_name = Raise (KeyError k).

(** No file gets past the selector. *)
Lemma consider_file_idle root rel_path dest_dir file s :
  (consider_file e cfg src browser_name root rel_path dest_dir file s).2 = s.
Proof.
  rewrite consider_file_cases, selector_raises. by destruct (has_excluded cfg file).
Qed.

(** The loop over a source tree copies nothing and leaves the flag. *)
Lemma backup_source_idle source s :
  files (fs (backup_source e cfg src backup_root browser_name source s).2) = files (fs s)
  ∧ success (backup_source e cfg src backup_root browser_name source s).2 = success s.
Proof.
  unfold backup_source. destruct (exists_ src source); simpl; [|done].
  unfold bind. rewrite mkdir_run. destruct (mkdir_fails e _ || file_above _ _); [done|].
  unfold lift. destruct (count_files _ _ _) as [n|ex]; simpl; [|done].
  apply (for_each_preserves
           (λ s1, files (fs s1) = files (fs s) ∧ success s1 = success s)); [|done].
  intros entry s1 _ Hs1. unfold backup_dir.
  apply (for_each_preserves
           (λ s2, files (fs s2) = files (fs s) ∧ success s2 = success s)); [|done].
  intros file s2 _ Hs2. by rewrite consider_file_idle.
Qed.

(** The task returns [False] and copies nothing. *)
Lemma backup_browser_idle source_paths s :
  ∃ s', backup_browser e cfg src backup_root browser_name source_paths s = (Ok false, s')
        ∧ files (fs s') = files (fs s).
Proof.
  unfold backup_browser.
  rewrite (bind_ok _ _ s tt (reset s)) by reflexivity.
  pose proof (for_each_preserves
    (λ s1, files (fs s1) = files (fs s) ∧ success s1 = false)
    source_paths (backup_source e cfg src backup_root browser_name) (reset s)) as Hloop.
  simpl in Hloop.
  assert (Hinv : files (fs (for_each source_paths
                   (backup_source e cfg src backup_root browser_name) (reset s)).2)
                 = files (fs s)
                 ∧ success (for_each source_paths
                   (backup_source e cfg src backup_root browser_name) (reset s)).2 = false).
  { apply Hloop; [|done]. intros source s1 _ [Hf Hs].
    destruct (backup_source_idle source s1) as [-> ->]. done. }
  unfold bind, try_except, gets.
  destruct (for_each source_paths _ (reset s)) as [[[]|ex] s1]; simpl in *.
  - destruct Hinv as [Hf ->]. eauto.
  - destruct Hinv as [Hf ->]. eauto.
Qed.

End unknown_option.

(** X9. When the first enabled option of the configuration is not a
    category of the pattern table, [_should_backup_file] raises [KeyError]
    for every file and every browser, and [backup_browser] returns [False]
    without copying a file. *)
Theorem unknown_option_stops_the_backup (e : env) (cfg : config) (src : disk)
    (backup_root : path) (browser_name : string) (source_paths : list path) (s : state)
    (pre post : list (string * bool)) (k : string) :
  backup_options cfg = pre ++ (k, true) :: post →
  (∀ o, In o pre → o.2 = false) →
  known_category k = false →
  (∀ file_name browser_type,
     _should_backup_file cfg file_name browser_type = Raise (KeyError k))
  ∧ ∃ s', backup_browser e cfg src backup_root browser_name source_paths s = (Ok false, s')
          ∧ files (fs s') = files (fs s).
Proof.
  intros Hopts Hpre Hk.
  assert (Hraise : ∀ file_name browser_type,
            _should_backup_file cfg file_name browser_type = Raise (KeyError k)).
  { intros. by eapply first_enabled_unknown_raises. }
  split; [exact Hraise|].
  apply (backup_browser_idle e cfg src backup_root browser_name k). intros. apply Hraise.
Qed.

(** ** CopyEngine: the bytes of the backup *)

Section faithful_copies.
Variables (e : env) (cfg : config) (src : disk).
Variables (backup_root : path) (browser_name : string).
Hypothesis copy2_works : ∀ a b, copy2_outcome e a b = Copy_ok.

(** [copied_from] is reflexive, transitive, and monotone in the jobs. *)
Lemma copied_from_refl J s : copied_from src J s s.
Proof. intros q c Hq. by left. Qed.

Lemma copied_from_trans J s1 s2 s3 :
  copied_from src J s1 s2 → copied_from src J s2 s3 → copied_from src J s1 s3.
Proof.
  intros H12 H23 q c Hq. destruct (H23 q c Hq) as [H2|?]; [by apply H12 | by right].
Qed.

Lemma copied_from_mono (J J' : path → path → string → Prop) s s' :
  (∀ root d f, J root d f → J' root d f) → copied_from src J s s' → copied_from src J' s s'.
Proof.
  intros HJ H q c Hq. destruct (H q c Hq) as [?|(root & d & f & ? & ? & ?)]; [by left|].
  right. exists root, d, f. auto.
Qed.

(** A step that writes no file. *)
Lemma copied_from_same_files J s s' : files (fs s') = files (fs s) → copied_from src J s s'.
Proof. intros Heq q c Hq. left. by rewrite <- Heq. Qed.

(** A loop whose steps only add copies only adds copies. *)
Lemma for_each_copied_from {A} (J : path → path → string → Prop) (xs : list A)
    (body : A → M state unit) s :
  (∀ x s, In x xs → copied_from src J s (body x s).2) →
  copied_from src J s (for_each xs body s).2.
Proof.
  intros Hbody. apply (for_each_preserves (copied_from src J s)); [|apply copied_from_refl].
  intros x s1 Hx Hs1. eapply copied_from_trans; [exact Hs1|]. apply Hbody, Hx.
Qed.

(** The four loops of a task, from the inside out. *)
Lemma consider_file_copied_from root rel_path dest_dir file s :
  copied_from src
    (λ r d f, wanted cfg browser_name rel_path file = true
              ∧ r = root ∧ d = dest_dir ∧ f = file)
    s (consider_file e cfg src browser_name root rel_path dest_dir file s).2.
Proof.
  rewrite consider_file_cases. unfold wanted.
  destruct (has_excluded cfg file); [apply copied_from_refl|].
  destruct (_should_backup_file _ _ _) as [[|]|ex]; try apply copied_from_refl.
  intros q c Hq.
  destruct (backup_file_any e cfg src root dest_dir file s) as (s' & Hrun & _ & _ & Hch & _).
  rewrite Hrun in Hq. simpl in Hq.
  destruct (decide (files (fs s') !! q = files (fs s) !! q)) as [Heq|Hne].
  { left. by rewrite <- Heq. }
  destruct (Hch q Hne) as [Hat Hbytes]. right. exists root, dest_dir, file.
  split; [done|]. split; [exact Hat|]. by rewrite <- (Hbytes copy2_works).
Qed.

Lemma backup_dir_copied_from source dest entry s :
  copied_from src
    (λ r d f, r = entry.1 ∧ In f entry.2
              ∧ wanted cfg browser_name (relative_to entry.1 source) f = true
              ∧ d = dest ++ relative_to entry.1 source)
    s (backup_dir e cfg src browser_name source dest entry s).2.
Proof.
  unfold backup_dir. apply for_each_copied_from. intros file s1 Hfile.
  eapply copied_from_mono; [|apply consider_file_copied_from].
  intros r d f (Hw & -> & -> & ->). done.
Qed.

Lemma backup_source_copied_from source s :
  copied_from src (job cfg src backup_root browser_name [source])
    s (backup_source e cfg src backup_root browser_name source s).2.
Proof.
  unfold backup_source. destruct (exists_ src source) eqn:Hex; simpl;
    [|apply copied_from_refl].
  unfold bind. rewrite mkdir_run.
  destruct (mkdir_fails e _ || file_above _ _); [apply copied_from_refl|].
  unfold lift. destruct (count_files _ _ _) as [n|ex]; simpl.
  2:{ by apply copied_from_same_files. }
  eapply copied_from_trans with (s2 := with_fs (make_dir _) s).
  { by apply copied_from_same_files. }
  apply for_each_copied_from. intros [root files] s1 Hentry.
  eapply copied_from_mono; [|apply backup_dir_copied_from].
  simpl. intros r d f (-> & Hf & Hw & ->).
  exists source, files. split_and!; try done. by left.
Qed.

(** Whatever else fails, every file that a task adds is the copy of the
    source file of one of its jobs. *)
Lemma backup_browser_copied_from source_paths s :
  copied_from src (job cfg src backup_root browser_name source_paths)
    s (backup_browser e cfg src backup_root browser_name source_paths s).2.
Proof.
  unfold backup_browser.
  rewrite (bind_ok _ _ s tt (reset s)) by reflexivity.
  assert (Hloop : copied_from src (job cfg src backup_root browser_name source_paths) s
    (for_each source_paths (backup_source e cfg src backup_root browser_name) (reset s)).2).
  { eapply copied_from_trans with (s2 := reset s); [by apply copied_from_same_files|].
    apply for_each_copied_from. intros source s1 Hsource.
    eapply copied_from_mono; [|apply backup_source_copied_from].
    intros root d f. apply job_mono. intros x [<-|[]]. exact Hsource. }
  unfold bind, try_except, gets.
  destruct (for_each source_paths _ (reset s)) as [[[]|ex] s1]; simpl in *; [exact Hloop|].
  eapply copied_from_trans; [exact Hloop|]. by apply copied_from_same_files.
Qed.

End faithful_copies.

(** The backup of one source tree into a fresh directory, on a machine
    without faults: its files are the copies of the files that pass the
    filters, byte for byte. *)
Lemma backup_content (e : env) (cfg : config) (src : disk)
    (backup_root : path) (browser_name : string) (source : path) (s : state)
    (q : path) (c : content) :
  known_options cfg = true →
  (∀ p, mkdir_fails e p = false) →
  (∀ a b, copy2_outcome e a b = Copy_ok) →
  files (fs s) = ∅ →
  fresh (fs s) (backup_root ++ [browser_name]) = true →
  tree_like src = true →
  files (fs (backup_browser e cfg src backup_root browser_name [source] s).2) !! q = Some c
  ↔ ∃ p, p ∈ tree src source ∧ passes cfg browser_name source p
         ∧ q = copy_of backup_root browser_name source p
         ∧ files src !! p = Some c.
Proof.
  intros Hknown Hmk Hcopy Hempty Hfresh Htree.
  pose proof (backup_browser_copied_from e cfg src backup_root browser_name Hcopy [source] s)
    as Hsound.
  destruct (backup_browser_forward e cfg src backup_root browser_name [source] s Hknown)
    as (b & s' & Hrun & Hinv & Hatt & _);
    [intros; apply Hmk | exact Hfresh | exact Htree | apply distinct_names_single |].
  rewrite Hrun in *. simpl in *.
  assert (Hfrom : ∀ q c, files (fs s') !! q = Some c →
    ∃ p, p ∈ tree src source ∧ passes cfg browser_name source p
         ∧ q = copy_of backup_root browser_name source p ∧ files src !! p = Some c).
  { intros q0 c0 Hq. destruct (Hsound q0 c0 Hq) as [Hold|(root & d & f & Hjob & Hat & Hc)].
    { by rewrite Hempty, lookup_empty in Hold. }
    destruct Hat as [-> | ->].
    2:{ exfalso. eapply (written_at_destination cfg src backup_root browser_name [source]
                           Htree (distinct_names_single source) s' root d f); eauto. }
    apply job_of_tree in Hjob as (Hin & Hpass & ->).
    exists (root ++ [f]). split_and!; try done.
    symmetry. apply copy_of_snoc.
    apply elem_of_tree in Hin as [_ Hb]. by apply below_snoc in Hb. }
  split; [apply Hfrom|].
  intros (p & Hin & Hpass & -> & Hc).
  pose proof Hin as [_ Hb]%elem_of_tree.
  pose proof (below_nonempty _ _ Hb) as Hne.
  destruct (job_of_passing cfg src backup_root browser_name source p Hin Hpass)
    as [Hjob Hdst].
  destruct (Hatt _ _ _ Hjob) as [Hfile _].
  assert (Hret : copy_returns e src (parent p)
            (dest_of backup_root browser_name source ++ relative_to (parent p) source)
            (name p) = true).
  { unfold copy_returns, arrives. rewrite Hmk, parent_name, Hc, Hcopy by done. done. }
  rewrite Hret, Hdst in Hfile. destruct Hfile as [c' Hc'].
  destruct (Hfrom _ _ Hc') as (p' & Hin' & _ & Heq & Hc'').
  apply (copy_of_inj src backup_root browser_name source) in Heq; [|done..].
  subst p'. congruence.
Qed.

(** The backup of a tree into a fresh directory is a tree. *)
Lemma backup_tree_like (e : env) (cfg : config) (src : disk)
    (backup_root : path) (browser_name : string) (source : path) (s : state) :
  known_options cfg = true →
  (∀ p, mkdir_fails e p = false) →
  (∀ a b, copy2_outcome e a b = Copy_ok) →
  files (fs s) = ∅ →
  fresh (fs s) (backup_root ++ [browser_name]) = true →
  tree_like src = true →
  tree_like (fs (backup_browser e cfg src backup_root browser_name [source] s).2) = true.
Proof.
  intros Hknown Hmk Hcopy Hempty Hfresh Htree. apply tree_like_intro.
  intros p q [cp Hp] [cq Hq] Hpre.
  apply (backup_content e cfg src backup_root browser_name source s p cp) in Hp
    as (p0 & Hin & _ & -> & Hc); try done.
  apply (backup_content e cfg src backup_root browser_name source s q cq) in Hq
    as (q0 & Hin' & _ & -> & Hc'); try done.
  f_equal. apply (tree_like_spec src); [done | eauto | eauto |].
  unfold copy_of in Hpre. apply prefix_app_inv in Hpre.
  apply elem_of_tree in Hin as [_ [Hb _]]. apply elem_of_tree in Hin' as [_ [Hb' _]].
  rewrite <- (relative_to_below source p0 Hb), <- (relative_to_below source q0 Hb').
  by apply prefix_app.
Qed.

(** X10. On a machine without faults, the backup of one source tree
    into a fresh directory consists of the copies of the files that pass
    the filters and of nothing else: each copy is at
    [backup_root/browser_name/<source.name>/<relative path>] and has the
    bytes of its source file. The directory is fresh: the disk holds no
    file, and no directory below [backup_root/browser_name]; and no file of
    the source lies below another one. *)
Theorem backup_preserves_content (e : env) (cfg : config) (src : disk)
    (backup_root : path) (browser_name : string) (source : path) (s : state)
    (q : path) (c : content) :
  known_options cfg = true →
  (∀ p, mkdir_fails e p = false) →
  (∀ a b, copy2_outcome e a b = Copy_ok) →
  files (fs s) = ∅ →
  fresh (fs s) (backup_root ++ [browser_name]) = true →
  tree_like src = true →
  files (fs (backup_browser e cfg src backup_root browser_name [source] s).2) !! q = Some c
  ↔ ∃ p, p ∈ tree src source ∧ passes cfg browser_name source p
         ∧ q = copy_of backup_root browser_name source p
         ∧ files src !! p = Some c.
Proof. apply backup_content. Qed.

(** ** RetentionSweeper: what a sweep can take away *)

(** The entries of [iterdir] lie below the directory. *)
Lemma iterdir_prefix (d : disk) (top q : path) : q ∈ iterdir d top → top `prefix_of` q.
Proof.
  unfold iterdir. rewrite elem_of_remove_dups, list_elem_of_fmap.
  intros (k & -> & [[[k' ->] Hlen] _]%list_elem_of_filter).
  rewrite take_app_ge by lia. by eexists.
Qed.

Section sweeper_loss.
Variables (e : env) (retention_seconds current_time : Z).

(** What the loop of the sweep does to the files: none is added or
    changed, and a file that is lost lay in an entry that was swept. *)
Lemma sweep_loss (n : nat) (ds : list path) :
  NoDup ds → (∀ d, d ∈ ds → length d = n) →
  ∀ s,
    (∀ p c, files (fs (for_each ds (sweep_one e retention_seconds current_time) s).2) !! p
            = Some c → files (fs s) !! p = Some c)
    ∧ (∀ p, is_Some (files (fs s) !! p) →
            files (fs (for_each ds (sweep_one e retention_seconds current_time) s).2) !! p
            = None →
            ∃ d, d ∈ ds ∧ d `prefix_of` p ∧ swept e retention_seconds current_time s d)
    ∧ success (for_each ds (sweep_one e retention_seconds current_time) s).2 = success s.
Proof.
  induction ds as [|d ds IH]; intros Hnd Hlen s.
  { simpl. split_and!; [done | | done]. intros p [c Hc] Hn. congruence. }
  apply NoDup_cons in Hnd as [Hd Hnd].
  specialize (IH Hnd (λ x Hx, Hlen x (list_elem_of_further _ _ _ Hx))).
  simpl. unfold bind. rewrite sweep_one_cases.
  destruct (is_dir (fs s) d) eqn:Hdir.
  2:{ destruct (IH s) as (H1 & H2 & H3). split_and!; [done | | done].
      intros p Hp Hn. destruct (H2 p Hp Hn) as (d' & Hd' & Hrest).
      exists d'. split; [by right | done]. }
  destruct (stat_fails e d) eqn:Hstat.
  { simpl. split_and!; [done | | done]. intros p [c Hc] Hn. congruence. }
  destruct (current_time - st_mtime e d >? retention_seconds) eqn:Haged.
  2:{ destruct (IH s) as (H1 & H2 & H3). split_and!; [done | | done].
      intros p Hp Hn. destruct (H2 p Hp Hn) as (d' & Hd' & Hrest).
      exists d'. split; [by right | done]. }
  destruct (rmtree_fails e d) eqn:Hrm.
  { simpl. split_and!; [| | done].
    - intros p c Hp.
      change (files (remove_part (rmtree_removed e d) d (fs s)) !! p = Some c) in Hp.
      rewrite remove_part_lookup in Hp.
      by destruct (decide (below d p ∧ rmtree_removed e d p = true)).
    - intros p Hp Hn.
      change (files (remove_part (rmtree_removed e d) d (fs s)) !! p = None) in Hn.
      rewrite remove_part_lookup in Hn.
      destruct (decide (below d p ∧ rmtree_removed e d p = true)) as [[[Hpre _] _]|_].
      + exists d. split; [by left|]. done.
      + rewrite Hn in Hp. by destruct Hp. }
  destruct (IH (log_add (INFO, Removed_old_backup d) (with_fs (remove_tree d) s)))
    as (H1 & H2 & H3). split_and!.
  - intros p c Hp. apply H1 in Hp.
    change (files (remove_tree d (fs s)) !! p = Some c) in Hp.
    rewrite remove_tree_lookup in Hp. by destruct (decide (d `prefix_of` p)).
  - intros p Hp Hn.
    destruct (decide (d `prefix_of` p)) as [Hpre|Hpre].
    { exists d. split; [by left|]. done. }
    destruct (H2 p) as (d' & Hd' & Hpre' & Hdir' & Hrest); [|done|].
    { change (is_Some (files (remove_tree d (fs s)) !! p)).
      rewrite remove_tree_lookup. by destruct (decide (d `prefix_of` p)). }
    exists d'. split; [by right|]. split; [done|]. split; [|done].
    change (is_dir (remove_tree d (fs s)) d' = true) in Hdir'.
    rewrite is_dir_remove_sibling in Hdir'; [done| |].
    + rewrite (Hlen d) by left. rewrite (Hlen d') by (by right). done.
    + intros ->. done.
  - rewrite H3. reflexivity.
Qed.

End sweeper_loss.

(** Whatever faults occur, [cleanup_old_backups] returns; it creates and
    changes no file, and a file that it removes lies in an immediate
    subdirectory of the root that was old enough. *)
Lemma cleanup_loss (e : env) (cfg : config) (backups : path) (now : Z) (s : state) :
  ∃ s', cleanup_old_backups e cfg backups now s = (Ok tt, s')
    ∧ (∀ p c, files (fs s') !! p = Some c → files (fs s) !! p = Some c)
    ∧ (∀ p, is_Some (files (fs s) !! p) → files (fs s') !! p = None →
         ∃ d, d ∈ iterdir (fs s) backups ∧ d `prefix_of` p
              ∧ swept e (retention_days cfg * 24 * 60 * 60) now s d)
    ∧ saved_report s' = saved_report s
    ∧ success s' = success s.
Proof.
  destruct (exists_ (fs s) backups) eqn:Hex.
  2:{ exists s. unfold cleanup_old_backups, try_except, bind, gets. simpl. rewrite Hex. simpl.
      split_and!; try done. intros p [c Hc] Hn. congruence. }
  pose proof (cleanup_returns e cfg backups now s) as [_ Hrep].
  rewrite cleanup_run in Hrep by exact Hex. rewrite cleanup_run by exact Hex.
  pose proof (sweep_loss e (retention_days cfg * 24 * 60 * 60) now
                (S (length backups)) (iterdir (fs s) backups)
                (NoDup_iterdir _ _)
                (λ d Hd, proj1 (iterdir_spec _ _ _ Hd)) s) as (H1 & H2 & H3).
  destruct (for_each (iterdir (fs s) backups) _ s) as [[[]|ex] s1]; simpl in *;
    eexists; (split; [reflexivity|]); simpl; split_and!; done.
Qed.

(** X11. Whatever faults occur, [cleanup_old_backups] returns; it
    creates and changes no file; a file that it removes lay in an immediate
    subdirectory of the root that was older than the retention period;
    files outside the root and entries directly in the root that are
    plain files are left as they were. *)
Theorem sweeper_takes_only_aged_directories (e : env) (cfg : config) (backups : path)
    (now : Z) (s : state) :
  ∃ s', cleanup_old_backups e cfg backups now s = (Ok tt, s')
    ∧ (∀ p c, files (fs s') !! p = Some c → files (fs s) !! p = Some c)
    ∧ (∀ p, is_Some (files (fs s) !! p) → files (fs s') !! p = None →
         ∃ d, d ∈ iterdir (fs s) backups ∧ d `prefix_of` p ∧ is_dir (fs s) d = true
              ∧ now - st_mtime e d > retention_days cfg * 86400)
    ∧ (∀ p, ¬ backups `prefix_of` p ∨ (length p ≤ S (length backups))%nat →
         files (fs s') !! p = files (fs s) !! p).
Proof.
  destruct (cleanup_loss e cfg backups now s) as (s' & Hrun & Hsub & Hlost & _).
  exists s'. split_and!; [exact Hrun | exact Hsub | |].
  - intros p Hp Hn. destruct (Hlost p Hp Hn) as (d & Hd & Hpre & Hdir & _ & Haged).
    exists d. split_and!; try done. lia.
  - intros p Hwhere.
    destruct (files (fs s') !! p) as [c|] eqn:E'; [symmetry; by apply Hsub|].
    destruct (files (fs s) !! p) as [c|] eqn:E; [|done]. exfalso.
    destruct (Hlost p) as (d & Hd & Hpre & Hdir & _); [by rewrite E | done |].
    destruct Hwhere as [Hout|Hlen].
    + apply Hout. etrans; [|exact Hpre]. by eapply iterdir_prefix.
    + apply iterdir_spec in Hd as [Hdlen _].
      assert (d = p) as ->.
      { apply prefix_same_length; [done|]. apply prefix_length in Hpre. lia. }
      unfold is_dir, is_file in Hdir. rewrite E in Hdir.
      rewrite bool_decide_eq_true_2 in Hdir by eauto. done.
Qed.

(** ** TaskScheduler: the steps of [run] *)

(** X12. [run] never raises, for any worker function. It returns [None]
    exactly when there are no browser paths, and then it only logs the
    warning: no task, no sweep, no report. It returns [True] exactly when
    there are browser paths, [max_workers] is positive and the report can
    be written: [open] does not fail, and after the tasks and the sweep
    the directory of the backup is still there and nothing but a regular
    file, if anything, is at [backup_report.json]; what the tasks return
    plays no part. With browser paths and [max_workers] not positive, no
    task is run. *)
Theorem run_outcome (task : string → list path → M state bool)
    (e : env) (cfg : config) (src : disk) (backups backup_root : path)
    (current_time : Z) (paths : Py.dict (list path)) (s : state) :
  ∃ r s',
    run_with task e cfg src backups backup_root current_time paths s = (Ok r, s')
    ∧ (r = None ↔ _validate_paths cfg src paths = [])
    ∧ (r = Some true ↔
       _validate_paths cfg src paths ≠ [] ∧ 0 < max_workers cfg
       ∧ open_fails e (backup_root ++ ["backup_report.json"]) = false
       ∧ can_create (disk_before_report task e cfg src backups current_time paths s)
           (backup_root ++ ["backup_report.json"]) = true)
    ∧ (r = None →
       s' = log_add (WARNING, No_profiles_found) (log_add (INFO, Starting_backup) s))
    ∧ (_validate_paths cfg src paths ≠ [] → max_workers cfg ≤ 0 →
       s' = log_add (ERROR, Backup_process_failed ValueError)
              (log_add (INFO, Starting_backup) s)).
Proof.
  destruct (decide (_validate_paths cfg src paths = [])) as [Hnone|Hsome].
  { rewrite run_with_nothing by exact Hnone. eexists _, _. split; [reflexivity|].
    split_and!; try done. split; [discriminate | intros (Hne & _); done]. }
  destruct (Z_lt_le_dec 0 (max_workers cfg)) as [Hw|Hw].
  2:{ rewrite run_with_no_workers by done. eexists _, _. split; [reflexivity|].
      split_and!.
      - split; [discriminate | done].
      - split; [discriminate | lia].
      - discriminate.
      - done. }
  destruct (run_with_steps task e cfg src backups backup_root current_time paths s Hsome Hw)
    as (futures & s1 & s2 & s3 & _ & _ & _ & _ & _ & _ & Hfs & ->).
  rewrite Hfs.
  destruct (open_fails e (backup_root ++ ["backup_report.json"])); simpl.
  { eexists _, _. split; [reflexivity|]. split_and!.
    + split; [discriminate | done].
    + split; [discriminate | intros (_ & _ & ? & _); done].
    + discriminate.
    + lia. }
  destruct (can_create _ _); simpl.
  - eexists _, _. split; [reflexivity|]. split_and!.
    + split; [discriminate | done].
    + done.
    + discriminate.
    + lia.
  - eexists _, _. split; [reflexivity|]. split_and!.
    + split; [discriminate | done].
    + split; [discriminate | intros (_ & _ & _ & ?); done].
    + discriminate.
    + lia.
Qed.

(** ** TaskScheduler: a run that finds no profile directory *)

Lemma submit_all_nothing (e : env) (cfg : config) (src : disk) (backup_root : path)
    (tasks : list (string * list path)) (s : state) :
  (∀ t, In t tasks → t.2 = []) →
  ∃ s', submit_all (backup_browser e cfg src backup_root) tasks s
        = (Ok (map (λ t, (Ok false, t.1)) tasks), s')
        ∧ fs s' = fs s ∧ saved_report s' = saved_report s.
Proof.
  revert s. induction tasks as [|[browser ps] tasks IH]; intros s Hempty.
  - exists s. done.
  - pose proof (Hempty (browser, ps) (or_introl eq_refl)) as Hps. simpl in Hps. subst ps.
    destruct (IH (reset s)) as (s' & Hrun & Hfs & Hrep).
    { intros t Ht. apply Hempty. by right. }
    exists s'. split; [|done]. simpl.
    rewrite (bind_ok _ _ s (Ok false) (reset s)) by reflexivity.
    rewrite (bind_ok _ _ _ _ _ Hrun). reflexivity.
Qed.

(** A child that exists is listed by [iterdir]. *)
Lemma iterdir_child (d : disk) (top : path) (x : string) :
  exists_ d (top ++ [x]) = true → top ++ [x] ∈ iterdir d top.
Proof.
  intros (q & Hq & [k ->])%exists_spec.
  unfold iterdir. apply elem_of_remove_dups, list_elem_of_fmap.
  exists ((top ++ [x]) ++ k). split.
  - rewrite <- app_assoc. rewrite take_app_ge by lia.
    replace (S (length top) - length top)%nat with 1%nat by lia. reflexivity.
  - apply list_elem_of_filter. split; [|exact Hq]. split.
    + exists ([x] ++ k). by rewrite <- app_assoc.
    + rewrite !length_app. simpl. lia.
Qed.

(** An entry that is not older than the retention period is left as it
    was by the sweep. *)
Lemma cleanup_keeps (e : env) (cfg : config) (backups : path) (now : Z)
    (s : state) (d : path) :
  d ∈ iterdir (fs s) backups →
  is_dir (fs s) d = true →
  now - st_mtime e d ≤ retention_days cfg * 86400 →
  same_below d (fs s) (fs (cleanup_old_backups e cfg backups now s).2).
Proof.
  intros Hd Hdir Hyoung.
  rewrite cleanup_run by (eapply iterdir_exists; exact Hd).
  destruct (list_elem_of_split _ _ Hd) as (pre & post & Hsplit).
  pose proof (NoDup_iterdir (fs s) backups) as Hnd. rewrite Hsplit in Hnd.
  pose proof (iterdir_same_length _ _ _ _ _ Hsplit) as Hlen.
  assert (Hnot : (now - st_mtime e d >? retention_days cfg * 24 * 60 * 60) = false) by lia.
  pose proof (sweep_skips e (retention_days cfg * 24 * 60 * 60) now pre post d s
                Hnd Hlen Hdir (or_intror Hnot)) as Hkept.
  rewrite <- Hsplit in Hkept.
  by destruct (for_each (iterdir (fs s) backups) _ s) as [[[]|ex] s'].
Qed.

(** A file can still be created in a directory that was left as it was,
    when no file was added above it. *)
Lemma can_create_kept (d d' : disk) (top : path) (f : string) :
  same_below top d d' →
  (∀ p c, files d' !! p = Some c → files d !! p = Some c) →
  can_create d (top ++ [f]) = true → can_create d' (top ++ [f]) = true.
Proof.
  intros Hsame Hsub. unfold can_create. rewrite !parent_snoc.
  intros [[Hdir Hex]%andb_prop Habove]%andb_prop.
  assert (Hsame' : same_below (top ++ [f]) d d').
  { intros p Hp. apply Hsame. etrans; [|exact Hp]. by apply prefix_app_r. }
  rewrite (same_below_is_dir _ _ _ Hsame'), Hdir.
  rewrite (same_below_exists _ _ _ Hsame), Hex. simpl.
  apply negb_true_iff, file_above_false. intros q [c Hq] Hpre.
  apply negb_true_iff in Habove.
  apply (proj1 (file_above_false d top) Habove q); [|exact Hpre].
  apply Hsub in Hq. eauto.
Qed.

(** X13. When no profile directory of the table exists and a browser of
    the table is enabled, [main] announces success, whatever is answered
    in the menu, provided that the report can be written into the directory
    of the run and that this directory is not older than the retention
    period: the report lists each enabled browser of the table with
    [False], and [backup_report.json] is the only file that is created or
    changed. *)
Theorem main_reports_success_when_nothing_is_found (e : env) (cfg : config) (src : disk)
    (backups : path) (timestamp : string) (current_time : Z) (paths : Py.dict (list path))
    (choice : string) (answer : string → string) (s : state) :
  NoDup (Py.keys paths) →
  (∀ browser ps p, In (browser, ps) paths → In p ps → exists_ src p = false) →
  (∃ browser, browser ∈ Py.keys paths ∧ enabled cfg browser = true) →
  0 < max_workers cfg →
  open_fails e ((backups ++ [timestamp]) ++ ["backup_report.json"]) = false →
  can_create (fs s) ((backups ++ [timestamp]) ++ ["backup_report.json"]) = true →
  current_time - st_mtime e (backups ++ [timestamp]) ≤ retention_days cfg * 86400 →
  let backup_root := backups ++ [timestamp] in
  let results := map (λ browser, (browser, false))
                   (List.filter (enabled cfg) (Py.keys paths)) in
  ∃ s',
    BrowserBackup.main e cfg src backups backup_root current_time paths choice answer s
    = (Ok (BrowserBackup.Backup_completed_successfully backup_root), s')
    ∧ saved_report s' = Some {| backup_location := backup_root; results := results |}
    ∧ files (fs s') !! (backup_root ++ ["backup_report.json"])
      = Some (json_dump e backup_root results)
    ∧ ∀ p c, p ≠ backup_root ++ ["backup_report.json"] →
        files (fs s') !! p = Some c → files (fs s) !! p = Some c.
Proof.
  intros Hnd Hnone (browser & Hin & Hen) Hw Hopen Hcan Hyoung backup_root results.
  fold backup_root in Hopen, Hcan, Hyoung.
  set (chosen := BrowserBackup.select_backup_options choice answer cfg).
  assert (Hval : _validate_paths chosen src paths
                 = map (λ kv, (kv.1, List.filter (kept cfg src) kv.2))
                       (List.filter (λ kv, enabled cfg kv.1) paths)).
  { change (_validate_paths chosen src paths) with (_validate_paths cfg src paths).
    by apply validate_paths_map. }
  assert (Hkeys : Py.keys (_validate_paths chosen src paths)
                  = List.filter (enabled cfg) (Py.keys paths)).
  { rewrite Hval.
    apply (keys_map_filter (λ _ ps, List.filter (kept cfg src) ps) (enabled cfg)). }
  assert (Hsome : _validate_paths chosen src paths ≠ []).
  { intros Hnil. rewrite Hnil in Hkeys.
    assert (Hb : browser ∈ List.filter (enabled cfg) (Py.keys paths)).
    { apply list_elem_of_In, filter_In. split; [by apply list_elem_of_In | done]. }
    rewrite <- Hkeys in Hb. by apply elem_of_nil in Hb. }
  assert (Hempty : ∀ t, In t (_validate_paths chosen src paths) → t.2 = []).
  { intros t. rewrite Hval. intros [[b ps] [<- [Hps _]%filter_In]]%in_map_iff. simpl.
    destruct (List.filter (kept cfg src) ps) as [|p rest] eqn:E; [done|]. exfalso.
    assert (Hp : In p (List.filter (kept cfg src) ps)) by (rewrite E; by left).
    apply filter_In in Hp as [Hp Hkept]. unfold kept in Hkept.
    rewrite (Hnone b ps p Hps Hp) in Hkept. done. }
  destruct (run_with_steps (backup_browser e chosen src backup_root) e chosen src backups
              backup_root current_time paths s Hsome Hw)
    as (futures & s1 & s2 & s3 & Hsub & _ & _ & Hfs2 & _ & Hclean & _ & Hrun).
  destruct (submit_all_nothing e chosen src backup_root _
              (log_add (INFO, Starting_backup) s) Hempty) as (s1' & Hsub' & Hfs1 & _).
  rewrite Hsub in Hsub'. injection Hsub' as -> <-.
  destruct (cleanup_loss e chosen backups current_time s2)
    as (s3' & Hclean' & Hsub3 & _). rewrite Hclean in Hclean'. injection Hclean' as <-.
  assert (Hfs : fs s2 = fs s) by (by rewrite Hfs2, Hfs1).
  assert (Hroot : is_dir (fs s2) backup_root = true ∧ exists_ (fs s2) backup_root = true).
  { rewrite Hfs. unfold can_create in Hcan. rewrite parent_snoc in Hcan.
    apply andb_prop in Hcan as [[_ Hex]%andb_prop Habove]. split; [|exact Hex].
    unfold is_dir, is_file. rewrite Hex, andb_true_r. apply negb_true_iff.
    apply bool_decide_eq_false. intros Hfile.
    apply negb_true_iff in Habove.
    by apply (proj1 (file_above_false (fs s) backup_root) Habove backup_root). }
  assert (Hcan3 : can_create (fs s3) (backup_root ++ ["backup_report.json"]) = true).
  { apply (can_create_kept (fs s2)); [| exact Hsub3 | by rewrite Hfs].
    pose proof (cleanup_keeps e chosen backups current_time s2 backup_root) as Hkeep.
    rewrite Hclean in Hkeep. apply Hkeep; [|apply Hroot|exact Hyoung].
    apply iterdir_child, Hroot. }
  rewrite Hopen, Hcan3 in Hrun. simpl in Hrun.
  assert (Hres : map entry_of
                   (map (λ t : string * list path, (Ok false, t.1))
                      (_validate_paths chosen src paths)) = results).
  { unfold results. rewrite <- Hkeys. unfold Py.keys, entry_of.
    rewrite <- !list_fmap_compose. apply list_fmap_ext. by intros i [b ps] _. }
  rewrite Hres in Hrun.
  eexists. split_and!.
  - unfold BrowserBackup.main. fold chosen. unfold run.
    rewrite (bind_ok _ _ _ _ _ Hrun). reflexivity.
  - reflexivity.
  - simpl. apply lookup_insert_eq.
  - simpl. intros p c Hp Hc. unfold report_file in Hc. simpl in Hc.
    rewrite lookup_insert_ne in Hc by done.
    apply Hsub3 in Hc. by rewrite Hfs in Hc.
Qed.

(** ** TaskScheduler: the sweep after the tasks *)

(** A task removes no directory. *)
Lemma backup_browser_dirs (e : env) (cfg : config) (src : disk) (backup_root : path)
    (browser_name : string) (source_paths : list path) (s : state) (p : path) :
  p ∈ dirs (fs s) →
  p ∈ dirs (fs (backup_browser e cfg src backup_root browser_name source_paths s).2).
Proof.
  intros Hp.
  destruct (backup_browser_copies e cfg src backup_root browser_name source_paths s)
    as (s' & Hrun & Hcopies).
  rewrite Hrun. by apply (grows_dirs _ _ (copies_grow _ _ _ _ _ _ Hcopies)).
Qed.

(** An invariant of every task is an invariant of the pool. *)
Lemma submit_all_preserves (P : state → Prop) (task : string → list path → M state bool)
    (tasks : list (string * list path)) (s : state) :
  (∀ browser ps s, P s → P (task browser ps s).2) →
  P s → P (submit_all task tasks s).2.
Proof.
  intros Htask. revert s. induction tasks as [|[browser ps] tasks IH]; intros s Hs; [done|].
  simpl. unfold bind, future. simpl.
  specialize (IH (task browser ps s).2 (Htask browser ps s Hs)).
  by destruct (submit_all task tasks (task browser ps s).2) as [[r|ex] s'].
Qed.

(** Without a failing [stat] or [rmtree], an immediate subdirectory that
    is old enough is gone after the sweep. *)
Lemma cleanup_removes_aged (e : env) (cfg : config) (backups : path) (now : Z)
    (s : state) (d : path) :
  (∀ p, rmtree_fails e p = false) →
  (∀ p, stat_fails e p = false) →
  d ∈ iterdir (fs s) backups →
  is_dir (fs s) d = true →
  now - st_mtime e d > retention_days cfg * 86400 →
  exists_ (fs (cleanup_old_backups e cfg backups now s).2) d = false.
Proof.
  intros Hrm Hstat Hd Hdir Haged.
  rewrite cleanup_run by (eapply iterdir_exists; exact Hd).
  pose proof (sweep_returns e (retention_days cfg * 24 * 60 * 60) now
                (iterdir (fs s) backups) s Hrm Hstat) as Hok.
  destruct (list_elem_of_split _ _ Hd) as (pre & post & Hsplit).
  pose proof (NoDup_iterdir (fs s) backups) as Hnd. rewrite Hsplit in Hnd.
  pose proof (iterdir_same_length _ _ _ _ _ Hsplit) as Hlen.
  pose proof (sweep_entry e (retention_days cfg * 24 * 60 * 60) now pre post d s Hnd Hlen)
    as Hgone.
  rewrite <- Hsplit in Hgone.
  destruct (for_each (iterdir (fs s) backups) _ s) as [r s']. simpl in *. subst r.
  apply Hgone; try done; [by apply sweep_returns | lia].
Qed.

(** X14. The sweep does not spare the backup directory of the run
    itself. When at the time of the sweep that directory is older than the
    retention period (with [retention_days] = 0: as soon as the clock has
    advanced) and no [stat] or [rmtree] fails, nothing is left of it after
    [run]: what the tasks have copied is deleted by the same run, the
    report cannot be written, and [run] returns [False]. *)
Theorem run_sweeps_its_own_backup (e : env) (cfg : config) (src : disk)
    (backups : path) (timestamp : string) (current_time : Z)
    (paths : Py.dict (list path)) (s : state) :
  (∀ p, rmtree_fails e p = false) →
  (∀ p, stat_fails e p = false) →
  mkdir_fails e (backups ++ [timestamp]) = false →
  file_above (fs s) (backups ++ [timestamp]) = false →
  _validate_paths cfg src paths ≠ [] →
  0 < max_workers cfg →
  current_time - st_mtime e (backups ++ [timestamp]) > retention_days cfg * 86400 →
  ∃ s1 s',
    BrowserBackup._create_backup_dir e backups timestamp s = (Ok (backups ++ [timestamp]), s1)
    ∧ run e cfg src backups (backups ++ [timestamp]) current_time paths s1
      = (Ok (Some false), s')
    ∧ saved_report s' = saved_report s
    ∧ exists_ (fs s') (backups ++ [timestamp]) = false
    ∧ ∀ p, (backups ++ [timestamp]) `prefix_of` p → files (fs s') !! p = None.
Proof.
  intros Hrm Hstat Hmk Habove Hsome Hw Haged.
  set (backup_root := backups ++ [timestamp]) in *.
  set (s1 := with_fs (make_dir backup_root) s).
  assert (Hfile : files (fs s) !! backup_root = None).
  { destruct (files (fs s) !! backup_root) as [c|] eqn:E; [|done]. exfalso.
    apply (proj1 (file_above_false (fs s) backup_root) Habove backup_root); [eauto | done]. }
  set (Inv := λ s0 : state, backup_root ∈ dirs (fs s0) ∧ files (fs s0) !! backup_root = None
                            ∧ saved_report s0 = saved_report s).
  assert (Hinv1 : Inv (log_add (INFO, Starting_backup) s1)).
  { split_and!; simpl; [set_solver | exact Hfile | done]. }
  destruct (run_with_steps (backup_browser e cfg src backup_root) e cfg src backups
              backup_root current_time paths s1 Hsome Hw)
    as (futures & s2 & s3 & s4 & Hsub & _ & _ & Hfs3 & Hrep3 & Hclean & _ & Hrun).
  assert (Hinv2 : Inv s2).
  { pose proof (submit_all_preserves Inv (backup_browser e cfg src backup_root)
                  (_validate_paths cfg src paths) (log_add (INFO, Starting_backup) s1)) as H.
    rewrite Hsub in H. apply H; [|exact Hinv1].
    intros browser ps s0 (Hd & Hf & Hr). split_and!.
    - by apply backup_browser_dirs.
    - rewrite backup_browser_elsewhere; [exact Hf|].
      intros Hpre. apply prefix_length in Hpre. rewrite length_app in Hpre. simpl in Hpre. lia.
    - rewrite <- Hr.
      apply (backup_browser_report e cfg src backup_root browser ps s0). }
  assert (Hdir : is_dir (fs s3) backup_root = true).
  { rewrite Hfs3. destruct Hinv2 as (Hd & Hf & _). unfold is_dir, is_file. rewrite Hf.
    rewrite bool_decide_eq_false_2 by (by intros [? ?]). simpl.
    apply exists_spec. exists backup_root. split; [|done].
    apply elem_of_all_paths. by right. }
  assert (Hgone : exists_ (fs s4) backup_root = false).
  { pose proof (cleanup_removes_aged e cfg backups current_time s3 backup_root Hrm Hstat) as H.
    rewrite Hclean in H. apply H; [|done..].
    apply iterdir_child. unfold is_dir in Hdir. by apply andb_prop in Hdir as [_ ?]. }
  assert (Hrep4 : saved_report s4 = saved_report s).
  { pose proof (cleanup_returns e cfg backups current_time s3) as [_ H].
    rewrite Hclean in H. simpl in H. rewrite H, Hrep3. apply Hinv2. }
  assert (Hcannot : can_create (fs s4) (backup_root ++ ["backup_report.json"]) = false).
  { unfold can_create. rewrite parent_snoc, Hgone. by rewrite andb_false_r. }
  rewrite Hcannot, orb_true_r in Hrun. simpl in Hrun.
  exists s1. eexists. split_and!.
  - unfold BrowserBackup._create_backup_dir. fold backup_root.
    rewrite (bind_ok _ _ s tt s1) by (rewrite mkdir_run, Hmk, Habove; reflexivity).
    reflexivity.
  - unfold run. exact Hrun.
  - exact Hrep4.
  - exact Hgone.
  - intros p Hpre. simpl.
    destruct (files (fs s4) !! p) as [c|] eqn:E; [|done]. exfalso.
    assert (exists_ (fs s4) backup_root = true); [|congruence].
    eapply exists_below; [|exact Hpre]. by rewrite E.
Qed.

(** ** RestoreEngine: what a restore changes *)

(** Whatever faults occur, [restore_browser] returns the answer [scans]. *)
Lemma restore_browser_flag (e : env) (backup : disk) (browser_name : string)
    (source_path dest_path : path) (s : state) :
  (restore_browser e backup browser_name source_path dest_path s).1
  = Ok (scans e backup source_path).
Proof.
  unfold restore_browser, try_except, scans.
  destruct (exists_ backup source_path) eqn:Hex; simpl; [|reflexivity].
  pose proof (restore_loop_result e backup source_path dest_path (rglob backup source_path) s)
    as Hres.
  pose proof (count_entries_result e backup (rglob backup source_path)) as Hcount.
  assert (Hall : forallb (λ p, negb (scan_fails e p)) (rglob backup source_path) = true
                 ↔ ∀ p, p ∈ rglob backup source_path → scan_fails e p = false).
  { rewrite forallb_forall. split.
    - intros H p Hp. apply negb_true_iff, H, list_elem_of_In, Hp.
    - intros H p Hp. apply negb_true_iff, H, list_elem_of_In, Hp. }
  unfold bind, lift.
  destruct (count_entries e backup (rglob backup source_path)) as [n|ex0]; simpl.
  2:{ f_equal. symmetry. apply not_true_is_false. intros H.
      destruct (proj2 Hcount (proj1 Hall H)) as [n Hn]. discriminate. }
  destruct (for_each (rglob backup source_path) _ s) as [[[]|ex] s1]; simpl in *.
  - f_equal. symmetry. apply (proj2 Hall), (proj1 Hres). reflexivity.
  - f_equal. symmetry. apply not_true_is_false. intros H.
    pose proof (proj2 Hres (proj1 Hall H)). discriminate.
Qed.

(** Whatever faults occur, [restore_browser] removes no file and writes
    only where a file of the backup goes: at its destination or, when a
    directory lies there, in that directory. *)
Lemma restore_browser_changes (e : env) (backup : disk) (browser_name : string)
    (source_path dest_path : path) (s : state) :
  (∀ p, is_Some (files (fs s) !! p) →
        is_Some (files (fs (restore_browser e backup browser_name source_path dest_path s).2)
                 !! p))
  ∧ (∀ p, files (fs (restore_browser e backup browser_name source_path dest_path s).2) !! p
          ≠ files (fs s) !! p →
          ∃ q, is_Some (files backup !! q) ∧ below source_path q
               ∧ (p = dest_path ++ relative_to q source_path
                  ∨ p = (dest_path ++ relative_to q source_path) ++ [name q])).
Proof.
  set (P := λ s1 : state,
    (∀ p, is_Some (files (fs s) !! p) → is_Some (files (fs s1) !! p))
    ∧ (∀ p, files (fs s1) !! p ≠ files (fs s) !! p →
            ∃ q, is_Some (files backup !! q) ∧ below source_path q
                 ∧ (p = dest_path ++ relative_to q source_path
                    ∨ p = (dest_path ++ relative_to q source_path) ++ [name q]))).
  assert (HP0 : P s) by (split; [done | intros p Hp; done]).
  assert (Hloop : P (for_each (rglob backup source_path)
                       (restore_entry e backup source_path dest_path) s).2).
  { destruct (restore_loop_changes e backup source_path dest_path
                (rglob backup source_path) s) as [Hg Hch].
    split; [apply Hg|]. intros p Hp.
    destruct (Hch p Hp) as (q & Hq & Hfile & Hat).
    apply list_elem_of_In, list_elem_of_filter in Hq as [Hb _]. by exists q. }
  unfold restore_browser, try_except.
  destruct (exists_ backup source_path); simpl; [|exact HP0].
  unfold bind, lift.
  destruct (count_entries e backup (rglob backup source_path)) as [n|ex0]; simpl;
    [|exact HP0].
  destruct (for_each (rglob backup source_path) _ s) as [[[]|ex] s1]; exact Hloop.
Qed.

(** X15. Whatever faults occur, [restore_browser] removes no file, and
    it changes only the paths where files of the backup below
    [source_path] go: [dest_path/<relative path>] or, when a directory
    lies at that path, the path of the same name inside it. A file of the
    destination elsewhere stays as it is. *)
Theorem restore_overlays_the_destination (e : env) (backup : disk) (browser_name : string)
    (source_path dest_path : path) (s : state) :
  let s' := (restore_browser e backup browser_name source_path dest_path s).2 in
  (∀ p, is_Some (files (fs s) !! p) → is_Some (files (fs s') !! p))
  ∧ (∀ p, files (fs s') !! p ≠ files (fs s) !! p →
          ∃ q, is_Some (files backup !! q) ∧ below source_path q
               ∧ (p = dest_path ++ relative_to q source_path
                  ∨ p = (dest_path ++ relative_to q source_path) ++ [name q])).
Proof. apply restore_browser_changes. Qed.

(** X16. On a machine without faults, after [restore_browser] into a
    fresh destination (nothing lies below [dest_path], and no regular file
    at it or above it) from a backup in which no file lies below another
    one, every file of the backup below [source_path] is at
    [dest_path/<relative path>], byte for byte. *)
Theorem restore_is_a_mirror (e : env) (backup : disk) (browser_name : string)
    (source_path dest_path : path) (s : state) (p : path) (c : content) :
  (∀ q, mkdir_fails e q = false) →
  (∀ a b, copy2_outcome e a b = Copy_ok) →
  (∀ q, scan_fails e q = false) →
  fresh (fs s) dest_path = true →
  tree_like backup = true →
  files backup !! p = Some c →
  below source_path p →
  files (fs (restore_browser e backup browser_name source_path dest_path s).2)
    !! (dest_path ++ relative_to p source_path) = Some c.
Proof.
  intros Hmk Hcp Hscan Hfresh Htree Hp Hb.
  by apply (restore_mirrors e backup browser_name source_path dest_path s
              Hmk Hcp Hscan Hfresh Htree).
Qed.

(** X17. Backup of a source tree into a fresh backup directory, then
    restore of the browser directory of that backup into a fresh
    destination, without faults: a file of the source tree that passes the
    filters comes back byte for byte at
    [dest_path/<source.name>/<relative path>], which is never the path
    [dest_path/<relative path>]. *)
Theorem round_trip_nests_the_source_directory (e : env) (cfg : config) (src : disk)
    (backup_root : path) (browser_name : string) (source dest_path : path)
    (s s2 : state) (p : path) (c : content) :
  known_options cfg = true →
  (∀ q, mkdir_fails e q = false) →
  (∀ a b, copy2_outcome e a b = Copy_ok) →
  (∀ q, scan_fails e q = false) →
  files (fs s) = ∅ →
  fresh (fs s) (backup_root ++ [browser_name]) = true →
  tree_like src = true →
  fresh (fs s2) dest_path = true →
  p ∈ tree src source →
  passes cfg browser_name source p →
  files src !! p = Some c →
  let backup := fs (backup_browser e cfg src backup_root browser_name [source] s).2 in
  files (fs (restore_browser e backup browser_name (backup_root ++ [browser_name])
               dest_path s2).2)
    !! (dest_path ++ [name source] ++ relative_to p source) = Some c
  ∧ dest_path ++ [name source] ++ relative_to p source ≠ dest_path ++ relative_to p source.
Proof.
  intros Hknown Hmk Hcopy Hscan Hempty Hfresh Htree Hfresh2 Hin Hpass Hc backup. split.
  - assert (Hcopied : files backup !! copy_of backup_root browser_name source p = Some c).
    { apply backup_content; try done. by exists p. }
    assert (Hbt : tree_like backup = true) by (by apply backup_tree_like).
    destruct (restore_mirrors e backup browser_name (backup_root ++ [browser_name])
                dest_path s2 Hmk Hcopy Hscan Hfresh2 Hbt) as [_ Hmirror].
    specialize (Hmirror _ c Hcopied).
    assert (Hrel : relative_to (copy_of backup_root browser_name source p)
                     (backup_root ++ [browser_name])
                   = [name source] ++ relative_to p source).
    { unfold copy_of, dest_of, relative_to.
      replace ((backup_root ++ [browser_name; name source]) ++ drop (length source) p)
        with ((backup_root ++ [browser_name]) ++ ([name source] ++ drop (length source) p))
        by (by rewrite <- !app_assoc).
      by rewrite drop_app_length. }
    rewrite Hrel in Hmirror. apply Hmirror.
    unfold copy_of, dest_of. split.
    + exists ([name source] ++ drop (length source) p).
      unfold relative_to. by rewrite <- !app_assoc.
    + rewrite !length_app. simpl. lia.
  - intros Heq. apply app_inv_head in Heq.
    apply (f_equal length) in Heq. rewrite length_app in Heq. simpl in Heq. lia.
Qed.

(** ** BrowserRestore: the result of [run] *)

Lemma submit_restores_futures (e : env) (backup : disk) (browser_paths : Py.dict path)
    (browsers_to_restore : list (string * path)) (s : state) :
  (submit_restores e backup browser_paths browsers_to_restore s).1
  = Ok (map (λ kv, (Ok (scans e backup kv.2), kv.1))
          (List.filter (λ kv, bool_decide (is_Some (Py.get browser_paths kv.1)))
             browsers_to_restore)).
Proof.
  revert s. induction browsers_to_restore as [|[browser source] rest IH]; intros s; simpl.
  - reflexivity.
  - destruct (Py.get browser_paths browser) as [dest|] eqn:Hget.
    + rewrite bool_decide_eq_true_2 by eauto. simpl. unfold bind, future. simpl.
      rewrite restore_browser_flag.
      specialize (IH (restore_browser e backup browser source dest s).2).
      destruct (submit_restores e backup browser_paths rest _) as [r s']. simpl in IH.
      subst r. reflexivity.
    + rewrite bool_decide_eq_false_2 by (by intros [? ?]). apply IH.
Qed.

(** No selected browser has a destination: nothing is submitted. *)
Lemma submit_restores_idle (e : env) (backup : disk) (browser_paths : Py.dict path)
    (browsers_to_restore : list (string * path)) (s : state) :
  (∀ kv, In kv browsers_to_restore → Py.get browser_paths kv.1 = None) →
  submit_restores e backup browser_paths browsers_to_restore s = (Ok [], s).
Proof.
  induction browsers_to_restore as [|[browser source] rest IH]; intros Hnone; simpl.
  - reflexivity.
  - pose proof (Hnone (browser, source) (or_introl eq_refl)) as Hget. simpl in Hget.
    rewrite Hget. apply IH. intros kv Hkv. apply Hnone. by right.
Qed.

(** A condition keeps the keys of a dictionary distinct. *)
Lemma NoDup_keys_filter {V} (P : string * V → bool) (d : Py.dict V) :
  NoDup (Py.keys d) → NoDup (Py.keys (List.filter P d)).
Proof.
  unfold Py.keys. induction d as [|[k v] d IH]; intros Hnd; simpl; [constructor|].
  apply NoDup_cons in Hnd as [Hk Hnd]. destruct (P (k, v)); simpl; [|by apply IH].
  apply NoDup_cons. split; [|by apply IH].
  intros Hin. apply Hk. apply list_elem_of_fmap in Hin as ([k' v'] & -> & Hin).
  apply list_elem_of_In, filter_In in Hin as [Hin _].
  apply list_elem_of_fmap. exists (k', v'). split; [done | by apply list_elem_of_In].
Qed.

(** [all(results.values())] over the futures of the restore. *)
Lemma all_scans (e : env) (backup : disk) (l : list (string * path)) :
  Py.all (Py.values (map entry_of (map (λ kv, (Ok (scans e backup kv.2), kv.1)) l)))
  = forallb (λ kv, scans e backup kv.2) l.
Proof.
  unfold Py.all, Py.values. induction l as [|[k v] l IH]; [reflexivity|].
  simpl. by rewrite IH.
Qed.

(** [restore_run] on a dictionary of selected browsers. *)
Lemma restore_run_flag (e : env) (backup : disk) (browsers_to_restore : Py.dict path)
    (table : Py.dict path) (s : state) :
  NoDup (Py.keys browsers_to_restore) →
  browsers_to_restore ≠ [] →
  (restore_run e backup browsers_to_restore table s).1
  = Ok (forallb (λ kv, scans e backup kv.2)
          (List.filter
             (λ kv, bool_decide (is_Some (Py.get (get_browser_paths (fs s) table) kv.1)))
             browsers_to_restore)).
Proof.
  intros Hnd Hne. unfold restore_run.
  destruct browsers_to_restore as [|t rest]; [done|].
  rewrite (bind_ok _ _ s tt (log_add (INFO, Starting_restore) s)) by reflexivity.
  cbv beta iota.
  set (sel := t :: rest) in *.
  set (s0 := log_add (INFO, Starting_restore) s).
  rewrite (bind_ok _ _ s0 (fs s) s0) by reflexivity.
  set (browser_paths := get_browser_paths (fs s) table).
  pose proof (submit_restores_futures e backup browser_paths sel s0) as Hsub.
  set (futures := map (λ kv, (Ok (scans e backup kv.2), kv.1))
                    (List.filter (λ kv, bool_decide (is_Some (Py.get browser_paths kv.1)))
                       sel)) in *.
  set (s1 := (submit_restores e backup browser_paths sel s0).2).
  pose proof (collect_entries Error_restoring_browser futures [] s1) as Hcol.
  assert (Hkeys : NoDup (Py.keys ([] : Py.dict bool) ++ futures.*2)).
  { simpl. unfold futures. rewrite <- list_fmap_compose.
    pose proof (NoDup_keys_filter
                  (λ kv, bool_decide (is_Some (Py.get browser_paths kv.1)))
                  sel Hnd) as H.
    unfold Py.keys in H. erewrite list_fmap_ext; [exact H|]. by intros i [k v] _. }
  specialize (Hcol Hkeys). simpl in Hcol.
  unfold try_except.
  rewrite (bind_ok _ _ s0 futures s1)
    by (rewrite (run_pair (submit_restores _ _ _ _)), Hsub; reflexivity).
  rewrite (bind_ok _ _ s1 (map entry_of futures) (collect Error_restoring_browser futures [] s1).2)
    by (rewrite (run_pair (collect _ _ _)), Hcol; reflexivity).
  simpl. f_equal. unfold futures. apply all_scans.
Qed.

(** ** BrowserRestore: the menus *)

Lemma iterdir_shape (d : disk) (top q : path) : q ∈ iterdir d top → q = top ++ [name q].
Proof.
  intros Hq. pose proof (iterdir_prefix _ _ _ Hq) as [k ->].
  apply iterdir_spec in Hq as [Hlen _]. rewrite length_app in Hlen.
  destruct k as [|x [|y k]]; simpl in Hlen; try lia. by rewrite name_snoc.
Qed.

(** The items of a dictionary after [d[k] = v]. *)
Lemma In_set {V} (d : Py.dict V) k v k' v' :
  In (k', v') (Py.set d k v) → (k', v') = (k, v) ∨ In (k', v') d.
Proof.
  induction d as [|[k0 v0] d IH]; simpl.
  - intros [H|[]]. by left.
  - destruct (String.eqb_spec k0 k) as [->|Hne]; simpl.
    + intros [H|H]; [by left | right; by right].
    + intros [H|H]; [right; by left|]. destruct (IH H); [by left | right; by right].
Qed.

(** The items of [dict(items)] are among the items. *)
Lemma In_of_items {V} (items : list (string * V)) k v :
  In (k, v) (Py.of_items items) → In (k, v) items.
Proof.
  unfold Py.of_items. induction items as [|[k0 v0] items IH] using rev_ind; [intros []|].
  rewrite fold_left_app. simpl. intros [H|H]%In_set; apply in_or_app.
  - right. left. by symmetry.
  - left. by apply IH.
Qed.

(** When equal keys come with equal values, [dict(items)] holds every
    item. *)
Lemma get_of_items_functional {V} (items : list (string * V)) k v :
  (∀ k v v', In (k, v) items → In (k, v') items → v = v') →
  In (k, v) items → Py.get (Py.of_items items) k = Some v.
Proof.
  unfold Py.of_items. induction items as [|[k0 v0] items IH] using rev_ind; [intros _ []|].
  intros Hfun Hin. rewrite fold_left_app. simpl. rewrite get_set.
  destruct (String.eqb_spec k0 k) as [->|Hne].
  - f_equal. apply (Hfun k); [apply in_or_app; right; by left | exact Hin].
  - apply IH.
    + intros k1 v1 v1' H1 H1'. apply (Hfun k1); apply in_or_app; by left.
    + apply in_app_or in Hin as [Hin|[Heq|[]]]; [exact Hin|]. congruence.
Qed.

(** The listing of [select_browsers]. *)
Lemma available_browsers_spec (backup : disk) (source_backup d : path) :
  d ∈ BrowserRestore.available_browsers backup source_backup ↔
  d ∈ iterdir backup source_backup ∧ is_dir backup d = true
  ∧ name d ≠ ".git" ∧ name d ≠ "__pycache__".
Proof.
  unfold BrowserRestore.available_browsers.
  rewrite list_elem_of_In, filter_In, <- list_elem_of_In.
  assert (Hnames : negb (existsb (String.eqb (name d)) [".git"; "__pycache__"]) = true
                   ↔ name d ≠ ".git" ∧ name d ≠ "__pycache__").
  { cbn [existsb]. rewrite orb_false_r.
    destruct (String.eqb_spec (name d) ".git") as [->|H1]; simpl.
    - split; [discriminate | intros [H _]; done].
    - destruct (String.eqb_spec (name d) "__pycache__") as [->|H2]; simpl.
      + split; [discriminate | intros [_ H]; done].
      + done. }
  rewrite andb_true_iff, Hnames. tauto.
Qed.

(** The directories of the listing have distinct names. *)
Lemma available_browsers_names (backup : disk) (source_backup : path) :
  NoDup (map name (BrowserRestore.available_browsers backup source_backup)).
Proof.
  apply NoDup_fmap_2_strong.
  - intros a b [Ha _]%available_browsers_spec [Hb _]%available_browsers_spec Heq.
    rewrite (iterdir_shape _ _ _ Ha), (iterdir_shape _ _ _ Hb). by rewrite Heq.
  - unfold BrowserRestore.available_browsers. apply NoDup_ListNoDup, List.NoDup_filter.
    apply NoDup_ListNoDup, NoDup_iterdir.
Qed.

(** The entries of [browsers_to_restore] are browser directories of the
    backup, each under its own name. *)
Lemma select_browsers_entries (answer : browser_answer) (backup : disk)
    (source_backup : path) (browser : string) (d : path) :
  In (browser, d) (BrowserRestore.select_browsers answer backup source_backup) →
  d ∈ BrowserRestore.available_browsers backup source_backup ∧ browser = name d.
Proof.
  unfold BrowserRestore.select_browsers.
  destruct answer as [|selections|]; intros Hin%In_of_items.
  - apply in_map_iff in Hin as (b & [= <- <-] & Hb). split; [by apply list_elem_of_In | done].
  - apply in_map_iff in Hin as (i & [= <- <-] & [_ Hi]%filter_In). split; [|done].
    apply andb_prop in Hi as [Hlo Hhi].
    apply list_elem_of_In, nth_In. lia.
  - apply in_map_iff in Hin as (b & [= <- <-] & Hb). split; [by apply list_elem_of_In | done].
Qed.

(** X18. Every entry of [browsers_to_restore] is an immediate
    subdirectory of the selected backup, under its own name, and none is
    called ".git" or "__pycache__". The answer "A" and an answer that is
    not a list of numbers select every such directory. Of a list of
    numbers, each number in range selects the directory at that place of
    the listing; when every number is out of range nothing is selected. *)
Theorem select_browsers_spec (answer : browser_answer) (backup : disk)
    (source_backup : path) :
  let available := BrowserRestore.available_browsers backup source_backup in
  let chosen := BrowserRestore.select_browsers answer backup source_backup in
  (∀ browser d, In (browser, d) chosen →
     d = source_backup ++ [browser] ∧ is_dir backup d = true
     ∧ browser ≠ ".git" ∧ browser ≠ "__pycache__")
  ∧ match answer with
    | Numbers selections =>
        (∀ i d, i ∈ selections → 1 ≤ i → available !! Z.to_nat (i - 1) = Some d →
           Py.get chosen (name d) = Some d)
        ∧ ((∀ i, i ∈ selections → i < 1 ∨ Z.of_nat (length available) < i) → chosen = [])
    | _ => chosen = map (λ b, (name b, b)) available
    end.
Proof.
  intros available chosen. split.
  - intros browser d [Hd ->]%select_browsers_entries.
    apply available_browsers_spec in Hd as (Hit & Hdir & H1 & H2).
    split_and!; try done. exact (iterdir_shape _ _ _ Hit).
  - assert (Hall : Py.of_items (map (λ b, (name b, b)) available)
                   = map (λ b, (name b, b)) available).
    { apply of_items_NoDup. unfold Py.keys. rewrite <- list_fmap_compose.
      apply available_browsers_names. }
    destruct answer as [|selections|]; [exact Hall | | exact Hall]. split.
    + intros i d Hi Hlo Hd. unfold chosen, BrowserRestore.select_browsers.
      fold available.
      assert (Hhi : i ≤ Z.of_nat (length available)).
      { apply lookup_lt_Some in Hd. lia. }
      assert (Hnth : nth (Z.to_nat (i - 1)) available [] = d).
      { exact (nth_lookup_Some _ _ [] _ Hd). }
      apply get_of_items_functional.
      * intros k v v' [i1 [[= <- <-] [_ H1]%filter_In]]%in_map_iff
               [i2 [[= Hk <-] [_ H2]%filter_In]]%in_map_iff.
        apply andb_prop in H1 as [? ?], H2 as [? ?].
        assert (Hav : ∀ j, 1 ≤ j → j ≤ Z.of_nat (length available) →
                  nth (Z.to_nat (j - 1)) available [] ∈ iterdir backup source_backup).
        { intros j ? ?.
          assert (Hmem : nth (Z.to_nat (j - 1)) available [] ∈ available)
            by (apply list_elem_of_In, nth_In; lia).
          by apply available_browsers_spec in Hmem as [? _]. }
        rewrite (iterdir_shape _ _ _ (Hav i1 ltac:(lia) ltac:(lia))).
        rewrite (iterdir_shape _ _ _ (Hav i2 ltac:(lia) ltac:(lia))). by rewrite Hk.
      * apply in_map_iff. exists i. rewrite Hnth. split; [done|].
        apply filter_In. split; [by apply list_elem_of_In|].
        apply andb_true_intro. split; lia.
    + intros Hout. unfold chosen, BrowserRestore.select_browsers. fold available.
      replace (List.filter _ selections) with (@nil Z); [reflexivity|].
      symmetry. induction selections as [|i selections IH]; [reflexivity|]. simpl.
      destruct (Hout i (list_elem_of_here _ _)).
      * replace (1 <=? i) with false by lia. simpl. apply IH.
        intros j Hj. apply Hout. by right.
      * replace (i <=? Z.of_nat (length available)) with false by lia.
        rewrite andb_false_r. apply IH. intros j Hj. apply Hout. by right.
Qed.

(** ** BrowserRestore: the list of backups *)

Lemma insert_desc_perm (x : Z * path) (l : list (Z * path)) :
  BrowserRestore.insert_desc x l ≡ₚ x :: l.
Proof.
  induction l as [|y l IH]; simpl; [done|].
  destruct (y.1 <=? x.1); [done|]. rewrite IH. apply Permutation_swap.
Qed.

(** The sort permutes its input, and its output is in descending order
    of the keys. *)
Lemma sorted_desc_perm (l : list (Z * path)) : BrowserRestore.sorted_desc l ≡ₚ l.
Proof.
  induction l as [|x l IH]; simpl; [done|]. by rewrite insert_desc_perm, IH.
Qed.

Lemma insert_desc_sorted (x : Z * path) (l : list (Z * path)) :
  StronglySorted (λ a b, b.1 ≤ a.1) l →
  StronglySorted (λ a b, b.1 ≤ a.1) (BrowserRestore.insert_desc x l).
Proof.
  induction 1 as [|y l Hl IH Hy]; simpl.
  - constructor; constructor.
  - destruct (Z.leb_spec y.1 x.1) as [Hle|Hlt].
    + constructor; [by constructor|]. constructor; [done|].
      eapply Forall_impl; [exact Hy|]. simpl. intros; lia.
    + constructor; [exact IH|]. rewrite insert_desc_perm. constructor; [lia | exact Hy].
Qed.

Lemma sorted_desc_sorted (l : list (Z * path)) :
  StronglySorted (λ a b, b.1 ≤ a.1) (BrowserRestore.sorted_desc l).
Proof.
  induction l as [|x l IH]; simpl; [constructor | by apply insert_desc_sorted].
Qed.

(** The keys of the sort: all of them, or the exception of the first
    [stat] that fails. *)
Lemma keyed_cases (e : env) (ds : list path) :
  match BrowserRestore.keyed e ds with
  | Ok l => l = map (λ d, (st_mtime e d, d)) ds ∧ ∀ d, d ∈ ds → stat_fails e d = false
  | Raise ex => ∃ d, ex = OSError d ∧ d ∈ ds ∧ stat_fails e d = true
  end.
Proof.
  induction ds as [|d ds IH]; simpl.
  - split; [done|]. intros d Hd. by apply elem_of_nil in Hd.
  - unfold stat_mtime. destruct (stat_fails e d) eqn:Hd.
    + exists d. split_and!; [done | left | done].
    + destruct (BrowserRestore.keyed e ds) as [l|ex].
      * destruct IH as [-> Hall]. split; [done|].
        intros d' [->|Hd']%elem_of_cons; [done | by apply Hall].
      * destruct IH as (d' & -> & Hd' & Hfail). exists d'. split_and!; [done | by right | done].
Qed.

(** Entries sorted with their keys are sorted by modification time. *)
Lemma sorted_by_key (e : env) (l : list (Z * path)) :
  StronglySorted (λ a b, b.1 ≤ a.1) l →
  Forall (λ p, p.1 = st_mtime e p.2) l →
  StronglySorted (λ a b, st_mtime e b ≤ st_mtime e a) (map snd l).
Proof.
  induction 1 as [|x l Hl IH Hx]; intros Hkeys; simpl; [constructor|].
  apply Forall_cons in Hkeys as [Hkx Hkeys]. constructor; [by apply IH|].
  apply Forall_fmap. rewrite Forall_forall in Hx, Hkeys. apply Forall_forall.
  intros y Hy. simpl. rewrite <- Hkx, <- (Hkeys y Hy). by apply Hx.
Qed.

(** The list of [list_available_backups]: the directories below the
    root, newest first. *)
Lemma list_available_backups_cases (e : env) (backup : disk) (backups : path) :
  match BrowserRestore.list_available_backups e backup backups with
  | Ok bs =>
      bs ≡ₚ List.filter (is_dir backup) (iterdir backup backups)
      ∧ StronglySorted (λ a b, st_mtime e b ≤ st_mtime e a) bs
      ∧ ∀ d, d ∈ bs → stat_fails e d = false
  | Raise ex =>
      ∃ d, ex = OSError d ∧ d ∈ iterdir backup backups ∧ is_dir backup d = true
           ∧ stat_fails e d = true
  end.
Proof.
  unfold BrowserRestore.list_available_backups.
  destruct (exists_ backup backups) eqn:Hex; simpl.
  2:{ assert (Hnil : iterdir backup backups = []).
      { destruct (iterdir backup backups) as [|q l] eqn:E; [done|].
        assert (Hq : q ∈ iterdir backup backups) by (rewrite E; left).
        apply iterdir_exists in Hq. congruence. }
      rewrite Hnil. simpl. split_and!; [done | constructor |].
      intros d Hd. by apply elem_of_nil in Hd. }
  pose proof (keyed_cases e (List.filter (is_dir backup) (iterdir backup backups))) as Hk.
  destruct (BrowserRestore.keyed e _) as [l|ex].
  - destruct Hk as [-> Hall].
    set (ds := List.filter (is_dir backup) (iterdir backup backups)) in *.
    assert (Hperm : map snd (BrowserRestore.sorted_desc (map (λ d, (st_mtime e d, d)) ds))
                    ≡ₚ ds).
    { rewrite sorted_desc_perm. rewrite <- list_fmap_compose.
      erewrite (list_fmap_ext _ id); [by rewrite list_fmap_id | by intros]. }
    split_and!; [exact Hperm | |].
    + apply sorted_by_key; [apply sorted_desc_sorted|].
      rewrite sorted_desc_perm. by apply Forall_fmap, Forall_true.
    + intros d Hd. apply Hall. by rewrite <- Hperm.
  - destruct Hk as (d & -> & [Hd Hdir]%list_elem_of_In%filter_In & Hfail).
    exists d. split_and!; try done. by apply list_elem_of_In.
Qed.

(** X19. When it returns, [list_available_backups] yields the
    directories directly below the backup root, each once, ordered by
    modification time with the newest first, and [stat] has failed for
    none of them. Otherwise it raises the [OSError] of a [stat] that failed
    on one of these directories. *)
Theorem list_available_backups_newest_first (e : env) (backup : disk) (backups : path) :
  match BrowserRestore.list_available_backups e backup backups with
  | Ok bs =>
      bs ≡ₚ List.filter (is_dir backup) (iterdir backup backups)
      ∧ StronglySorted (λ a b, st_mtime e b ≤ st_mtime e a) bs
      ∧ ∀ d, d ∈ bs → stat_fails e d = false
  | Raise ex =>
      ∃ d, ex = OSError d ∧ d ∈ iterdir backup backups ∧ is_dir backup d = true
           ∧ stat_fails e d = true
  end.
Proof. apply list_available_backups_cases. Qed.

(** Answers that are no number, or out of range, are passed over. *)
Lemma ask_skips (bs : list path) (wrong rest : list (option Z)) :
  Forall (λ a, match a with
               | None => True
               | Some i => i < 1 ∨ Z.of_nat (length bs) < i
               end) wrong →
  BrowserRestore.ask bs (wrong ++ rest) = BrowserRestore.ask bs rest.
Proof.
  induction 1 as [|[i|] wrong Hi _ IH]; simpl; [done | | done].
  destruct Hi.
  - replace (1 <=? i) with false by lia. done.
  - replace (i <=? Z.of_nat (length bs)) with false by lia. by rewrite andb_false_r.
Qed.

(** With backups to choose from, [select_backup] is its loop. *)
Lemma select_backup_asks (e : env) (backup : disk) (backups : path)
    (answers : list (option Z)) (bs : list path) :
  BrowserRestore.list_available_backups e backup backups = Ok bs → bs ≠ [] →
  BrowserRestore.select_backup e backup backups answers = Ok (BrowserRestore.ask bs answers).
Proof.
  intros Hlist Hne. unfold BrowserRestore.select_backup.
  pose proof (list_available_backups_cases e backup backups) as Hcases.
  rewrite Hlist in *. destruct Hcases as (_ & _ & Hstat).
  destruct bs as [|b bs]; [done|].
  pose proof (keyed_cases e (b :: bs)) as Hk.
  destruct (BrowserRestore.keyed e (b :: bs)) as [l|ex]; [done|].
  destruct Hk as (d & _ & Hd & Hfail). rewrite (Hstat d Hd) in Hfail. done.
Qed.

(** X20. [select_backup] skips every answer that is not a number or is
    out of range, and is still asking when there is no other answer. The
    first number [n] in range selects the entry at place [n] of the list
    of backups; the answer 1 selects a backup that none is newer than. *)
Theorem select_backup_takes_the_first_valid_answer (e : env) (backup : disk)
    (backups : path) (bs : list path) (wrong rest : list (option Z)) (n : Z) :
  BrowserRestore.list_available_backups e backup backups = Ok bs →
  bs ≠ [] →
  Forall (λ a, match a with
               | None => True
               | Some i => i < 1 ∨ Z.of_nat (length bs) < i
               end) wrong →
  1 ≤ n ≤ Z.of_nat (length bs) →
  BrowserRestore.select_backup e backup backups wrong = Ok Still_asking
  ∧ ∃ d, BrowserRestore.select_backup e backup backups (wrong ++ Some n :: rest)
         = Ok (Selected d)
         ∧ bs !! Z.to_nat (n - 1) = Some d
         ∧ (n = 1 → ∀ d', d' ∈ bs → st_mtime e d' ≤ st_mtime e d).
Proof.
  intros Hlist Hne Hwrong Hn.
  rewrite !(select_backup_asks e backup backups _ bs Hlist Hne). split.
  - rewrite <- (app_nil_r wrong). by rewrite ask_skips.
  - rewrite ask_skips by exact Hwrong. simpl.
    replace ((1 <=? n) && (n <=? Z.of_nat (length bs))) with true
      by (symmetry; apply andb_true_intro; split; lia).
    destruct (lookup_lt_is_Some_2 bs (Z.to_nat (n - 1))) as [d Hd]; [lia|].
    exists d. split_and!.
    + by rewrite (nth_lookup_Some _ _ [] _ Hd).
    + exact Hd.
    + intros ->. simpl in Hd.
      pose proof (list_available_backups_cases e backup backups) as Hcases.
      rewrite Hlist in Hcases. destruct Hcases as (_ & Hsorted & _).
      destruct bs as [|b bs]; [done|]. injection Hd as ->.
      apply StronglySorted_inv in Hsorted as [_ Hall].
      intros d' [->|Hd']%elem_of_cons; [lia|].
      rewrite Forall_forall in Hall. by apply Hall.
Qed.

(** ** BrowserRestore: [run] *)

(** [run] after the two menus is [restore_run] on the selection. *)
Lemma run_selected (e : env) (backup : disk) (backups : path) (h : host)
    (answers : list (option Z)) (answer : browser_answer) (s : state)
    (source_backup : path) :
  BrowserRestore.select_backup e backup backups answers = Ok (Selected source_backup) →
  BrowserRestore.run e backup backups h answers answer s
  = match restore_run e backup
            (BrowserRestore.select_browsers answer backup source_backup)
            (BrowserRestore.table h) s with
    | (Ok b, s') => (Ok (Some b), s')
    | (Raise ex, s') => (Raise ex, s')
    end.
Proof.
  intros Hsel. unfold BrowserRestore.run, restore_run.
  rewrite !(bind_ok _ _ s tt (log_add (INFO, Starting_restore) s)) by reflexivity.
  set (s0 := log_add (INFO, Starting_restore) s).
  rewrite (bind_ok _ _ s0 (Selected source_backup) s0) by (unfold lift; by rewrite Hsel).
  cbv beta iota.
  destruct (BrowserRestore.select_browsers answer backup source_backup) as [|t sel];
    [reflexivity|].
  rewrite !(bind_ok _ _ s0 (fs s) s0) by reflexivity.
  unfold try_except, bind.
  destruct (submit_restores e backup _ (t :: sel) s0) as [[futures|ex] s1]; [|reflexivity].
  destruct (collect Error_restoring_browser futures [] s1) as [[results|ex] s2]; reflexivity.
Qed.

(** [browsers_to_restore] is a dictionary: its keys are distinct. *)
Lemma select_browsers_NoDup (answer : browser_answer) (backup : disk) (source_backup : path) :
  NoDup (Py.keys (BrowserRestore.select_browsers answer backup source_backup)).
Proof.
  unfold BrowserRestore.select_browsers.
  destruct answer; apply keys_fold_set_NoDup; constructor.
Qed.

(** X21. Once a backup and at least one browser are selected,
    [BrowserRestore.run] returns, and it returns [True] exactly when no
    scan fails in the backup of a selected browser that has a destination
    on this machine: whether the copies succeed plays no part, and a
    selected browser without destination is passed over. *)
Theorem restore_result_ignores_the_copies (e : env) (backup : disk) (backups : path)
    (h : host) (answers : list (option Z)) (answer : browser_answer) (s : state)
    (source_backup : path) :
  BrowserRestore.select_backup e backup backups answers = Ok (Selected source_backup) →
  BrowserRestore.select_browsers answer backup source_backup ≠ [] →
  ∃ b s',
    BrowserRestore.run e backup backups h answers answer s = (Ok (Some b), s')
    ∧ (b = true ↔
       ∀ browser source dest p,
         In (browser, source) (BrowserRestore.select_browsers answer backup source_backup) →
         Py.get (get_browser_paths (fs s) (BrowserRestore.table h)) browser = Some dest →
         p ∈ rglob backup source → scan_fails e p = false).
Proof.
  intros Hsel Hne. rewrite (run_selected _ _ _ _ _ _ _ _ Hsel).
  pose proof (restore_run_flag e backup _ (BrowserRestore.table h) s
                (select_browsers_NoDup answer backup source_backup) Hne) as Hflag.
  destruct (restore_run e backup _ (BrowserRestore.table h) s) as [r s']. simpl in Hflag.
  subst r. eexists _, s'. split; [reflexivity|].
  rewrite forallb_forall. split.
  - intros Hall browser source dest p Hin Hget Hp.
    specialize (Hall (browser, source)). unfold scans in Hall. simpl in Hall.
    assert (Hs : exists_ backup source
                 && forallb (λ p, negb (scan_fails e p)) (rglob backup source) = true).
    { apply Hall, filter_In. split; [done|]. simpl. rewrite Hget.
      apply bool_decide_eq_true. eauto. }
    apply andb_prop in Hs as [_ Hs]. rewrite forallb_forall in Hs.
    apply negb_true_iff, Hs, list_elem_of_In, Hp.
  - intros Hall [browser source] [Hin Hget]%filter_In. simpl in Hget.
    apply bool_decide_eq_true in Hget as [dest Hget].
    unfold scans. simpl. apply andb_true_intro. split.
    + apply select_browsers_entries in Hin as [Hav _].
      apply available_browsers_spec in Hav as (_ & Hdir & _).
      unfold is_dir in Hdir. by apply andb_prop in Hdir as [_ ?].
    + apply forallb_forall. intros p Hp. apply negb_true_iff.
      eapply Hall; [exact Hin | exact Hget | by apply list_elem_of_In].
Qed.

(** X22. On a platform other than Windows the table of destinations is
    empty: once a backup and at least one browser are selected,
    [BrowserRestore.run] returns [True], having done nothing but log its
    start. *)
Theorem restore_outside_windows_does_nothing (e : env) (backup : disk) (backups : path)
    (h : host) (answers : list (option Z)) (answer : browser_answer) (s : state)
    (source_backup : path) :
  system h ≠ "Windows" →
  BrowserRestore.select_backup e backup backups answers = Ok (Selected source_backup) →
  BrowserRestore.select_browsers answer backup source_backup ≠ [] →
  BrowserRestore.run e backup backups h answers answer s
  = (Ok (Some true), log_add (INFO, Starting_restore) s).
Proof.
  intros Hsys Hsel Hne. rewrite (run_selected _ _ _ _ _ _ _ _ Hsel).
  unfold restore_run.
  destruct (BrowserRestore.select_browsers answer backup source_backup) as [|t sel]; [done|].
  rewrite (bind_ok _ _ s tt (log_add (INFO, Starting_restore) s)) by reflexivity.
  set (s0 := log_add (INFO, Starting_restore) s).
  rewrite (bind_ok _ _ s0 (fs s) s0) by reflexivity.
  assert (Htable : BrowserRestore.table h = []).
  { unfold BrowserRestore.table. by destruct (String.eqb_spec (system h) "Windows"). }
  rewrite Htable. unfold try_except.
  rewrite (bind_ok _ _ s0 [] s0).
  - reflexivity.
  - apply submit_restores_idle. intros kv _. reflexivity.
Qed.

(** ** The platform check *)

(** X23. [check_platform_compatibility] answers [True] exactly when it
    has no warning, and exactly when tqdm can be imported and the backup
    has a table for the platform. On a platform other than Windows that
    passes the check, the restore has no table of destinations. *)
Theorem platform_check_against_the_tables (tqdm_importable : bool) (h : host) (src : disk) :
  let check := check_platform_compatibility tqdm_importable (system h) in
  (check.1 = true ↔ check.2 = [])
  ∧ (check.1 = true ↔ tqdm_importable = true ∧ BrowserBackup.platform_paths h src ≠ [])
  ∧ (check.1 = true → system h ≠ "Windows" → BrowserRestore.table h = []).
Proof.
  unfold check_platform_compatibility, BrowserBackup.platform_paths, BrowserRestore.table.
  cbn [existsb]. rewrite orb_false_r.
  destruct (String.eqb_spec (system h) "Windows") as [Hw|Hw].
  { unfold BrowserBackup._get_windows_paths.
    rewrite existing_map by (apply (bool_decide_unpack _); by vm_compute).
    destruct tqdm_importable; simpl; split_and!; try done; split; try done; by intros []. }
  destruct (String.eqb_spec (system h) "Linux") as [Hl|Hl].
  { unfold BrowserBackup._get_linux_paths.
    rewrite existing_map by (apply (bool_decide_unpack _); by vm_compute).
    destruct tqdm_importable; simpl; split_and!; try done; split; try done; by intros []. }
  destruct (String.eqb_spec (system h) "Darwin") as [Hd|Hd].
  { unfold BrowserBackup._get_macos_paths.
    rewrite existing_map by (apply (bool_decide_unpack _); by vm_compute).
    destruct tqdm_importable; simpl; split_and!; try done; split; try done; by intros []. }
  destruct tqdm_importable; simpl; split_and!; try done; split; try done; by intros [].
Qed.

(** X24. [BrowserRestore.run] calls [select_backup] outside its [try]
    block: when [stat] fails on a directory of the backup root, the
    exception leaves [run]. When the root holds no directory, or no
    browser is selected, [run] returns [False], having done nothing but
    log its start. *)
Theorem restore_run_before_the_pool (e : env) (backup : disk) (backups : path)
    (h : host) (answers : list (option Z)) (answer : browser_answer) (s : state) :
  (∀ d, d ∈ iterdir backup backups → is_dir backup d = true → stat_fails e d = true →
     ∃ ex, BrowserRestore.run e backup backups h answers answer s
           = (Raise ex, log_add (INFO, Starting_restore) s))
  ∧ (List.filter (is_dir backup) (iterdir backup backups) = [] →
     BrowserRestore.run e backup backups h answers answer s
     = (Ok (Some false), log_add (INFO, Starting_restore) s))
  ∧ (∀ source_backup,
       BrowserRestore.select_backup e backup backups answers = Ok (Selected source_backup) →
       BrowserRestore.select_browsers answer backup source_backup = [] →
       BrowserRestore.run e backup backups h answers answer s
       = (Ok (Some false), log_add (INFO, Starting_restore) s)).
Proof.
  pose proof (list_available_backups_cases e backup backups) as Hcases.
  split_and!.
  - intros d Hd Hdir Hfail.
    destruct (BrowserRestore.list_available_backups e backup backups) as [bs|ex] eqn:Hlist.
    + destruct Hcases as (Hperm & _ & Hstat).
      rewrite (Hstat d) in Hfail; [done|]. rewrite Hperm.
      apply list_elem_of_In, filter_In. split; [by apply list_elem_of_In | done].
    + exists ex. unfold BrowserRestore.run.
      rewrite (bind_ok _ _ s tt (log_add (INFO, Starting_restore) s)) by reflexivity.
      apply bind_raise. unfold lift, BrowserRestore.select_backup. by rewrite Hlist.
  - intros Hnone.
    assert (Hlist : BrowserRestore.list_available_backups e backup backups = Ok []).
    { unfold BrowserRestore.list_available_backups. rewrite Hnone. simpl.
      by destruct (exists_ backup backups). }
    unfold BrowserRestore.run.
    rewrite (bind_ok _ _ s tt (log_add (INFO, Starting_restore) s)) by reflexivity.
    rewrite (bind_ok _ _ _ No_backups (log_add (INFO, Starting_restore) s)); [reflexivity|].
    unfold lift, BrowserRestore.select_backup. by rewrite Hlist.
  - intros source_backup Hsel Hnone. rewrite (run_selected _ _ _ _ _ _ _ _ Hsel).
    rewrite Hnone. reflexivity.
Qed.

(** * The claims on concrete machines *)

Import Scenario.

Example default_config_typed : config_of default_config = Some defaults.
Proof. reflexivity. Qed.

Example str_in_examples :
  Py.str_in "Cache" "GPUCache" = true ∧ Py.str_in "" "" = true
  ∧ Py.str_in "Cache" "cache" = false ∧ Py.drop_last 2 "Extensions/*" = "Extensions"
  ∧ browser_family "OperaGX" = "opera" ∧ browser_family "edge" = "chrome_based".
Proof. repeat split. Qed.

(** The merge of [load_config] is per top-level field: a loaded
    ["backup_options"] replaces the default mapping as a whole. *)
Example merge_is_per_top_level_field :
  Py.get (loaded_config
            (load_config (Parsed (JObj [("backup_options", jbools [("bookmarks", true)])]))))
    "backup_options"
  = Some (jbools [("bookmarks", true)]).
Proof. reflexivity. Qed.

(** An enabled option that the pattern table does not know makes
    [_should_backup_file] raise, unless an earlier option already matched. *)
Example unknown_option_raises :
  known_options unknown_option = false
  ∧ _should_backup_file unknown_option "notes.txt" "chrome" = Raise (KeyError "downloads")
  ∧ _should_backup_file unknown_option "Bookmarks" "chrome" = Ok true.
Proof. repeat split. Qed.

Lemma copy_engine_isolates_failures_witness :
  ∃ b s',
    backup_browser garbling defaults bookmarks_and_history Scenario.backup_root "chrome"
      [profile] (initial empty_disk) = (Ok b, s')
    ∧ (∀ root d file,
         job defaults bookmarks_and_history Scenario.backup_root "chrome" [profile] root d file →
         attempted garbling defaults bookmarks_and_history root d file s')
    ∧ ((∀ root d file,
          job defaults bookmarks_and_history Scenario.backup_root "chrome" [profile] root d file →
          nothing_raises garbling bookmarks_and_history root d file) →
       log s' = log (initial empty_disk)).
Proof.
  apply (copy_engine_isolates_failures garbling defaults bookmarks_and_history
           Scenario.backup_root "chrome" [profile] (initial empty_disk)).
  - reflexivity.
  - intros source _. reflexivity.
  - vm_compute. reflexivity.
  - vm_compute. reflexivity.
  - vm_compute. reflexivity.
Defined.

(** Why the directory of the task has to be fresh: when a directory lies
    at the destination of "Bookmarks", [copy2] returns and puts the file
    into that directory; [verify_copy] then fails to open the destination
    and answers [False], so that no file is at the destination although
    [mkdir] and [copy2] returned. *)
Example copy_onto_a_directory :
  let dst_file := Scenario.backup_root ++ ["chrome"; "User Data"; "Default"; "Bookmarks"] in
  let out := backup_browser calm defaults bookmarks_and_history Scenario.backup_root
               "chrome" [profile] (initial directory_in_the_way) in
  copy_returns calm bookmarks_and_history (profile ++ ["Default"])
    (Scenario.backup_root ++ ["chrome"; "User Data"; "Default"]) "Bookmarks" = true
  ∧ files (fs out.2) !! dst_file = None
  ∧ files (fs out.2) !! (dst_file ++ ["Bookmarks"]) = Some "bookmarks-v1"
  ∧ log out.2 = [(ERROR, Verification_failed (OSError dst_file))]
  ∧ out.1 = Ok true.
Proof. vm_compute. repeat split. Qed.

(** C1 as stated fails: with [verify_copies] set, the copy of "Bookmarks"
    arrives with other bytes and another hash, and the run returns [True]
    with an empty log: nothing records the mismatch. *)
Lemma hash_mismatch_is_not_recorded :
  let src_file := profile ++ ["Default"; "Bookmarks"] in
  let dst_file := Scenario.backup_root ++ ["chrome"; "User Data"; "Default"; "Bookmarks"] in
  let out := backup_browser garbling defaults bookmarks_and_history Scenario.backup_root
               "chrome" [profile] (initial empty_disk) in
  verify_copies defaults = true
  ∧ files bookmarks_and_history !! src_file = Some "bookmarks-v1"
  ∧ files (fs out.2) !! dst_file = Some "garbage"
  ∧ sha256 garbling "garbage" ≠ sha256 garbling "bookmarks-v1"
  ∧ out.1 = Ok true
  ∧ log out.2 = [].
Proof. vm_compute. repeat split. discriminate. Qed.

Example tree_three_selected :
  tree three_selected profile
  = [ profile ++ ["Default"; "History"];
      profile ++ ["Default"; "Bookmarks"];
      profile ++ ["Default"; "Cache.db"] ].
Proof. vm_compute. reflexivity. Qed.

Lemma copy_engine_success_flag_witness :
  (∃ b s',
     backup_browser calm unknown_option two_sources Scenario.backup_root "chrome"
       [profile; second_profile] (initial empty_disk) = (Ok b, s')
     ∧ (b = true →
        ∃ root d file,
          job unknown_option two_sources Scenario.backup_root "chrome"
            (reached calm unknown_option two_sources Scenario.backup_root "chrome"
               [profile; second_profile]) root d file
          ∧ copied_ok calm unknown_option two_sources root d file = true)
     ∧ (fresh (fs (initial empty_disk)) (Scenario.backup_root ++ ["chrome"]) = true →
        tree_like two_sources = true →
        distinct_names [profile; second_profile] = true →
        (∃ root d file,
           job unknown_option two_sources Scenario.backup_root "chrome"
             (reached calm unknown_option two_sources Scenario.backup_root "chrome"
                [profile; second_profile]) root d file
           ∧ copied_ok calm unknown_option two_sources root d file = true) →
        b = true))
  ∧ ∃ s', backup_browser calm defaults three_selected Scenario.backup_root "chrome" [profile]
            (initial empty_disk) = (Ok true, s')
          ∧ size (files (fs s')) = 2%nat.
Proof.
  split.
  - apply (proj1 copy_engine_success_flag calm unknown_option two_sources
             Scenario.backup_root "chrome" [profile; second_profile] (initial empty_disk)).
  - apply (proj2 copy_engine_success_flag calm defaults three_selected Scenario.backup_root
             "chrome" profile (initial empty_disk)).
    + vm_compute. reflexivity.
    + vm_compute. reflexivity.
    + vm_compute. reflexivity.
    + vm_compute. reflexivity.
    + vm_compute. reflexivity.
    + vm_compute. reflexivity.
    + vm_compute. reflexivity.
    + intros p Hp Hx.
      assert (Htree : tree three_selected profile
                      = [ profile ++ ["Default"; "History"];
                          profile ++ ["Default"; "Bookmarks"];
                          profile ++ ["Default"; "Cache.db"] ])
        by (vm_compute; reflexivity).
      rewrite Htree in Hp.
      apply list_elem_of_In in Hp. destruct Hp as [<-|[<-|[<-|[]]]].
      * split; vm_compute; reflexivity.
      * split; vm_compute; reflexivity.
      * vm_compute in Hx. discriminate Hx.
Defined.

(** A fault outside the per-file handler does not reset the flag. The
    first source is copied; for the second one the FileSelector raises
    [KeyError] while the files are counted, which ends the loop over the
    sources. The copy made before counts: the task returns [True]. *)
Example flag_survives_an_outer_fault :
  let out := backup_browser calm unknown_option two_sources Scenario.backup_root "chrome"
               [profile; second_profile] (initial empty_disk) in
  reached calm unknown_option two_sources Scenario.backup_root "chrome"
    [profile; second_profile] = [profile]
  ∧ log out.2 = [(ERROR, Error_backing_up "chrome" (KeyError "downloads"))]
  ∧ files (fs out.2) !! (Scenario.backup_root ++ ["chrome"; "User Data"; "Bookmarks"])
    = Some "bookmarks-v1"
  ∧ out.1 = Ok true.
Proof. vm_compute. repeat split. Qed.

(** Why "if" asks for a fresh directory: the machine has no fault and the
    file is selected, but a directory lies at its destination; [copy2]
    puts the file into it, [verify_copy] cannot open the destination, and
    the task returns [False]. *)
Example flag_needs_a_clear_destination :
  let out := backup_browser calm defaults only_bookmarks Scenario.backup_root "chrome"
               [profile] (initial directory_in_the_way) in
  reached calm defaults only_bookmarks Scenario.backup_root "chrome" [profile] = [profile]
  ∧ copied_ok calm defaults only_bookmarks (profile ++ ["Default"])
      (Scenario.backup_root ++ ["chrome"; "User Data"; "Default"]) "Bookmarks" = true
  ∧ fresh (fs (initial directory_in_the_way)) (Scenario.backup_root ++ ["chrome"]) = false
  ∧ out.1 = Ok false.
Proof. vm_compute. repeat split. Qed.

(** C2 as stated fails on the scenario: three files, one excluded by
    "Cache", under the default configuration; the other two match no
    pattern, no file is copied and the flag is false. *)
Lemma three_files_none_selected :
  let out := backup_browser calm defaults three_plain Scenario.backup_root "chrome" [profile]
               (initial empty_disk) in
  length (tree three_plain profile) = 3%nat
  ∧ In "Cache" (excluded_files defaults)
  ∧ length (filter (λ p, Py.str_in "Cache" (name p) = true) (tree three_plain profile)) = 1%nat
  ∧ length (filter (λ p, has_excluded defaults (name p) = true) (tree three_plain profile))
    = 1%nat
  ∧ size (files (fs out.2)) = 0%nat
  ∧ out.1 = Ok false.
Proof. vm_compute. repeat split; auto. Qed.

Lemma excluded_names_never_copied_witness :
  files (fs (backup_browser calm defaults three_selected Scenario.backup_root "chrome"
               [profile] (initial empty_disk)).2)
    !! ((dest_of Scenario.backup_root "chrome" profile
         ++ relative_to (profile ++ ["Default"]) profile) ++ ["Cache.db"])
  = files (fs (initial empty_disk))
    !! ((dest_of Scenario.backup_root "chrome" profile
         ++ relative_to (profile ++ ["Default"]) profile) ++ ["Cache.db"]).
Proof.
  apply (proj1 excluded_names_never_copied calm defaults three_selected Scenario.backup_root
           "chrome" [profile] (initial empty_disk) profile (profile ++ ["Default"]) "Cache.db").
  reflexivity.
Defined.

(** C7 as stated fails: "Cache" is an excluded substring and occurs in the
    path of the file, below the source root, but not in its name; the file
    is copied. *)
Lemma file_under_cache_directory_is_copied :
  let rel_path := ["Default"; "Extensions"; "ghbmnnjo"; "Cache"; "index.js"] in
  let out := backup_browser calm defaults cache_directory Scenario.backup_root "chrome"
               [profile] (initial empty_disk) in
  In "Cache" (excluded_files defaults)
  ∧ Py.str_in "Cache" (path_str rel_path) = true
  ∧ is_Some (files cache_directory !! (profile ++ rel_path))
  ∧ files (fs (initial empty_disk))
      !! (Scenario.backup_root ++ ["chrome"; "User Data"] ++ rel_path) = None
  ∧ files (fs out.2) !! (Scenario.backup_root ++ ["chrome"; "User Data"] ++ rel_path) = Some "js".
Proof. vm_compute. repeat split; auto. by eexists. Qed.

Lemma run_report_complete_witness :
  ∃ futures s',
    run_with flaky_task calm defaults two_browsers backups Scenario.backup_root now
      [("chrome", [profile]); ("firefox", [firefox_profiles])] (initial made_backup_dir)
    = (Ok (Some true), s')
    ∧ Forall2 (dispatched flaky_task) futures
        (_validate_paths defaults two_browsers
           [("chrome", [profile]); ("firefox", [firefox_profiles])])
    ∧ saved_report s' =
        Some {| backup_location := Scenario.backup_root; results := map entry_of futures |}
    ∧ files (fs s') !! (Scenario.backup_root ++ ["backup_report.json"])
      = Some (json_dump calm Scenario.backup_root (map entry_of futures)).
Proof.
  apply (run_report_complete flaky_task calm defaults two_browsers backups
           Scenario.backup_root now
           [("chrome", [profile]); ("firefox", [firefox_profiles])] (initial made_backup_dir)).
  - intros H. vm_compute in H. discriminate H.
  - vm_compute. reflexivity.
  - vm_compute. reflexivity.
  - vm_compute. reflexivity.
Defined.

(** The worker of Firefox raises: the report still has one entry for each
    of the two tasks, and only Firefox is recorded as failed. *)
Example report_with_a_raising_task :
  let out := run_with flaky_task calm defaults two_browsers backups Scenario.backup_root now
               [("chrome", [profile]); ("firefox", [firefox_profiles])]
               (initial made_backup_dir) in
  out.1 = Ok (Some true)
  ∧ saved_report out.2 =
      Some {| backup_location := Scenario.backup_root;
              results := [("chrome", true); ("firefox", false)] |}
  ∧ is_Some (files (fs out.2) !! (Scenario.backup_root ++ ["backup_report.json"])).
Proof. vm_compute. repeat split. by eexists. Qed.

(** Without the directory of the run the report cannot be written, and
    [run] returns [False]. *)
Example report_without_its_directory :
  let out := run_with flaky_task calm defaults two_browsers backups Scenario.backup_root now
               [("chrome", [profile]); ("firefox", [firefox_profiles])]
               (initial empty_disk) in
  out.1 = Ok (Some false) ∧ saved_report out.2 = None ∧ files (fs out.2) = ∅.
Proof. vm_compute. repeat split. Qed.

Example iterdir_earlier_runs :
  iterdir (fs (initial earlier_runs)) backups
  = [ backups ++ ["20251203_120000"];
      backups ++ ["20251202_120000"];
      backups ++ ["20251201_120000"] ].
Proof. vm_compute. reflexivity. Qed.

Lemma sweeper_threshold_witness :
  (exists_ (fs (cleanup_old_backups aging defaults backups now (initial earlier_runs)).2)
     (backups ++ ["20251201_120000"]) = false
   ↔ now - st_mtime aging (backups ++ ["20251201_120000"]) > retention_days defaults * 86400)
  ∧ (exists_ (fs (cleanup_old_backups aging defaults backups now (initial earlier_runs)).2)
       (backups ++ ["20251202_120000"]) = false
     ↔ now - st_mtime aging (backups ++ ["20251202_120000"]) > retention_days defaults * 86400)
  ∧ (exists_ (fs (cleanup_old_backups aging defaults backups now (initial earlier_runs)).2)
       (backups ++ ["20251203_120000"]) = false
     ↔ now - st_mtime aging (backups ++ ["20251203_120000"]) > retention_days defaults * 86400).
Proof.
  split_and!;
    apply (sweeper_threshold aging defaults backups now (initial earlier_runs));
    try (intros p; reflexivity);
    try (rewrite iterdir_earlier_runs; apply list_elem_of_In; simpl; tauto);
    vm_compute; reflexivity.
Defined.

(** Retention of 30 days: the run that is 31 days old is swept, the runs
    that are exactly 30 days and 29 days old are kept. *)
Example sweep_31_30_29_days :
  let after := fs (cleanup_old_backups aging defaults backups now (initial earlier_runs)).2 in
  now - st_mtime aging (backups ++ ["20251201_120000"]) = 31 * 86400
  ∧ now - st_mtime aging (backups ++ ["20251202_120000"]) = 30 * 86400
  ∧ now - st_mtime aging (backups ++ ["20251203_120000"]) = 29 * 86400
  ∧ exists_ after (backups ++ ["20251201_120000"]) = false
  ∧ exists_ after (backups ++ ["20251202_120000"]) = true
  ∧ exists_ after (backups ++ ["20251203_120000"]) = true.
Proof. vm_compute. repeat split. Qed.

Example iterdir_two_old_runs :
  iterdir (fs (initial two_old_runs)) backups = [] ++ first_entry :: [second_entry].
Proof. vm_compute. reflexivity. Qed.

Lemma sweeper_stops_at_failed_deletion_witness :
  ∃ s', cleanup_old_backups stuck defaults backups now (initial two_old_runs) = (Ok tt, s')
        ∧ (∃ ex, In (ERROR, Error_cleaning_up ex) (log s'))
        ∧ is_dir (fs s') first_entry = true
        ∧ ∀ q, q ∈ [second_entry] →
            same_below q (fs (initial two_old_runs)) (fs s')
            ∧ exists_ (fs s') q = exists_ (fs (initial two_old_runs)) q
            ∧ is_dir (fs s') q = is_dir (fs (initial two_old_runs)) q.
Proof.
  apply (sweeper_stops_at_failed_deletion stuck defaults backups now (initial two_old_runs)
           [] [second_entry] first_entry).
  - apply iterdir_two_old_runs.
  - vm_compute. reflexivity.
  - vm_compute. reflexivity.
  - vm_compute. reflexivity.
Defined.

(** C6 as stated fails: both runs are 40 days old and only the first
    cannot be deleted; [rmtree] removes its report and then fails. The
    sweep logs the failure and returns; the first run is still there,
    without its report, and the second run, whose deletion would succeed,
    is still there with all that it holds. *)
Lemma failed_deletion_ends_the_sweep :
  let out := cleanup_old_backups stuck defaults backups now (initial two_old_runs) in
  iterdir (fs (initial two_old_runs)) backups = [first_entry; second_entry]
  ∧ now - st_mtime stuck first_entry > retention_days defaults * 86400
  ∧ now - st_mtime stuck second_entry > retention_days defaults * 86400
  ∧ rmtree_fails stuck first_entry = true
  ∧ rmtree_fails stuck second_entry = false
  ∧ is_dir (fs (initial two_old_runs)) second_entry = true
  ∧ out.1 = Ok tt
  ∧ log out.2 = [(ERROR, Error_cleaning_up (OSError first_entry))]
  ∧ is_dir (fs out.2) first_entry = true
  ∧ files (fs out.2) !! (first_entry ++ ["backup_report.json"]) = None
  ∧ exists_ (fs out.2) second_entry = true
  ∧ files (fs out.2) !! (second_entry ++ ["backup_report.json"]) = Some "{}".
Proof. vm_compute. repeat split. Qed.

(** C9, the code at the failing input. The Chrome profile directory
    "User Data" holds [Default/Bookmarks] and [Default/History]. [run]
    stores them below [<backup_root>/chrome/User Data]. Then the profile
    directory is emptied and [BrowserRestore.run] restores all browsers of
    that backup, with the same platform table: it returns [True] and logs
    no error, the files are written below [User Data/User Data], and no
    file is back at its place. *)
Theorem restore_nests_the_profile_directory :
  let backed := run calm defaults bookmarks_and_history backups Scenario.backup_root now
                  [("chrome", [profile])] (initial empty_disk) in
  let saved := fs backed.2 in
  let out := restore_run calm saved (select_browsers saved Scenario.backup_root)
               [("chrome", profile)] (initial emptied_profile) in
  files bookmarks_and_history !! (profile ++ ["Default"; "Bookmarks"]) = Some "bookmarks-v1"
  ∧ backed.1 = Ok (Some true)
  ∧ files saved !! (Scenario.backup_root ++ ["chrome"; "User Data"; "Default"; "Bookmarks"])
    = Some "bookmarks-v1"
  ∧ select_browsers saved Scenario.backup_root
    = [("chrome", Scenario.backup_root ++ ["chrome"])]
  ∧ out.1 = Ok true
  ∧ log out.2 = [(INFO, Starting_restore)]
  ∧ files (fs out.2) !! (profile ++ ["Default"; "Bookmarks"]) = None
  ∧ files (fs out.2) !! (profile ++ ["Default"; "History"]) = None
  ∧ files (fs out.2) !! (profile ++ ["User Data"; "Default"; "Bookmarks"])
    = Some "bookmarks-v1".
Proof. vm_compute. repeat split. Qed.

Lemma restore_browser_result_witness :
  ∃ b s',
    restore_browser read_only bookmarks_and_history "chrome" profile ["D:"; "restored"]
      (initial empty_disk) = (Ok b, s')
    ∧ (b = true ↔ exists_ bookmarks_and_history profile = true
                  ∧ ∀ p, p ∈ rglob bookmarks_and_history profile → scan_fails read_only p = false)
    ∧ ((∀ a b, copy2_outcome read_only a b = Copy_raises None) →
       files (fs s') = files (fs (initial empty_disk))).
Proof.
  apply (restore_browser_result read_only bookmarks_and_history "chrome" profile
           ["D:"; "restored"] (initial empty_disk)).
Defined.

(** Every copy of the restore fails: no file is restored, two errors are
    logged, and [restore_browser] still returns [True]. *)
Example restore_with_every_copy_failing :
  let out := restore_browser read_only bookmarks_and_history "chrome" profile ["D:"; "restored"]
               (initial empty_disk) in
  out.1 = Ok true
  ∧ files (fs out.2) = ∅
  ∧ length (log out.2) = 2%nat.
Proof. vm_compute. repeat split. Qed.

(** A missing source path is the one ordinary way to [False]. *)
Example restore_of_a_missing_backup :
  (restore_browser calm empty_disk "chrome" (Scenario.backup_root ++ ["chrome"]) profile
     (initial empty_disk)).1 = Ok false.
Proof. vm_compute. reflexivity. Qed.


(** * Further properties on concrete machines *)

Lemma validate_paths_spec_witness :
  _validate_paths nothing_selected two_browsers
    [("chrome", [profile]); ("firefox", [firefox_profiles]); ("operagx", [])]
  = map (λ kv, (kv.1, List.filter (kept nothing_selected two_browsers) kv.2))
        (List.filter (λ kv, enabled nothing_selected kv.1)
           [("chrome", [profile]); ("firefox", [firefox_profiles]); ("operagx", [])]).
Proof.
  apply (validate_paths_spec nothing_selected two_browsers
           [("chrome", [profile]); ("firefox", [firefox_profiles]); ("operagx", [])]).
  apply (bool_decide_unpack _). vm_compute. reflexivity.
Defined.

(** A browser that the configuration does not mention is backed up, also
    when it has no profile directory. *)
Example unlisted_browser_is_enabled :
  _validate_paths nothing_selected two_browsers
    [("chrome", [profile]); ("firefox", [firefox_profiles]); ("operagx", [])]
  = [("chrome", [profile]); ("firefox", [firefox_profiles]); ("operagx", [])].
Proof. vm_compute. reflexivity. Qed.

Lemma should_backup_file_monotone_witness :
  _should_backup_file defaults "Default/Bookmarks.bak" "chrome" = Ok true.
Proof.
  apply (should_backup_file_monotone defaults "Bookmarks" "Default/Bookmarks.bak" "chrome").
  - vm_compute. reflexivity.
  - vm_compute. reflexivity.
Defined.

Lemma should_backup_file_spec_witness :
  _should_backup_file defaults "Default/notes.txt" "chrome"
  = Ok (negb (Py.any (Py.values (backup_options defaults)))
        || existsb (selects (browser_family "chrome") "Default/notes.txt")
             (backup_options defaults)).
Proof.
  apply (should_backup_file_spec defaults "Default/notes.txt" "chrome").
  vm_compute. reflexivity.
Defined.

Lemma select_backup_options_spec_witness :
  let chosen := BrowserBackup.select_backup_options "2" (λ _, "n") defaults in
  backup_options chosen
  = map (λ kv, (kv.1, if String.eqb "2" "2"
                      then Py.startswith (Py.lower "n") "y" else true))
        (backup_options defaults)
  ∧ ("2" = "2" →
     (∀ option, option ∈ Py.keys (backup_options defaults) →
        Py.startswith (Py.lower "n") "y" = false) →
     ∀ file_name browser_type, _should_backup_file chosen file_name browser_type = Ok true)
  ∧ ("2" ≠ "2" → backup_options defaults ≠ [] →
     (∀ option, option ∈ Py.keys (backup_options defaults) → known_category option = true) →
     ∀ file_name browser_type,
       _should_backup_file chosen file_name browser_type
       = Ok (existsb (λ option, selects (browser_family browser_type) file_name (option, true))
               (Py.keys (backup_options defaults)))).
Proof.
  apply (select_backup_options_spec "2" (λ _, "n") defaults).
  apply (bool_decide_unpack _). vm_compute. reflexivity.
Defined.

(** "Everything" skips a file that no pattern names; declining every data
    type backs it up. *)
Example everything_is_less_than_nothing :
  _should_backup_file (BrowserBackup.select_backup_options "1" (λ _, "") defaults)
    "Default/notes.txt" "chrome" = Ok false
  ∧ _should_backup_file (BrowserBackup.select_backup_options "2" (λ _, "n") defaults)
      "Default/notes.txt" "chrome" = Ok true.
Proof. vm_compute. split; reflexivity. Qed.

Lemma unknown_option_stops_the_backup_witness :
  (∀ file_name browser_type,
     _should_backup_file misspelt_option file_name browser_type = Raise (KeyError "histroy"))
  ∧ ∃ s', backup_browser calm misspelt_option bookmarks_and_history Scenario.backup_root
            "chrome" [profile] (initial empty_disk) = (Ok false, s')
          ∧ files (fs s') = files (fs (initial empty_disk)).
Proof.
  apply (unknown_option_stops_the_backup calm misspelt_option bookmarks_and_history
           Scenario.backup_root "chrome" [profile] (initial empty_disk)
           [("bookmarks", false)] [] "histroy").
  - reflexivity.
  - intros o [<-|[]]. reflexivity.
  - vm_compute. reflexivity.
Defined.

Lemma backup_preserves_content_witness :
  files (fs (backup_browser calm defaults bookmarks_and_history Scenario.backup_root "chrome"
               [profile] (initial empty_disk)).2)
    !! (Scenario.backup_root ++ ["chrome"; "User Data"; "Default"; "Bookmarks"])
  = Some "bookmarks-v1"
  ↔ ∃ p, p ∈ tree bookmarks_and_history profile ∧ passes defaults "chrome" profile p
         ∧ Scenario.backup_root ++ ["chrome"; "User Data"; "Default"; "Bookmarks"]
           = copy_of Scenario.backup_root "chrome" profile p
         ∧ files bookmarks_and_history !! p = Some "bookmarks-v1".
Proof.
  apply (backup_preserves_content calm defaults bookmarks_and_history Scenario.backup_root
           "chrome" profile (initial empty_disk)).
  - vm_compute. reflexivity.
  - intros p. reflexivity.
  - intros a b. reflexivity.
  - reflexivity.
  - vm_compute. reflexivity.
  - vm_compute. reflexivity.
Defined.

Lemma main_reports_success_when_nothing_is_found_witness :
  let backup_root := backups ++ ["20260101_120000"] in
  let results := map (λ browser, (browser, false))
                   (List.filter (enabled defaults)
                      (Py.keys (BrowserBackup.platform_paths linux_host empty_disk))) in
  ∃ s',
    BrowserBackup.main calm defaults empty_disk backups backup_root now
      (BrowserBackup.platform_paths linux_host empty_disk) "1" (λ _, "")
      (initial made_backup_dir)
    = (Ok (BrowserBackup.Backup_completed_successfully backup_root), s')
    ∧ saved_report s' = Some {| backup_location := backup_root; results := results |}
    ∧ files (fs s') !! (backup_root ++ ["backup_report.json"])
      = Some (json_dump calm backup_root results)
    ∧ ∀ p c, p ≠ backup_root ++ ["backup_report.json"] →
        files (fs s') !! p = Some c → files (fs (initial made_backup_dir)) !! p = Some c.
Proof.
  apply (main_reports_success_when_nothing_is_found calm defaults empty_disk backups
           "20260101_120000" now (BrowserBackup.platform_paths linux_host empty_disk)
           "1" (λ _, "") (initial made_backup_dir)).
  - apply (bool_decide_unpack _). vm_compute. reflexivity.
  - intros browser ps p _ _. vm_compute. reflexivity.
  - exists "chrome". split.
    + apply (bool_decide_unpack _). vm_compute. reflexivity.
    + vm_compute. reflexivity.
  - vm_compute. reflexivity.
  - vm_compute. reflexivity.
  - vm_compute. reflexivity.
  - vm_compute. intros H. discriminate H.
Defined.

(** On Linux without any browser: six tasks, six [False] results, the
    report is the only file that is written, and the run is announced as a
    success. *)
Example nothing_found_on_linux :
  let out := BrowserBackup.main calm defaults empty_disk backups Scenario.backup_root now
               (BrowserBackup.platform_paths linux_host empty_disk) "1" (λ _, "")
               (initial made_backup_dir) in
  out.1 = Ok (BrowserBackup.Backup_completed_successfully Scenario.backup_root)
  ∧ saved_report out.2
    = Some {| backup_location := Scenario.backup_root;
              results := [("chrome", false); ("firefox", false); ("brave", false);
                          ("opera", false); ("operagx", false); ("vivaldi", false)] |}
  ∧ map_to_list (files (fs out.2)) = [(Scenario.backup_root ++ ["backup_report.json"], "{}")]
  ∧ log out.2 = [(INFO, Starting_backup)].
Proof. vm_compute. repeat split. Qed.

Lemma run_sweeps_its_own_backup_witness :
  ∃ s1 s',
    BrowserBackup._create_backup_dir ticking backups "20260101_120000" (initial empty_disk)
    = (Ok (backups ++ ["20260101_120000"]), s1)
    ∧ run ticking keep_nothing bookmarks_and_history backups (backups ++ ["20260101_120000"])
        now [("chrome", [profile])] s1 = (Ok (Some false), s')
    ∧ saved_report s' = saved_report (initial empty_disk)
    ∧ exists_ (fs s') (backups ++ ["20260101_120000"]) = false
    ∧ ∀ p, (backups ++ ["20260101_120000"]) `prefix_of` p → files (fs s') !! p = None.
Proof.
  apply (run_sweeps_its_own_backup ticking keep_nothing bookmarks_and_history backups
           "20260101_120000" now [("chrome", [profile])] (initial empty_disk)).
  - intros p. reflexivity.
  - intros p. reflexivity.
  - reflexivity.
  - vm_compute. reflexivity.
  - intros H. vm_compute in H. discriminate H.
  - vm_compute. reflexivity.
  - vm_compute. reflexivity.
Defined.

(** With [retention_days] = 0 the two files are copied and verified, and
    the sweep of the same run removes them with the directory of the run:
    the report cannot be written, and [run] returns [False]. *)
Example a_run_that_keeps_nothing :
  let made := BrowserBackup._create_backup_dir ticking backups "20260101_120000"
                (initial empty_disk) in
  let out := run ticking keep_nothing bookmarks_and_history backups
               (backups ++ ["20260101_120000"]) now [("chrome", [profile])] made.2 in
  out.1 = Ok (Some false)
  ∧ saved_report out.2 = None
  ∧ In (INFO, Removed_old_backup (backups ++ ["20260101_120000"])) (log out.2)
  ∧ files (fs out.2) = ∅.
Proof. vm_compute. repeat split. auto. Qed.

Lemma restore_is_a_mirror_witness :
  files (fs (restore_browser calm saved_backup "chrome" (Scenario.backup_root ++ ["chrome"])
               profile (initial emptied_profile)).2)
    !! (profile ++ relative_to
                     (Scenario.backup_root ++ ["chrome"; "User Data"; "Default"; "Bookmarks"])
                     (Scenario.backup_root ++ ["chrome"]))
  = Some "bookmarks-v1".
Proof.
  apply (restore_is_a_mirror calm saved_backup "chrome" (Scenario.backup_root ++ ["chrome"])
           profile (initial emptied_profile)
           (Scenario.backup_root ++ ["chrome"; "User Data"; "Default"; "Bookmarks"])
           "bookmarks-v1").
  - intros q. reflexivity.
  - intros a b. reflexivity.
  - intros q. reflexivity.
  - vm_compute. reflexivity.
  - vm_compute. reflexivity.
  - vm_compute. reflexivity.
  - split.
    + exists ["User Data"; "Default"; "Bookmarks"]. reflexivity.
    + vm_compute. lia.
Defined.

Lemma round_trip_nests_the_source_directory_witness :
  let backup := fs (backup_browser calm defaults bookmarks_and_history Scenario.backup_root
                      "chrome" [profile] (initial empty_disk)).2 in
  files (fs (restore_browser calm backup "chrome" (Scenario.backup_root ++ ["chrome"])
               profile (initial emptied_profile)).2)
    !! (profile ++ [name profile]
        ++ relative_to (profile ++ ["Default"; "Bookmarks"]) profile) = Some "bookmarks-v1"
  ∧ profile ++ [name profile] ++ relative_to (profile ++ ["Default"; "Bookmarks"]) profile
    ≠ profile ++ relative_to (profile ++ ["Default"; "Bookmarks"]) profile.
Proof.
  apply (round_trip_nests_the_source_directory calm defaults bookmarks_and_history
           Scenario.backup_root "chrome" profile profile (initial empty_disk)
           (initial emptied_profile) (profile ++ ["Default"; "Bookmarks"]) "bookmarks-v1").
  - vm_compute. reflexivity.
  - intros q. reflexivity.
  - intros a b. reflexivity.
  - intros q. reflexivity.
  - reflexivity.
  - vm_compute. reflexivity.
  - vm_compute. reflexivity.
  - vm_compute. reflexivity.
  - apply (bool_decide_unpack _). vm_compute. reflexivity.
  - vm_compute. reflexivity.
  - vm_compute. reflexivity.
Defined.

Example backups_of_earlier_runs :
  BrowserRestore.list_available_backups aging earlier_runs backups
  = Ok [ backups ++ ["20251203_120000"];
         backups ++ ["20251202_120000"];
         backups ++ ["20251201_120000"] ].
Proof. vm_compute. reflexivity. Qed.

Lemma select_backup_takes_the_first_valid_answer_witness :
  BrowserRestore.select_backup aging earlier_runs backups [None; Some 0; Some 4]
  = Ok Still_asking
  ∧ ∃ d, BrowserRestore.select_backup aging earlier_runs backups
           ([None; Some 0; Some 4] ++ Some 1 :: [Some 2])
         = Ok (Selected d)
         ∧ [ backups ++ ["20251203_120000"];
             backups ++ ["20251202_120000"];
             backups ++ ["20251201_120000"] ] !! Z.to_nat (1 - 1) = Some d
         ∧ (1 = 1 → ∀ d', d' ∈ [ backups ++ ["20251203_120000"];
                                 backups ++ ["20251202_120000"];
                                 backups ++ ["20251201_120000"] ] →
              st_mtime aging d' ≤ st_mtime aging d).
Proof.
  apply (select_backup_takes_the_first_valid_answer aging earlier_runs backups
           [ backups ++ ["20251203_120000"];
             backups ++ ["20251202_120000"];
             backups ++ ["20251201_120000"] ]
           [None; Some 0; Some 4] [Some 2] 1).
  - apply backups_of_earlier_runs.
  - discriminate.
  - repeat constructor; simpl; lia.
  - simpl. lia.
Defined.

Example backups_of_saved_backup :
  BrowserRestore.select_backup read_only saved_backup backups [Some 1]
  = Ok (Selected Scenario.backup_root).
Proof. vm_compute. reflexivity. Qed.

Lemma restore_result_ignores_the_copies_witness :
  ∃ b s',
    BrowserRestore.run read_only saved_backup backups windows_host [Some 1] All_browsers
      (initial emptied_profile) = (Ok (Some b), s')
    ∧ (b = true ↔
       ∀ browser source dest p,
         In (browser, source)
            (BrowserRestore.select_browsers All_browsers saved_backup Scenario.backup_root) →
         Py.get (get_browser_paths (fs (initial emptied_profile))
                   (BrowserRestore.table windows_host)) browser = Some dest →
         p ∈ rglob saved_backup source → scan_fails read_only p = false).
Proof.
  apply (restore_result_ignores_the_copies read_only saved_backup backups windows_host
           [Some 1] All_browsers (initial emptied_profile) Scenario.backup_root).
  - apply backups_of_saved_backup.
  - intros H. vm_compute in H. discriminate H.
Defined.

(** Every copy fails on this machine: nothing is restored, the failure is
    logged, and [run] returns [True]. *)
Example restore_run_with_every_copy_failing :
  let out := BrowserRestore.run read_only saved_backup backups windows_host [Some 1]
               All_browsers (initial emptied_profile) in
  out.1 = Ok (Some true)
  ∧ files (fs out.2) = ∅
  ∧ log out.2
    = [ (INFO, Starting_restore);
        (ERROR, Error_restoring
                  (Scenario.backup_root ++ ["chrome"; "User Data"; "Default"; "Bookmarks"])
                  (OSError (profile ++ ["User Data"; "Default"; "Bookmarks"]))) ].
Proof. vm_compute. repeat split. Qed.

Example backups_of_saved_backup_calm :
  BrowserRestore.select_backup calm saved_backup backups [Some 1]
  = Ok (Selected Scenario.backup_root).
Proof. vm_compute. reflexivity. Qed.

Lemma restore_outside_windows_does_nothing_witness :
  BrowserRestore.run calm saved_backup backups linux_host [Some 1] All_browsers
    (initial empty_disk)
  = (Ok (Some true), log_add (INFO, Starting_restore) (initial empty_disk)).
Proof.
  apply (restore_outside_windows_does_nothing calm saved_backup backups linux_host
           [Some 1] All_browsers (initial empty_disk) Scenario.backup_root).
  - discriminate.
  - apply backups_of_saved_backup_calm.
  - intros H. vm_compute in H. discriminate H.
Defined.
